(** * Safe robot movement test: a shallow embedding of
      [examples/safe_robot_test.py]

    Joint angles, velocities and clock readings are Python floats in the
    source; they are modelled as exact rationals ([Q]), so rounding and the
    non-numbers of IEEE arithmetic are outside the model.  The transport
    (the [rtde] client), the console prompt, the file system and the clock
    are collaborators: every call made to them is recorded in a trace and
    answered by an oracle. *)

From Stdlib Require Import String Ascii List Arith Bool Lia ZArith QArith Qabs Qround
  Lqa.
Import ListNotations.

Local Open Scope Q_scope.

(** ** Configuration constants (lines 34-44) *)

(** The module-level settings the program reads.  The source invites the
    user to adjust them, so the program is modelled over any setting;
    [source_config] holds the values of the source. *)
Record Config : Type := {
  MAX_JOINT_MOVEMENT : Q;
  MOVEMENT_TIMEOUT : Q;
  SMALL_MOVEMENT_OFFSET : Q
}.

Definition source_config : Config := {|
  MAX_JOINT_MOVEMENT := 5 # 100;
  MOVEMENT_TIMEOUT := 10;
  SMALL_MOVEMENT_OFFSET := 3 # 100
|}.

(** ** Safety functions *)

(** The second component of the pair returned by
    [validate_joint_position].  The source formats it into a string; the
    model keeps the values that the string is built from. *)
Inductive message : Type :=
| InvalidDimensions
    (* "Invalid position dimensions" *)
| MovementTooLarge (i : nat) (delta max_delta : Q)
    (* "Joint {i} movement too large: {delta} rad (max: {max_delta})" *)
| PositionSafe.
    (* "Position is safe" *)

(** [delta > max_delta] *)
Definition Qgtb (x y : Q) : bool := negb (Qle_bool x y).

(** The loop of lines 65-68 over [enumerate(zip(current_pos, target_pos))],
    started at index [i]. *)
Fixpoint check_joints (i : nat) (pairs : list (Q * Q)) (max_delta : Q)
  : bool * message :=
  match pairs with
  | [] => (true, PositionSafe)
  | (curr, targ) :: rest =>
      let delta := Qabs (targ - curr) in
      if Qgtb delta max_delta
      then (false, MovementTooLarge i delta max_delta)
      else check_joints (S i) rest max_delta
  end.

(** Lines 50-70. *)
Definition validate_joint_position
  (current_pos target_pos : list Q) (max_delta : Q) : bool * message :=
  if negb (length current_pos =? 6)%nat || negb (length target_pos =? 6)%nat
  then (false, InvalidDimensions)
  else check_joints 0 (combine current_pos target_pos) max_delta.

(** The delta of joint [i], as line 66 computes it. *)
Definition joint_delta (current_pos target_pos : list Q) (i : nat) : Q :=
  Qabs (nth i target_pos 0 - nth i current_pos 0).

(** ** Exceptions, collaborators and traces *)

(** The exceptions the program can meet.  [KeyboardInterrupt] and
    [SystemExit] are the ones outside Python's [Exception] class. *)
Inductive exn : Type :=
| ValueError (msg : string)
| AttributeError
| IndexError
| OtherError (msg : string)
| KeyboardInterrupt
| SystemExit.

Definition is_Exception (e : exn) : bool :=
  match e with
  | KeyboardInterrupt | SystemExit => false
  | _ => true
  end.

(** How a call ends: it returns a value or raises. *)
Inductive outcome (A : Type) : Type :=
| Returned (a : A)
| Raised (e : exn).
Arguments Returned {A} a.
Arguments Raised {A} e.

(** One telemetry sample: the fields of the "state" recipe (lines 138-144). *)
Record Sample : Type := {
  actual_q : list Q;
  actual_qd : list Q;
  target_q : list Q;
  robot_mode : Z;
  safety_mode : Z
}.

(** The object [send_input_setup] returns for the "setp" recipe.  Its six
    registers are overwritten before every [send], so only its identity is
    kept. *)
Record DataObject : Type := { recipe_id : nat }.

(** Collaborator calls whose result the program does not look at. *)
Inductive call : Type :=
| WriteConfig              (* lines 156-158 *)
| ParseConfig              (* lines 161-163 *)
| NewRTDE                  (* line 167 *)
| Connect
| GetControllerVersion
| SendOutputSetup
| Send (setp : DataObject) (registers : list Q)
| SendPause
| Disconnect
| Sleep (secs : Q).

(** One entry of the trace: the call made and how it ended. *)
Inductive event : Type :=
| EvInput (r : outcome string)
| EvCall (c : call) (r : outcome unit)
| EvSendInputSetup (r : outcome (option DataObject))
| EvSendStart (r : outcome bool)
| EvReceive (r : outcome (option Sample))
| EvTime (t : Q).

(** The collaborators' behaviour.  The answer to a call depends on the
    position the call takes in the trace, so every sequence of answers can
    be described.  Reading the clock does not raise. *)
Record Env : Type := {
  on_input : nat -> outcome string;
  on_call : nat -> call -> outcome unit;
  on_send_input_setup : nat -> outcome (option DataObject);
  on_send_start : nat -> outcome bool;
  on_receive : nat -> outcome (option Sample);
  on_time : nat -> Q
}.

(** ** The monad: fuel, trace, exceptions

    A computation reads the fuel (used by the polling loop only), extends
    the trace and returns or raises; [None] means the fuel ran out. *)
Definition M (A : Type) : Type :=
  nat -> list event -> option (outcome A * list event).

Definition ret {A} (a : A) : M A :=
  fun _ tr => Some (Returned a, tr).

Definition raise {A} (e : exn) : M A :=
  fun _ tr => Some (Raised e, tr).

Definition out_of_fuel {A} : M A :=
  fun _ _ => None.

Definition bind {A B} (m : M A) (k : A -> M B) : M B :=
  fun fuel tr =>
    match m fuel tr with
    | Some (Returned a, tr') => k a fuel tr'
    | Some (Raised e, tr') => Some (Raised e, tr')
    | None => None
    end.

(** [try: m except e: h e] *)
Definition try_except {A} (m : M A) (h : exn -> M A) : M A :=
  fun fuel tr =>
    match m fuel tr with
    | Some (Raised e, tr') => h e fuel tr'
    | r => r
    end.

Declare Scope prog_scope.
Delimit Scope prog_scope with prog.
Notation "x <- m ;; k" := (bind m (fun x => k))
  (at level 100, m at next level, right associativity) : prog_scope.
Notation "m ;; k" := (bind m (fun _ => k))
  (at level 100, right associativity) : prog_scope.

(** A call to a collaborator: ask the oracle at the current position and
    log the call with its answer. *)
Definition perform {A} (ask : nat -> outcome A) (log : outcome A -> event)
  : M A :=
  fun _ tr => let r := ask (length tr) in Some (r, tr ++ [log r]).

(** ** Python helpers *)

(** [str.upper], on ASCII letters. *)
Definition upper_ascii (c : ascii) : ascii :=
  let n := nat_of_ascii c in
  if ((97 <=? n) && (n <=? 122))%nat then ascii_of_nat (n - 32) else c.

Fixpoint upper (s : string) : string :=
  match s with
  | EmptyString => EmptyString
  | String c s' => String (upper_ascii c) (upper s')
  end.

(** [needle in hay] on strings. *)
Fixpoint contains (needle hay : string) : bool :=
  prefix needle hay ||
  match hay with
  | EmptyString => false
  | String _ hay' => contains needle hay'
  end.

(** [x < y] *)
Definition Qltb (x y : Q) : bool := negb (Qle_bool y x).

(** [max(vs)]: the first greatest element; raises on the empty list. *)
Definition py_max (vs : list Q) : outcome Q :=
  match vs with
  | [] => Raised (ValueError "max() arg is an empty sequence")
  | v :: rest =>
      Returned (fold_left (fun m x => if Qgtb x m then x else m) rest v)
  end.

(** Lines 101-102: [max([abs(v) for v in state.actual_qd]) < 0.001]. *)
Definition max_abs_velocity (st : Sample) : outcome Q :=
  py_max (map Qabs (actual_qd st)).

Definition velocity_check (st : Sample) : outcome bool :=
  match max_abs_velocity st with
  | Returned max_velocity => Returned (Qltb max_velocity (1 # 1000))
  | Raised e => Raised e
  end.

Definition lift {A} (r : outcome A) : M A :=
  fun _ tr => Some (r, tr).

(** [l[i]], raising [IndexError] out of range. *)
Definition py_index (l : list Q) (i : nat) : outcome Q :=
  match nth_error l i with
  | Some v => Returned v
  | None => Raised IndexError
  end.

(** [l[i] += d] on a copy of [l]. *)
Definition add_at (l : list Q) (i : nat) (d : Q) : outcome (list Q) :=
  match nth_error l i with
  | Some v => Returned (firstn i l ++ (v + d) :: skipn (S i) l)
  | None => Raised IndexError
  end.

(** [[target[i] for i in idx]]: the values lines 273-274 and 292-293 write
    into the registers. *)
Fixpoint read_registers (target : list Q) (idx : list nat)
  : outcome (list Q) :=
  match idx with
  | [] => Returned []
  | i :: idx' =>
      match py_index target i with
      | Raised e => Raised e
      | Returned v =>
          match read_registers target idx' with
          | Raised e => Raised e
          | Returned vs => Returned (v :: vs)
          end
      end
  end.

(** [state.actual_q], where [state] may be [None]. *)
Definition get_actual_q (state : option Sample) : outcome (list Q) :=
  match state with
  | Some st => Returned (actual_q st)
  | None => Raised AttributeError
  end.

(** ** The program *)

(** The exits of [run_safe_robot_test].  The function returns [None] at each
    of them; they differ by the message printed just before. *)
Inductive RunResult : Type :=
| Cancelled                      (* line 133 *)
| RetriesExhausted               (* line 207 *)
| SetupFailed                    (* line 216 *)
| StartFailed                    (* line 221 *)
| NoInitialState                 (* line 232 *)
| ValidationFailed (movement : nat) (msg : message)   (* lines 253, 259 *)
| MovementTimeout (movement : nat)                    (* lines 284, 303 *)
| Completed                      (* line 309 *)
| EmergencyStop                  (* lines 311-313 *)
| Errored (e : exn).             (* lines 315-318 *)

(** What one pass through the body of the retry loop decides. *)
Inductive step : Type :=
| Break (setp : option DataObject)
| Continue
| Return (r : RunResult).

(** [try: m finally: f].  An exception or a return value pending from [m]
    survives [f] unless [f] itself raises. *)
Definition try_finally {A} (m : M A) (f : M unit) : M A :=
  fun fuel tr =>
    match m fuel tr with
    | None => None
    | Some (r, tr') =>
        match f fuel tr' with
        | None => None
        | Some (Returned _, tr'') => Some (r, tr'')
        | Some (Raised e, tr'') => Some (Raised e, tr'')
        end
    end.

Section Program.

Variable cfg : Config.
Variable env : Env.

Local Open Scope prog_scope.

Definition input : M string := perform (on_input env) EvInput.
Definition do_call (c : call) : M unit :=
  perform (fun n => on_call env n c) (EvCall c).
Definition con_send_input_setup : M (option DataObject) :=
  perform (on_send_input_setup env) EvSendInputSetup.
Definition con_send_start : M bool :=
  perform (on_send_start env) EvSendStart.
Definition con_receive : M (option Sample) :=
  perform (on_receive env) EvReceive.
Definition time_time : M Q :=
  fun _ tr => let t := on_time env (length tr) in
              Some (Returned t, tr ++ [EvTime t]).

(** The loop of lines 95-108; its body runs at most [k] times. *)
Fixpoint wait_loop (k : nat) (start_time timeout : Q) : M bool :=
  now <- time_time ;;
  if Qltb (now - start_time) timeout then
    match k with
    | O => out_of_fuel
    | S k' =>
        state <- con_receive ;;
        match state with
        | None => ret false
        | Some st =>
            stopped <- lift (velocity_check st) ;;
            if stopped then ret true
            else (do_call (Sleep (1 # 100)) ;;
                  wait_loop k' start_time timeout)
        end
    end
  else
    ret false.

(** Lines 81-108.  The [state_obj] argument is not used by the source. *)
Definition wait_for_move_completion (timeout : Q) : M bool :=
  start_time <- time_time ;;
  (fun fuel => wait_loop fuel start_time timeout fuel).

(** One pass through the body of the retry loop, lines 183-212.  [last]
    says that the incremented [retry_count] reaches [max_retries]. *)
Definition setup_attempt (last : bool) : M step :=
  try_except
    (do_call SendOutputSetup ;;
     setp <- con_send_input_setup ;;
     ret (Break setp))
    (fun e =>
       match e with
       | ValueError msg =>
           if contains "already in use" msg then
             do_call Disconnect ;;
             do_call (Sleep 2) ;;
             if last then ret (Return RetriesExhausted)
             else (do_call Connect ;;
                   do_call GetControllerVersion ;;
                   ret Continue)
           else raise e
       | _ => raise e
       end).

(** The retry loop, lines 182-212, by recursion on
    [remaining = max_retries - retry_count].  It ends with the function's
    early exit or with the value of [setp]. *)
Fixpoint setup_loop (remaining : nat) : M (RunResult + option DataObject) :=
  match remaining with
  | O => ret (inr None)
  | S remaining' =>
      s <- setup_attempt (remaining' =? 0)%nat ;;
      match s with
      | Break setp => ret (inr setp)
      | Return r => ret (inl r)
      | Continue => setup_loop remaining'
      end
  end.

Definition max_retries : nat := 3.

(** One movement, lines 269-284 and again lines 288-303: the two blocks
    differ by their messages only.  [None] lets the program go on. *)
Definition movement (n : nat) (setp : DataObject) (target : list Q)
  : M (option RunResult) :=
  registers <- lift (read_registers target (seq 0 6)) ;;
  do_call (Send setp registers) ;;
  completed <- wait_for_move_completion (MOVEMENT_TIMEOUT cfg) ;;
  if completed then
    state <- con_receive ;;
    _ <- lift (get_actual_q state) ;;
    ret None
  else
    ret (Some (MovementTimeout n)).

(** Lines 224-309: from the first reading of the position on. *)
Definition test_movements (setp : DataObject) : M RunResult :=
  state <- con_receive ;;
  match state with
  | None => ret NoInitialState
  | Some st =>
      let current_position := actual_q st in
      target_pos_1 <-
        lift (add_at current_position 5 (SMALL_MOVEMENT_OFFSET cfg)) ;;
      let target_pos_2 := current_position in
      let (is_safe, msg) :=
        validate_joint_position current_position target_pos_1
          (MAX_JOINT_MOVEMENT cfg) in
      if negb is_safe then ret (ValidationFailed 1 msg) else
      let (is_safe, msg) :=
        validate_joint_position target_pos_1 target_pos_2
          (MAX_JOINT_MOVEMENT cfg) in
      if negb is_safe then ret (ValidationFailed 2 msg) else
      do_call (Sleep 2) ;;
      r1 <- movement 1 setp target_pos_1 ;;
      match r1 with
      | Some r => ret r
      | None =>
          do_call (Sleep 1) ;;
          r2 <- movement 2 setp target_pos_2 ;;
          match r2 with
          | Some r => ret r
          | None => ret Completed
          end
      end
  end.

(** The body of the [try], lines 170-309. *)
Definition try_body : M RunResult :=
  do_call Connect ;;
  do_call GetControllerVersion ;;
  s <- setup_loop max_retries ;;
  match s with
  | inl r => ret r
  | inr None => ret SetupFailed
  | inr (Some setp) =>
      started <- con_send_start ;;
      if negb started then ret StartFailed
      else test_movements setp
  end.

(** The [except] clauses, lines 311-318. *)
Definition handlers (e : exn) : M RunResult :=
  match e with
  | KeyboardInterrupt => ret EmergencyStop
  | _ => if is_Exception e then ret (Errored e) else raise e
  end.

(** The [finally] clause, lines 320-328. *)
Definition cleanup : M unit :=
  try_except (do_call SendPause ;; do_call Disconnect) (fun _ => ret tt).

(** Lines 115-328. *)
Definition run_safe_robot_test : M RunResult :=
  response <- input ;;
  if negb (upper response =? "YES")%string then ret Cancelled
  else
    do_call WriteConfig ;;
    do_call ParseConfig ;;
    do_call NewRTDE ;;
    try_finally (try_except try_body handlers) cleanup.

End Program.

(** ** Reading a trace *)

(** The register values of the [send] calls, in order. *)
Fixpoint sends (tr : list event) : list (list Q) :=
  match tr with
  | [] => []
  | EvCall (Send _ registers) _ :: tr' => registers :: sends tr'
  | _ :: tr' => sends tr'
  end.

(** The event is a call to [c], for the calls that take no argument. *)
Definition is_call (c : call) (e : event) : bool :=
  match e, c with
  | EvCall WriteConfig _, WriteConfig
  | EvCall ParseConfig _, ParseConfig
  | EvCall NewRTDE _, NewRTDE
  | EvCall Connect _, Connect
  | EvCall GetControllerVersion _, GetControllerVersion
  | EvCall SendOutputSetup _, SendOutputSetup
  | EvCall SendPause _, SendPause
  | EvCall Disconnect _, Disconnect => true
  | _, _ => false
  end.

(** The number of calls to [c]. *)
Definition count_calls (c : call) (tr : list event) : nat :=
  length (filter (is_call c) tr).

(** The run of a program from the empty trace. *)
Definition exec {A} (m : M A) (fuel : nat) : option (outcome A * list event) :=
  m fuel [].

(** The samples received, in order. *)
Fixpoint samples (tr : list event) : list Sample :=
  match tr with
  | [] => []
  | EvReceive (Returned (Some st)) :: tr' => st :: samples tr'
  | _ :: tr' => samples tr'
  end.

(** The durations of the [time.sleep] calls, in order. *)
Fixpoint sleeps (tr : list event) : list Q :=
  match tr with
  | [] => []
  | EvCall (Sleep secs) _ :: tr' => secs :: sleeps tr'
  | _ :: tr' => sleeps tr'
  end.

(** The calls of the rounds of the polling loop that go on to a next round:
    the clock reading of line 95, the sample of line 96, the sleep of line
    105. *)
Definition round_events (rounds : list (Q * Sample)) : list event :=
  flat_map
    (fun r => [EvTime (fst r); EvReceive (Returned (Some (snd r)));
               EvCall (Sleep (1 # 100)) (Returned tt)])
    rounds.

(** Such a round read the clock within the timeout and received a sample
    that is not below the threshold. *)
Definition round_ok (start timeout : Q) (r : Q * Sample) : Prop :=
  Qltb (fst r - start) timeout = true /\
  velocity_check (snd r) = Returned false.

(** The calls of the last round of the polling loop, with the way the loop
    ends: one clause per exit of lines 95-108.  [start] is the reading of
    line 93. *)
Inductive wait_exit (start timeout : Q) : list event -> outcome bool -> Prop :=
| we_timeout t :
    Qltb (t - start) timeout = false ->
    wait_exit start timeout [EvTime t] (Returned false)
| we_no_state t :
    Qltb (t - start) timeout = true ->
    wait_exit start timeout
      [EvTime t; EvReceive (Returned None)] (Returned false)
| we_stopped t st :
    Qltb (t - start) timeout = true ->
    velocity_check st = Returned true ->
    wait_exit start timeout
      [EvTime t; EvReceive (Returned (Some st))] (Returned true)
| we_receive_raised t e :
    Qltb (t - start) timeout = true ->
    wait_exit start timeout [EvTime t; EvReceive (Raised e)] (Raised e)
| we_max_raised t st e :
    Qltb (t - start) timeout = true ->
    velocity_check st = Raised e ->
    wait_exit start timeout
      [EvTime t; EvReceive (Returned (Some st))] (Raised e)
| we_sleep_raised t st e :
    Qltb (t - start) timeout = true ->
    velocity_check st = Returned false ->
    wait_exit start timeout
      [EvTime t; EvReceive (Returned (Some st));
       EvCall (Sleep (1 # 100)) (Raised e)] (Raised e).

(** The calls of the whole loop. *)
Definition wait_shape (start timeout : Q) (ext : list event)
  (r : outcome bool) : Prop :=
  exists rounds tail,
    ext = round_events rounds ++ tail /\
    Forall (round_ok start timeout) rounds /\
    wait_exit start timeout tail r.


(** One round of the polling loop that goes on to the next, read off the
    collaborators: the clock reading at position [pos] is within the
    timeout, the sample received next is not below the threshold, and the
    sleep returns. *)
Definition round_in_motion (env : Env) (start timeout : Q) (pos : nat) : Prop :=
  Qltb (on_time env pos - start) timeout = true /\
  (exists st, on_receive env (S pos) = Returned (Some st) /\
              velocity_check st = Returned false) /\
  on_call env (S (S pos)) (Sleep (1 # 100)) = Returned tt.

(** The calls of a wait that found the arm at rest within the timeout:
    rounds in motion, then a clock reading within the timeout and a sample
    below the threshold. *)
Definition settled_wait (start timeout : Q) (ext : list event) : Prop :=
  exists rounds t st,
    ext = round_events rounds ++ [EvTime t; EvReceive (Returned (Some st))] /\
    Forall (round_ok start timeout) rounds /\
    Qltb (t - start) timeout = true /\
    velocity_check st = Returned true.

(** The calls of a movement that was completed: the target is sent, the
    wait finds the arm at rest within the timeout, the position is read
    again. *)
Definition completed_movement (timeout : Q) (setp : DataObject)
  (registers : list Q) (ext : list event) : Prop :=
  exists start wait_calls st,
    ext = EvCall (Send setp registers) (Returned tt) :: EvTime start ::
          wait_calls ++ [EvReceive (Returned (Some st))] /\
    settled_wait start timeout wait_calls.

(** Read off the collaborators: the movement whose [send] takes position
    [pos] of the trace is completed after [n] rounds in motion. *)
Definition settles_after (env : Env) (timeout : Q) (pos n : nat) : Prop :=
  (forall i, (i < n)%nat ->
     round_in_motion env (on_time env (S pos)) timeout (S (S pos) + 3 * i)) /\
  Qltb (on_time env (S (S pos) + 3 * n) - on_time env (S pos)) timeout = true /\
  (exists st, on_receive env (S (S (S pos) + 3 * n)) = Returned (Some st) /\
              velocity_check st = Returned true) /\
  (exists st, on_receive env (S (S (S (S pos) + 3 * n))) = Returned (Some st)).

(** *** The calls of a run

    The predicates below describe, exit by exit, the calls that a block of
    the program logs and the way the block ends. *)

(** One movement (lines 269-284, 288-303) that sends [registers]. *)
Inductive movement_shape (timeout : Q) (n : nat) (setp : DataObject)
  (registers : list Q) : list event -> outcome (option RunResult) -> Prop :=
| ms_send_raised e :
    movement_shape timeout n setp registers
      [EvCall (Send setp registers) (Raised e)] (Raised e)
| ms_wait_raised start ext e :
    wait_shape start timeout ext (Raised e) ->
    movement_shape timeout n setp registers
      (EvCall (Send setp registers) (Returned tt) :: EvTime start :: ext)
      (Raised e)
| ms_not_completed start ext :
    wait_shape start timeout ext (Returned false) ->
    movement_shape timeout n setp registers
      (EvCall (Send setp registers) (Returned tt) :: EvTime start :: ext)
      (Returned (Some (MovementTimeout n)))
| ms_reread_raised start ext e :
    wait_shape start timeout ext (Returned true) ->
    movement_shape timeout n setp registers
      (EvCall (Send setp registers) (Returned tt) :: EvTime start :: ext ++
       [EvReceive (Raised e)])
      (Raised e)
| ms_reread_none start ext :
    wait_shape start timeout ext (Returned true) ->
    movement_shape timeout n setp registers
      (EvCall (Send setp registers) (Returned tt) :: EvTime start :: ext ++
       [EvReceive (Returned None)])
      (Raised AttributeError)
| ms_completed start ext st :
    wait_shape start timeout ext (Returned true) ->
    movement_shape timeout n setp registers
      (EvCall (Send setp registers) (Returned tt) :: EvTime start :: ext ++
       [EvReceive (Returned (Some st))])
      (Returned None).

(** How a block that ends a movement early ends the program; [None] when
    the movement lets the program go on. *)
Definition early_exit (r : outcome (option RunResult))
  : option (outcome RunResult) :=
  match r with
  | Raised e => Some (Raised e)
  | Returned (Some res) => Some (Returned res)
  | Returned None => None
  end.

(** Lines 224-309. *)
Inductive test_shape (cfg : Config) (setp : DataObject)
  : list event -> outcome RunResult -> Prop :=
| ts_receive_raised e :
    test_shape cfg setp [EvReceive (Raised e)] (Raised e)
| ts_no_state :
    test_shape cfg setp [EvReceive (Returned None)] (Returned NoInitialState)
| ts_short_position st e :
    add_at (actual_q st) 5 (SMALL_MOVEMENT_OFFSET cfg) = Raised e ->
    test_shape cfg setp [EvReceive (Returned (Some st))] (Raised e)
| ts_invalid_1 st target_pos_1 msg :
    add_at (actual_q st) 5 (SMALL_MOVEMENT_OFFSET cfg) = Returned target_pos_1 ->
    validate_joint_position (actual_q st) target_pos_1 (MAX_JOINT_MOVEMENT cfg)
      = (false, msg) ->
    test_shape cfg setp [EvReceive (Returned (Some st))]
      (Returned (ValidationFailed 1 msg))
| ts_invalid_2 st target_pos_1 msg1 msg :
    add_at (actual_q st) 5 (SMALL_MOVEMENT_OFFSET cfg) = Returned target_pos_1 ->
    validate_joint_position (actual_q st) target_pos_1 (MAX_JOINT_MOVEMENT cfg)
      = (true, msg1) ->
    validate_joint_position target_pos_1 (actual_q st) (MAX_JOINT_MOVEMENT cfg)
      = (false, msg) ->
    test_shape cfg setp [EvReceive (Returned (Some st))]
      (Returned (ValidationFailed 2 msg))
| ts_warning_interrupted st target_pos_1 msg1 msg2 e :
    add_at (actual_q st) 5 (SMALL_MOVEMENT_OFFSET cfg) = Returned target_pos_1 ->
    validate_joint_position (actual_q st) target_pos_1 (MAX_JOINT_MOVEMENT cfg)
      = (true, msg1) ->
    validate_joint_position target_pos_1 (actual_q st) (MAX_JOINT_MOVEMENT cfg)
      = (true, msg2) ->
    test_shape cfg setp
      [EvReceive (Returned (Some st)); EvCall (Sleep 2) (Raised e)] (Raised e)
| ts_first_movement st target_pos_1 msg1 msg2 ext1 r1 r :
    add_at (actual_q st) 5 (SMALL_MOVEMENT_OFFSET cfg) = Returned target_pos_1 ->
    validate_joint_position (actual_q st) target_pos_1 (MAX_JOINT_MOVEMENT cfg)
      = (true, msg1) ->
    validate_joint_position target_pos_1 (actual_q st) (MAX_JOINT_MOVEMENT cfg)
      = (true, msg2) ->
    movement_shape (MOVEMENT_TIMEOUT cfg) 1 setp target_pos_1 ext1 r1 ->
    early_exit r1 = Some r ->
    test_shape cfg setp
      (EvReceive (Returned (Some st)) :: EvCall (Sleep 2) (Returned tt) :: ext1)
      r
| ts_pause_interrupted st target_pos_1 msg1 msg2 ext1 e :
    add_at (actual_q st) 5 (SMALL_MOVEMENT_OFFSET cfg) = Returned target_pos_1 ->
    validate_joint_position (actual_q st) target_pos_1 (MAX_JOINT_MOVEMENT cfg)
      = (true, msg1) ->
    validate_joint_position target_pos_1 (actual_q st) (MAX_JOINT_MOVEMENT cfg)
      = (true, msg2) ->
    movement_shape (MOVEMENT_TIMEOUT cfg) 1 setp target_pos_1 ext1
      (Returned None) ->
    test_shape cfg setp
      (EvReceive (Returned (Some st)) :: EvCall (Sleep 2) (Returned tt) ::
       ext1 ++ [EvCall (Sleep 1) (Raised e)])
      (Raised e)
| ts_second_movement st target_pos_1 msg1 msg2 ext1 ext2 r2 :
    add_at (actual_q st) 5 (SMALL_MOVEMENT_OFFSET cfg) = Returned target_pos_1 ->
    validate_joint_position (actual_q st) target_pos_1 (MAX_JOINT_MOVEMENT cfg)
      = (true, msg1) ->
    validate_joint_position target_pos_1 (actual_q st) (MAX_JOINT_MOVEMENT cfg)
      = (true, msg2) ->
    movement_shape (MOVEMENT_TIMEOUT cfg) 1 setp target_pos_1 ext1
      (Returned None) ->
    movement_shape (MOVEMENT_TIMEOUT cfg) 2 setp (actual_q st) ext2 r2 ->
    test_shape cfg setp
      (EvReceive (Returned (Some st)) :: EvCall (Sleep 2) (Returned tt) ::
       ext1 ++ EvCall (Sleep 1) (Returned tt) :: ext2)
      (match early_exit r2 with
       | Some r => r
       | None => Returned Completed
       end).

(** The calls of lines 170-222: connecting, configuring, starting. *)
Definition is_setup_event (e : event) : bool :=
  match e with
  | EvCall Connect _ | EvCall GetControllerVersion _
  | EvCall SendOutputSetup _ | EvCall Disconnect _ => true
  | EvCall (Sleep _) _ => true
  | EvSendInputSetup _ | EvSendStart _ => true
  | _ => false
  end.

(** The ways the program ends before it reads the position (line 229). *)
Definition setup_exit (r : outcome RunResult) : Prop :=
  match r with
  | Raised _ => True
  | Returned RetriesExhausted | Returned SetupFailed | Returned StartFailed =>
      True
  | Returned _ => False
  end.

(** The body of the [try], lines 170-309. *)
Inductive body_shape (cfg : Config) : list event -> outcome RunResult -> Prop :=
| bs_setup ext r :
    forallb is_setup_event ext = true ->
    setup_exit r ->
    body_shape cfg ext r
| bs_test pre setp ext r :
    forallb is_setup_event pre = true ->
    test_shape cfg setp ext r ->
    body_shape cfg (pre ++ ext) r.

(** The [finally] clause, lines 320-328. *)
Inductive cleanup_shape : list event -> Prop :=
| cs_pause_raised e :
    cleanup_shape [EvCall SendPause (Raised e)]
| cs_disconnect r :
    cleanup_shape [EvCall SendPause (Returned tt); EvCall Disconnect r].

(** What the [except] clauses make of the way the body ends. *)
Definition handled (r : outcome RunResult) : outcome RunResult :=
  match r with
  | Returned res => Returned res
  | Raised KeyboardInterrupt => Returned EmergencyStop
  | Raised e => if is_Exception e then Returned (Errored e) else Raised e
  end.

(** The calls of lines 130-167 when each of them returns. *)
Definition prologue (response : string) : list event :=
  [EvInput (Returned response); EvCall WriteConfig (Returned tt);
   EvCall ParseConfig (Returned tt); EvCall NewRTDE (Returned tt)].

(** The calls that come before the session object exists. *)
Definition is_prologue_event (e : event) : bool :=
  match e with
  | EvInput _ | EvCall WriteConfig _ | EvCall ParseConfig _
  | EvCall NewRTDE _ => true
  | _ => false
  end.

(** The whole function, lines 115-328. *)
Inductive run_shape (cfg : Config) : list event -> outcome RunResult -> Prop :=
| rs_cancelled response :
    (upper response =? "YES")%string = false ->
    run_shape cfg [EvInput (Returned response)] (Returned Cancelled)
| rs_no_session pre e :
    forallb is_prologue_event pre = true ->
    ~ In (EvCall NewRTDE (Returned tt)) pre ->
    run_shape cfg pre (Raised e)
| rs_session response body r_body teardown :
    (upper response =? "YES")%string = true ->
    body_shape cfg body r_body ->
    cleanup_shape teardown ->
    run_shape cfg (prologue response ++ body ++ teardown) (handled r_body).

(** One pass through lines 184-185 begun at position [pos], read off the
    collaborators: how it ends, and the calls it logs. *)
Definition configure_answer (env : Env) (pos : nat)
  : outcome (option DataObject) :=
  match on_call env pos SendOutputSetup with
  | Raised e => Raised e
  | Returned _ => on_send_input_setup env (S pos)
  end.

Definition configure_events (env : Env) (pos : nat) : list event :=
  match on_call env pos SendOutputSetup with
  | Raised e => [EvCall SendOutputSetup (Raised e)]
  | Returned u =>
      [EvCall SendOutputSetup (Returned u);
       EvSendInputSetup (on_send_input_setup env (S pos))]
  end.

(** The calls of lines 194-200 after a conflict, when each of them returns;
    [last] as in [setup_attempt]. *)
Definition retry_events (last : bool) : list event :=
  [EvCall Disconnect (Returned tt); EvCall (Sleep 2) (Returned tt)] ++
  (if last then []
   else [EvCall Connect (Returned tt);
         EvCall GetControllerVersion (Returned tt)]).

(** The test of lines 189-190: a [ValueError] whose text contains "already
    in use". *)
Definition is_conflict (e : exn) : bool :=
  match e with
  | ValueError msg => contains "already in use" msg
  | _ => false
  end.

(** The clock eventually passes every instant. *)
Definition clock_passes (env : Env) : Prop :=
  forall t, exists N, forall n, (N <= n)%nat -> t <= on_time env n.

(** With enough fuel, the computation ends, and ends the same way. *)
Definition returns {A} (m : M A) : Prop :=
  forall tr, exists fuel0 r tr',
    forall fuel, (fuel0 <= fuel)%nat -> m fuel tr = Some (r, tr').

(** ** Sample collaborators *)

Definition home : list Q := [0; -(157 # 100); 0; -(157 # 100); 0; 0].

(** [home] with joint 5 moved by the test offset of the source. *)
Definition home_offset : list Q :=
  [0; -(157 # 100); 0; -(157 # 100); 0; 3 # 100].

Definition still (q : list Q) : Sample :=
  {| actual_q := q; actual_qd := [0; 0; 0; 0; 0; 0]; target_q := q;
     robot_mode := 7; safety_mode := 1 |}.

Definition moving (q : list Q) : Sample :=
  {| actual_q := q; actual_qd := [0; 0; 0; 0; 0; 1 # 10]; target_q := q;
     robot_mode := 7; safety_mode := 1 |}.

(** A cooperative robot: every call succeeds, the arm is at [home] and at
    rest, the clock advances one second per call. *)
Definition env_ok : Env := {|
  on_input := fun _ => Returned "yes"%string;
  on_call := fun _ _ => Returned tt;
  on_send_input_setup := fun _ => Returned (Some {| recipe_id := 1 |});
  on_send_start := fun _ => Returned true;
  on_receive := fun _ => Returned (Some (still home));
  on_time := fun n => inject_Z (Z.of_nat n)
|}.

(** The arm never comes to rest. *)
Definition env_moving : Env := {|
  on_input := fun _ => Returned "yes"%string;
  on_call := fun _ _ => Returned tt;
  on_send_input_setup := fun _ => Returned (Some {| recipe_id := 1 |});
  on_send_start := fun _ => Returned true;
  on_receive := fun _ => Returned (Some (moving home));
  on_time := fun n => inject_Z (Z.of_nat n)
|}.

(** The transport yields no sample. *)
Definition env_lost : Env := {|
  on_input := fun _ => Returned "yes"%string;
  on_call := fun _ _ => Returned tt;
  on_send_input_setup := fun _ => Returned (Some {| recipe_id := 1 |});
  on_send_start := fun _ => Returned true;
  on_receive := fun _ => Returned None;
  on_time := fun n => inject_Z (Z.of_nat n)
|}.

(** The arm is at rest, and the clock is set back by two seconds between
    any two readings. *)
Definition env_clock_set_back : Env := {|
  on_input := fun _ => Returned "yes"%string;
  on_call := fun _ _ => Returned tt;
  on_send_input_setup := fun _ => Returned (Some {| recipe_id := 1 |});
  on_send_start := fun _ => Returned true;
  on_receive := fun _ => Returned (Some (still home));
  on_time := fun n => inject_Z (100 - 2 * Z.of_nat n)
|}.



(** The controller keeps reporting that the input registers are taken. *)
Definition env_conflict : Env := {|
  on_input := fun _ => Returned "YES"%string;
  on_call := fun _ _ => Returned tt;
  on_send_input_setup := fun _ =>
    Raised (ValueError "An input parameter is already in use.");
  on_send_start := fun _ => Returned true;
  on_receive := fun _ => Returned (Some (still home));
  on_time := fun n => inject_Z (Z.of_nat n)
|}.

(** The controller rejects the input recipe for another reason. *)
Definition env_rejected : Env := {|
  on_input := fun _ => Returned "YES"%string;
  on_call := fun _ _ => Returned tt;
  on_send_input_setup := fun _ =>
    Raised (ValueError "Unknown input parameter.");
  on_send_start := fun _ => Returned true;
  on_receive := fun _ => Returned (Some (still home));
  on_time := fun n => inject_Z (Z.of_nat n)
|}.

(** The user does not confirm. *)
Definition env_cancelled : Env := {|
  on_input := fun _ => Returned "no"%string;
  on_call := fun _ _ => Returned tt;
  on_send_input_setup := fun _ => Returned (Some {| recipe_id := 1 |});
  on_send_start := fun _ => Returned true;
  on_receive := fun _ => Returned (Some (still home));
  on_time := fun n => inject_Z (Z.of_nat n)
|}.

(** The operator interrupts the first sleep of the polling loop. *)
Definition env_interrupted : Env := {|
  on_input := fun _ => Returned "yes"%string;
  on_call := fun _ c =>
    match c with
    | Sleep secs => if Qeq_bool secs (1 # 100) then Raised KeyboardInterrupt
                    else Returned tt
    | _ => Returned tt
    end;
  on_send_input_setup := fun _ => Returned (Some {| recipe_id := 1 |});
  on_send_start := fun _ => Returned true;
  on_receive := fun _ => Returned (Some (moving home));
  on_time := fun n => inject_Z (Z.of_nat n)
|}.

(** A setting whose test offset exceeds the allowed movement. *)
Definition strict_config : Config := {|
  MAX_JOINT_MOVEMENT := 2 # 100;
  MOVEMENT_TIMEOUT := 10;
  SMALL_MOVEMENT_OFFSET := 3 # 100
|}.

(** The arm is at rest, but the request that follows the second wait yields
    no sample. *)
Definition env_unread : Env := {|
  on_input := fun _ => Returned "yes"%string;
  on_call := fun _ _ => Returned tt;
  on_send_input_setup := fun _ => Returned (Some {| recipe_id := 1 |});
  on_send_start := fun _ => Returned true;
  on_receive := fun n =>
    if (n =? 21)%nat then Returned None else Returned (Some (still home));
  on_time := fun n => inject_Z (Z.of_nat n)
|}.

(** A request that yielded no sample. *)
Definition is_missing_sample (e : event) : bool :=
  match e with
  | EvReceive (Returned None) => true
  | _ => false
  end.

(** ** The connection clearer, [examples/clear_rtde_connection.py] *)

(** The two ways the script reaches its last line: line 48, or one of the
    [except] clauses of lines 56-70, which differ by the advice they print. *)
Inductive ClearResult : Type :=
| Cleared
| ClearFailed (e : exn).

(** The calls of lines 28-45, in order. *)
Definition clear_steps : list call :=
  [NewRTDE; Connect; GetControllerVersion; SendPause; Disconnect; Sleep 5].

(** Lines 26-70.  [ConnectionRefusedError] and [TimeoutError] are
    subclasses of [Exception]; an exception outside [Exception] is not
    caught. *)
Definition clear_rtde_connection (env : Env) : M ClearResult :=
  try_except
    (bind (do_call env NewRTDE) (fun _ =>
     bind (do_call env Connect) (fun _ =>
     bind (do_call env GetControllerVersion) (fun _ =>
     bind (do_call env SendPause) (fun _ =>
     bind (do_call env Disconnect) (fun _ =>
     bind (do_call env (Sleep 5)) (fun _ =>
     ret Cleared)))))))
    (fun e => if is_Exception e then ret (ClearFailed e) else raise e).

(** ** Further readings of a trace *)

(** The calls the polling loop makes: clock readings, telemetry requests
    and sleeps of a hundredth of a second. *)
Definition is_polling_event (e : event) : bool :=
  match e with
  | EvTime _ | EvReceive _ => true
  | EvCall (Sleep secs) _ => Qeq_bool secs (1 # 100)
  | _ => false
  end.

(** Read off the collaborators: from position [pos] on, [k] configuration
    attempts meet the register conflict and the next one yields [setp]. *)
Fixpoint conflicts_then_accepts (env : Env) (pos k : nat)
  (setp : option DataObject) : Prop :=
  match k with
  | O => configure_answer env pos = Returned setp
  | S k' =>
      (exists e, configure_answer env pos = Raised e /\ is_conflict e = true) /\
      conflicts_then_accepts env
        (pos + length (configure_events env pos) + 4) k' setp
  end.

(** ** Further sample collaborators *)

(** The clock stands still while the arm moves. *)
Definition env_frozen : Env := {|
  on_input := fun _ => Returned "yes"%string;
  on_call := fun _ _ => Returned tt;
  on_send_input_setup := fun _ => Returned (Some {| recipe_id := 1 |});
  on_send_start := fun _ => Returned true;
  on_receive := fun _ => Returned (Some (moving home));
  on_time := fun _ => 0
|}.


(** The controller reports five joints. *)
Definition env_short : Env := {|
  on_input := fun _ => Returned "yes"%string;
  on_call := fun _ _ => Returned tt;
  on_send_input_setup := fun _ => Returned (Some {| recipe_id := 1 |});
  on_send_start := fun _ => Returned true;
  on_receive := fun _ => Returned (Some (still [0; 0; 0; 0; 0]));
  on_time := fun n => inject_Z (Z.of_nat n)
|}.

(** The samples carry no joint velocities. *)
Definition env_no_velocity : Env := {|
  on_input := fun _ => Returned "yes"%string;
  on_call := fun _ _ => Returned tt;
  on_send_input_setup := fun _ => Returned (Some {| recipe_id := 1 |});
  on_send_start := fun _ => Returned true;
  on_receive := fun _ =>
    Returned (Some {| actual_q := home; actual_qd := []; target_q := home;
                      robot_mode := 7; safety_mode := 1 |});
  on_time := fun n => inject_Z (Z.of_nat n)
|}.

(** The registers are taken at the first attempt and free at the second. *)
Definition env_flaky : Env := {|
  on_input := fun _ => Returned "yes"%string;
  on_call := fun _ _ => Returned tt;
  on_send_input_setup := fun n =>
    if (n <? 8)%nat
    then Raised (ValueError "An input parameter is already in use.")
    else Returned (Some {| recipe_id := 1 |});
  on_send_start := fun _ => Returned true;
  on_receive := fun _ => Returned (Some (still home));
  on_time := fun n => inject_Z (Z.of_nat n)
|}.

(** [send_input_setup] returns no object, [send_start] refuses, and no
    sample arrives. *)
Definition env_unconfigured : Env := {|
  on_input := fun _ => Returned "yes"%string;
  on_call := fun _ _ => Returned tt;
  on_send_input_setup := fun _ => Returned None;
  on_send_start := fun _ => Returned false;
  on_receive := fun _ => Returned None;
  on_time := fun n => inject_Z (Z.of_nat n)
|}.

(** The recipes are accepted and [send_start] refuses. *)
Definition env_not_started : Env := {|
  on_input := fun _ => Returned "yes"%string;
  on_call := fun _ _ => Returned tt;
  on_send_input_setup := fun _ => Returned (Some {| recipe_id := 1 |});
  on_send_start := fun _ => Returned false;
  on_receive := fun _ => Returned None;
  on_time := fun n => inject_Z (Z.of_nat n)
|}.

(** Pausing fails with a connection error. *)
Definition env_pause_fails : Env := {|
  on_input := fun _ => Returned "yes"%string;
  on_call := fun _ c =>
    match c with
    | SendPause => Raised (OtherError "ConnectionResetError")
    | _ => Returned tt
    end;
  on_send_input_setup := fun _ => Returned (Some {| recipe_id := 1 |});
  on_send_start := fun _ => Returned true;
  on_receive := fun _ => Returned (Some (still home));
  on_time := fun n => inject_Z (Z.of_nat n)
|}.

(** The operator interrupts the connection attempt. *)
Definition env_interrupted_connect : Env := {|
  on_input := fun _ => Returned "yes"%string;
  on_call := fun _ c =>
    match c with
    | Connect => Raised KeyboardInterrupt
    | _ => Returned tt
    end;
  on_send_input_setup := fun _ => Returned (Some {| recipe_id := 1 |});
  on_send_start := fun _ => Returned true;
  on_receive := fun _ => Returned (Some (still home));
  on_time := fun n => inject_Z (Z.of_nat n)
|}.

(** The trace of a run, empty when the fuel does not suffice. *)
Definition trace_of {A} (m : M A) (fuel : nat) : list event :=
  match exec m fuel with
  | Some (_, tr) => tr
  | None => []
  end.

(** The interpreter is told to exit while the program connects. *)
Definition env_exits : Env := {|
  on_input := fun _ => Returned "yes"%string;
  on_call := fun _ c =>
    match c with
    | Connect => Raised SystemExit
    | _ => Returned tt
    end;
  on_send_input_setup := fun _ => Returned (Some {| recipe_id := 1 |});
  on_send_start := fun _ => Returned true;
  on_receive := fun _ => Returned (Some (still home));
  on_time := fun n => inject_Z (Z.of_nat n)
|}.

(** Two answers to a telemetry request that differ at most by what the
    samples carry besides the joint velocities. *)
Definition same_velocities (a b : outcome (option Sample)) : Prop :=
  match a, b with
  | Returned (Some st1), Returned (Some st2) => actual_qd st1 = actual_qd st2
  | Returned None, Returned None => True
  | Raised e1, Raised e2 => e1 = e2
  | _, _ => False
  end.

(** The way a computation ends, without its trace. *)
Definition result_of {A} (x : option (outcome A * list event))
  : option (outcome A) :=
  option_map fst x.

(** As [env_ok], with the arm at rest away from [home]. *)
Definition env_elsewhere : Env := {|
  on_input := fun _ => Returned "yes"%string;
  on_call := fun _ _ => Returned tt;
  on_send_input_setup := fun _ => Returned (Some {| recipe_id := 1 |});
  on_send_start := fun _ => Returned true;
  on_receive := fun _ => Returned (Some (still [1; 1; 1; 1; 1; 1]));
  on_time := fun n => inject_Z (Z.of_nat n)
|}.
(** * Properties of the safety validator *)

Lemma Qgtb_true x y : Qgtb x y = true <-> y < x.
Proof.
  unfold Qgtb. rewrite negb_true_iff.
  destruct (Qle_bool x y) eqn:E.
  - apply Qle_bool_iff in E. split; [discriminate | intros H; exfalso; lra].
  - split; [intros _ | reflexivity].
    apply Qnot_le_lt. intros H. apply Qle_bool_iff in H. congruence.
Qed.

Lemma Qgtb_false x y : Qgtb x y = false <-> x <= y.
Proof.
  unfold Qgtb. rewrite negb_false_iff. apply Qle_bool_iff.
Qed.

Lemma check_joints_ok pairs : forall i max_delta,
  fst (check_joints i pairs max_delta) = true <->
  (forall k, (k < length pairs)%nat ->
     Qabs (snd (nth k pairs (0, 0)) - fst (nth k pairs (0, 0))) <= max_delta).
Proof.
  induction pairs as [|[c t] rest IH]; intros i m; cbn [check_joints length].
  - split; [intros _ k Hk; lia | reflexivity].
  - destruct (Qgtb (Qabs (t - c)) m) eqn:E; cbn [fst].
    + split; [intros H; discriminate H|].
      intros H. specialize (H 0%nat ltac:(lia)). cbn [nth fst snd] in H.
      apply Qgtb_true in E. exfalso; lra.
    + rewrite IH. apply Qgtb_false in E. split.
      * intros H [|k] Hk; cbn [nth fst snd]; [exact E | apply H; lia].
      * intros H k Hk. apply (H (S k)). lia.
Qed.

Lemma check_joints_fail pairs : forall i max_delta,
  fst (check_joints i pairs max_delta) = false ->
  exists k, (k < length pairs)%nat /\
    snd (check_joints i pairs max_delta) =
      MovementTooLarge (i + k)
        (Qabs (snd (nth k pairs (0, 0)) - fst (nth k pairs (0, 0)))) max_delta /\
    max_delta < Qabs (snd (nth k pairs (0, 0)) - fst (nth k pairs (0, 0))) /\
    (forall j, (j < k)%nat ->
       Qabs (snd (nth j pairs (0, 0)) - fst (nth j pairs (0, 0))) <= max_delta).
Proof.
  induction pairs as [|[c t] rest IH]; intros i m; cbn [check_joints length].
  - intros H; discriminate H.
  - destruct (Qgtb (Qabs (t - c)) m) eqn:E; cbn [fst snd].
    + intros _. exists 0%nat. cbn [nth fst snd]. rewrite Nat.add_0_r.
      apply Qgtb_true in E.
      repeat split; [lia | exact E | intros j Hj; lia].
    + intros H. destruct (IH _ _ H) as (k & Hk & Hmsg & Hgt & Hbefore).
      exists (S k). cbn [nth]. rewrite Nat.add_succ_r.
      apply Qgtb_false in E.
      repeat split; [lia | exact Hmsg | exact Hgt |].
      intros [|j] Hj; cbn [nth fst snd]; [exact E | apply Hbefore; lia].
Qed.

Lemma nth_combine_pair (l1 l2 : list Q) : forall k,
  length l1 = length l2 ->
  nth k (combine l1 l2) (0, 0) = (nth k l1 0, nth k l2 0).
Proof.
  intros k H. apply combine_nth. exact H.
Qed.
Lemma joint_deltas_combine (current_pos target_pos : list Q) k :
  length current_pos = length target_pos ->
  Qabs (snd (nth k (combine current_pos target_pos) (0, 0)) -
        fst (nth k (combine current_pos target_pos) (0, 0))) =
  joint_delta current_pos target_pos k.
Proof.
  intros H. rewrite nth_combine_pair by exact H. reflexivity.
Qed.

Lemma validate_well_formed (current_pos target_pos : list Q) (max_delta : Q) :
  length current_pos = 6%nat -> length target_pos = 6%nat ->
  validate_joint_position current_pos target_pos max_delta =
  check_joints 0 (combine current_pos target_pos) max_delta.
Proof.
  intros Hc Ht. unfold validate_joint_position. rewrite Hc, Ht. reflexivity.
Qed.



(** The two examples of the specification: a delta equal to the bound passes,
    a larger one is reported at joint 5. *)
Example validate_at_the_bound :
  validate_joint_position [0; 0; 0; 0; 0; 0] [0; 0; 0; 0; 0; 5 # 100] (5 # 100)
  = (true, PositionSafe).
Proof. reflexivity. Qed.

Example validate_above_the_bound :
  validate_joint_position [0; 0; 0; 0; 0; 0] [0; 0; 0; 0; 0; 5 # 100] (4 # 100)
  = (false, MovementTooLarge 5 (5 # 100) (4 # 100)).
Proof. reflexivity. Qed.

(** C8, as the claim states it, fails: on a vector of five joints the answer
    carries no joint index and no magnitude. *)
Lemma dimension_error_names_no_joint :
  ~ (fst (validate_joint_position [0; 0; 0; 0; 0] [0; 0; 0; 0; 0; 0] (5 # 100))
       = false /\
     exists i delta max_delta,
       snd (validate_joint_position [0; 0; 0; 0; 0] [0; 0; 0; 0; 0; 0] (5 # 100))
       = MovementTooLarge i delta max_delta).
Proof.
  intros [_ (i & delta & max_delta & H)]. discriminate H.
Qed.

(** C8, amended.  When either vector does not have exactly six elements,
    [validate_joint_position] rejects with the fixed message "Invalid
    position dimensions", which names no joint and no magnitude; the answer
    is the same whatever the elements are, so none of them is compared. *)
Theorem validate_dimension_guard
  (current_pos target_pos : list Q) (max_delta : Q) :
  length current_pos <> 6%nat \/ length target_pos <> 6%nat ->
  validate_joint_position current_pos target_pos max_delta
  = (false, InvalidDimensions).
Proof.
  intros H. unfold validate_joint_position.
  destruct (Nat.eqb_spec (length current_pos) 6) as [Hc|Hc];
    destruct (Nat.eqb_spec (length target_pos) 6) as [Ht|Ht];
    try reflexivity.
  destruct H; contradiction.
Qed.

Lemma validate_dimension_guard_witness :
  validate_joint_position [0; 0; 0; 0; 0; 0; 1] [9; 9; 9; 9; 9] (5 # 100)
  = (false, InvalidDimensions).
Proof.
  apply (validate_dimension_guard [0; 0; 0; 0; 0; 0; 1] [9; 9; 9; 9; 9] (5 # 100)).
  left. simpl. lia.
Defined.

(** * The monad *)

Lemma bind_inv {A B} (m : M A) (k : A -> M B) fuel tr r tr' :
  bind m k fuel tr = Some (r, tr') ->
  (exists a tr1, m fuel tr = Some (Returned a, tr1) /\
                 k a fuel tr1 = Some (r, tr')) \/
  (exists e, m fuel tr = Some (Raised e, tr') /\ r = Raised e).
Proof.
  unfold bind. destruct (m fuel tr) as [[[a|e] tr1]|]; intros H.
  - left. eauto.
  - right. inversion H; subst. eauto.
  - discriminate H.
Qed.

Lemma perform_eq {A} (ask : nat -> outcome A) log fuel tr :
  perform ask log fuel tr = Some (ask (length tr), tr ++ [log (ask (length tr))]).
Proof. reflexivity. Qed.

Lemma time_time_eq env fuel tr :
  time_time env fuel tr =
  Some (Returned (on_time env (length tr)), tr ++ [EvTime (on_time env (length tr))]).
Proof. reflexivity. Qed.

Lemma length_snoc {A} (l : list A) (x : A) : length (l ++ [x]) = S (length l).
Proof. rewrite length_app. simpl. lia. Qed.

(** * The polling loop *)

Section Wait.

Variable env : Env.

Lemma wait_shape_exit start timeout tail r :
  wait_exit start timeout tail r -> wait_shape start timeout tail r.
Proof.
  intros H. exists [], tail. repeat split; [constructor | exact H].
Qed.

Lemma wait_shape_round start timeout t st ext r :
  Qltb (t - start) timeout = true ->
  velocity_check st = Returned false ->
  wait_shape start timeout ext r ->
  wait_shape start timeout
    (EvTime t :: EvReceive (Returned (Some st)) ::
     EvCall (Sleep (1 # 100)) (Returned tt) :: ext) r.
Proof.
  intros Ht Hv (rounds & tail & -> & Hok & Hexit).
  exists ((t, st) :: rounds), tail. repeat split.
  - constructor; [split; assumption | exact Hok].
  - exact Hexit.
Qed.

Lemma wait_loop_shape k : forall start timeout fuel tr r tr',
  wait_loop env k start timeout fuel tr = Some (r, tr') ->
  exists ext, tr' = tr ++ ext /\ wait_shape start timeout ext r.
Proof.
  induction k as [|k IH]; intros start timeout fuel tr r tr' H.
  - cbn [wait_loop] in H. unfold bind in H. rewrite time_time_eq in H.
    destruct (Qltb (on_time env (length tr) - start) timeout) eqn:E.
    + discriminate H.
    + inversion H; subst. eexists. split; [reflexivity|].
      apply wait_shape_exit, we_timeout. exact E.
  - cbn [wait_loop] in H. unfold bind at 1 in H. rewrite time_time_eq in H.
    destruct (Qltb (on_time env (length tr) - start) timeout) eqn:E.
    2:{ inversion H; subst. eexists. split; [reflexivity|].
        apply wait_shape_exit, we_timeout. exact E. }
    unfold bind at 1 in H. unfold con_receive in H. rewrite perform_eq in H.
    rewrite length_snoc in H.
    destruct (on_receive env (S (length tr))) as [[st|]|e] eqn:R.
    + unfold bind at 1, lift in H.
      destruct (velocity_check st) as [[|]|e] eqn:V.
      * inversion H; subst. rewrite <- app_assoc. eexists. split; [reflexivity|].
        apply wait_shape_exit, we_stopped; assumption.
      * unfold bind at 1, do_call in H. rewrite perform_eq in H.
        rewrite !length_snoc in H.
        destruct (on_call env (S (S (length tr))) (Sleep (1 # 100))) as [[]|e] eqn:S.
        -- apply IH in H. destruct H as (ext & -> & Hs).
           rewrite <- !app_assoc. eexists. split; [reflexivity|].
           cbn [app]. apply wait_shape_round; assumption.
        -- inversion H; subst. rewrite <- !app_assoc. eexists.
           split; [reflexivity|]. cbn [app].
           apply wait_shape_exit, we_sleep_raised; assumption.
      * inversion H; subst. rewrite <- app_assoc. eexists. split; [reflexivity|].
        apply wait_shape_exit, we_max_raised; assumption.
    + inversion H; subst. rewrite <- app_assoc. eexists. split; [reflexivity|].
      apply wait_shape_exit, we_no_state. exact E.
    + inversion H; subst. rewrite <- app_assoc. eexists. split; [reflexivity|].
      apply wait_shape_exit, we_receive_raised. exact E.
Qed.

Lemma wait_for_move_completion_shape timeout fuel tr r tr' :
  wait_for_move_completion env timeout fuel tr = Some (r, tr') ->
  exists ext,
    tr' = tr ++ EvTime (on_time env (length tr)) :: ext /\
    wait_shape (on_time env (length tr)) timeout ext r.
Proof.
  unfold wait_for_move_completion, bind. rewrite time_time_eq. intros H.
  apply wait_loop_shape in H. destruct H as (ext & -> & Hs).
  exists ext. rewrite <- app_assoc. split; [reflexivity | exact Hs].
Qed.

Lemma wait_loop_round k start timeout fuel tr st :
  Qltb (on_time env (length tr) - start) timeout = true ->
  on_receive env (S (length tr)) = Returned (Some st) ->
  velocity_check st = Returned false ->
  on_call env (S (S (length tr))) (Sleep (1 # 100)) = Returned tt ->
  wait_loop env (S k) start timeout fuel tr =
  wait_loop env k start timeout fuel
    (tr ++ round_events [(on_time env (length tr), st)]).
Proof.
  intros Ht Hr Hv Hs.
  cbn [wait_loop]. unfold bind at 1. rewrite time_time_eq.
  rewrite Ht. unfold bind at 1, con_receive. rewrite perform_eq, length_snoc, Hr.
  unfold bind at 1, lift. rewrite Hv.
  unfold bind at 1, do_call. rewrite perform_eq, !length_snoc, Hs.
  rewrite <- !app_assoc. reflexivity.
Qed.

Lemma wait_loop_rounds n : forall start timeout fuel tr,
  (forall i, (i < n)%nat ->
     round_in_motion env start timeout (length tr + 3 * i)) ->
  exists rounds,
    length rounds = n /\
    Forall (round_ok start timeout) rounds /\
    forall k, wait_loop env (n + k) start timeout fuel tr =
              wait_loop env k start timeout fuel (tr ++ round_events rounds).
Proof.
  induction n as [|n IH]; intros start timeout fuel tr H.
  - exists []. repeat split; [constructor|].
    intros k. cbn [round_events flat_map]. rewrite app_nil_r. reflexivity.
  - assert (H0 : round_in_motion env start timeout (length tr)).
    { specialize (H 0%nat ltac:(lia)). rewrite Nat.mul_0_r, Nat.add_0_r in H.
      exact H. }
    destruct H0 as (Ht & (st & Hst & Hv) & Hs).
    set (r := (on_time env (length tr), st)).
    destruct (IH start timeout fuel (tr ++ round_events [r]))
      as (rounds & Hlen & Hok & Heq).
    { intros i Hi. rewrite length_app. cbn [round_events flat_map app length].
      replace (length tr + 3 + 3 * i)%nat with (length tr + 3 * S i)%nat by lia.
      apply H. lia. }
    exists (r :: rounds). repeat split.
    + cbn [length]. congruence.
    + constructor; [split; assumption | exact Hok].
    + intros k. cbn [Nat.add].
      rewrite (wait_loop_round (n + k) start timeout fuel tr st Ht Hst Hv Hs).
      fold r. rewrite Heq. cbn [round_events flat_map app].
      rewrite <- app_assoc. reflexivity.
Qed.

End Wait.

(** ** The last round of the polling loop, read off the collaborators *)

Section WaitExits.

Variable env : Env.


Lemma wait_loop_no_state k start timeout fuel tr :
  Qltb (on_time env (length tr) - start) timeout = true ->
  on_receive env (S (length tr)) = Returned None ->
  wait_loop env (S k) start timeout fuel tr =
  Some (Returned false,
        tr ++ [EvTime (on_time env (length tr)); EvReceive (Returned None)]).
Proof.
  intros Ht Hr. cbn [wait_loop]. unfold bind at 1. rewrite time_time_eq, Ht.
  unfold bind, con_receive. rewrite perform_eq, length_snoc, Hr.
  rewrite <- app_assoc. reflexivity.
Qed.

Lemma wait_loop_stopped k start timeout fuel tr st :
  Qltb (on_time env (length tr) - start) timeout = true ->
  on_receive env (S (length tr)) = Returned (Some st) ->
  velocity_check st = Returned true ->
  wait_loop env (S k) start timeout fuel tr =
  Some (Returned true,
        tr ++ [EvTime (on_time env (length tr));
               EvReceive (Returned (Some st))]).
Proof.
  intros Ht Hr Hv. cbn [wait_loop]. unfold bind at 1. rewrite time_time_eq, Ht.
  unfold bind at 1, con_receive. rewrite perform_eq, length_snoc, Hr.
  unfold bind, lift. rewrite Hv. rewrite <- app_assoc. reflexivity.
Qed.

Lemma length_round_events rounds :
  length (round_events rounds) = (3 * length rounds)%nat.
Proof.
  induction rounds as [|r rounds IH]; [reflexivity|].
  change (round_events (r :: rounds)) with
    (EvTime (fst r) :: EvReceive (Returned (Some (snd r))) ::
     EvCall (Sleep (1 # 100)) (Returned tt) :: round_events rounds).
  cbn [length]. rewrite IH. lia.
Qed.

(** After [n] rounds in motion the loop stands at position
    [S (length tr) + 3 * n] of the trace, with [n] rounds logged. *)
Lemma wait_for_move_completion_rounds timeout fuel tr n :
  (forall i, (i < n)%nat ->
     round_in_motion env (on_time env (length tr)) timeout
       (S (length tr) + 3 * i)) ->
  exists rounds,
    length rounds = n /\
    Forall (round_ok (on_time env (length tr)) timeout) rounds /\
    length (tr ++ EvTime (on_time env (length tr)) :: round_events rounds)
      = (S (length tr) + 3 * n)%nat /\
    forall k, fuel = (n + k)%nat ->
      wait_for_move_completion env timeout fuel tr =
      wait_loop env k (on_time env (length tr)) timeout fuel
        (tr ++ EvTime (on_time env (length tr)) :: round_events rounds).
Proof.
  intros H.
  destruct (wait_loop_rounds env n (on_time env (length tr)) timeout fuel
              (tr ++ [EvTime (on_time env (length tr))]))
    as (rounds & Hlen & Hok & Heq).
  { intros i Hi. rewrite length_snoc. apply H, Hi. }
  exists rounds. repeat split; try assumption.
  - rewrite length_app. cbn [length]. rewrite length_round_events, Hlen. lia.
  - intros k Hfuel.
    unfold wait_for_move_completion, bind. rewrite time_time_eq.
    rewrite Hfuel at 1. rewrite Heq, <- app_assoc. reflexivity.
Qed.

End WaitExits.

(** * Claims about the motion-completion wait *)

(** A wait that returns ends in one of three ways, told apart by its last
    calls; it returns [true] in the first and [false] in the other two. *)
Lemma wait_returned_cases env timeout fuel tr b tr' :
  wait_for_move_completion env timeout fuel tr = Some (Returned b, tr') ->
  exists rounds t,
    Forall (round_ok (on_time env (length tr)) timeout) rounds /\
    ((b = true /\
      Qltb (t - on_time env (length tr)) timeout = true /\
      exists st, velocity_check st = Returned true /\
        tr' = tr ++ EvTime (on_time env (length tr)) :: round_events rounds ++
                [EvTime t; EvReceive (Returned (Some st))])
     \/
     (b = false /\
      Qltb (t - on_time env (length tr)) timeout = true /\
      tr' = tr ++ EvTime (on_time env (length tr)) :: round_events rounds ++
              [EvTime t; EvReceive (Returned None)])
     \/
     (b = false /\
      Qltb (t - on_time env (length tr)) timeout = false /\
      tr' = tr ++ EvTime (on_time env (length tr)) :: round_events rounds ++
              [EvTime t])).
Proof.
  intros H. apply wait_for_move_completion_shape in H.
  destruct H as (ext & -> & rounds & tail & -> & Hok & Hexit).
  exists rounds. inversion Hexit; subst; exists t; (split; [exact Hok|]).
  - right; right. auto.
  - right; left. auto.
  - left. eauto.
Qed.

(** C5, as the claim states it, fails: a wait that ends because the
    transport yielded no sample and a wait that ends because the timeout
    passed return the same value, [False]. *)
Lemma lost_session_returns_what_timeout_returns :
  exec (wait_for_move_completion env_lost 10) 5 =
    Some (Returned false, [EvTime 0; EvTime 1; EvReceive (Returned None)]) /\
  exec (wait_for_move_completion env_moving 10) 5 =
    Some (Returned false,
          EvTime 0 ::
          round_events [(1, moving home); (4, moving home); (7, moving home)]
          ++ [EvTime 10]) /\
  Qltb (10 - 0) 10 = false.
Proof.
  repeat split; vm_compute; reflexivity.
Qed.

(** C5, amended.  The wait returns a boolean, not one of three outcomes.  It
    leaves its loop in one of three ways: a sample below the threshold
    ([True]), a request that yields no sample ([False]), the timeout
    ([False]); so the caller cannot tell a lost session from a timeout.  A
    request that yields no sample is the last call of the wait: [False] is
    returned at once, without another request. *)
Theorem wait_for_move_completion_outcomes env timeout fuel tr :
  (forall b tr',
     wait_for_move_completion env timeout fuel tr = Some (Returned b, tr') ->
     exists rounds t,
       Forall (round_ok (on_time env (length tr)) timeout) rounds /\
       ((b = true /\
         Qltb (t - on_time env (length tr)) timeout = true /\
         exists st, velocity_check st = Returned true /\
           tr' = tr ++ EvTime (on_time env (length tr)) ::
                   round_events rounds ++
                   [EvTime t; EvReceive (Returned (Some st))])
        \/
        (b = false /\
         Qltb (t - on_time env (length tr)) timeout = true /\
         tr' = tr ++ EvTime (on_time env (length tr)) ::
                 round_events rounds ++ [EvTime t; EvReceive (Returned None)])
        \/
        (b = false /\
         Qltb (t - on_time env (length tr)) timeout = false /\
         tr' = tr ++ EvTime (on_time env (length tr)) ::
                 round_events rounds ++ [EvTime t])))
  /\
  (forall n,
     (forall i, (i < n)%nat ->
        round_in_motion env (on_time env (length tr)) timeout
          (S (length tr) + 3 * i)) ->
     Qltb (on_time env (S (length tr) + 3 * n) - on_time env (length tr))
       timeout = true ->
     on_receive env (S (S (length tr) + 3 * n)) = Returned None ->
     (n < fuel)%nat ->
     exists rounds,
       length rounds = n /\
       wait_for_move_completion env timeout fuel tr =
       Some (Returned false,
             tr ++ EvTime (on_time env (length tr)) :: round_events rounds ++
               [EvTime (on_time env (S (length tr) + 3 * n));
                EvReceive (Returned None)])).
Proof.
  split.
  - intros b tr'. apply wait_returned_cases.
  - intros n Hrounds Ht Hr Hfuel.
    destruct (wait_for_move_completion_rounds env timeout fuel tr n Hrounds)
      as (rounds & Hlen & _ & Hpos & Heq).
    exists rounds. split; [exact Hlen|].
    rewrite (Heq (S (fuel - S n))) by lia.
    rewrite wait_loop_no_state; rewrite Hpos; try assumption.
    rewrite <- app_assoc. reflexivity.
Qed.

Lemma wait_for_move_completion_outcomes_witness :
  exists rounds,
    length rounds = 0%nat /\
    wait_for_move_completion env_lost 10 5%nat [] =
    Some (Returned false,
          [] ++ EvTime (on_time env_lost 0) :: round_events rounds ++
            [EvTime (on_time env_lost 1); EvReceive (Returned None)]).
Proof.
  destruct (wait_for_move_completion_outcomes env_lost 10 5 []) as [_ H].
  apply (H 0%nat).
  - intros i Hi. lia.
  - reflexivity.
  - reflexivity.
  - lia.
Defined.

Lemma Qltb_true x y : Qltb x y = true <-> x < y.
Proof. unfold Qltb. apply (Qgtb_true y x). Qed.

Lemma Qltb_false x y : Qltb x y = false <-> y <= x.
Proof. unfold Qltb. apply (Qgtb_false y x). Qed.

(** [max] returns an element of the list that no element exceeds. *)
Lemma fold_max_spec rest : forall v,
  let m := fold_left (fun m x => if Qgtb x m then x else m) rest v in
  In m (v :: rest) /\ Forall (fun x => x <= m) (v :: rest).
Proof.
  induction rest as [|x rest IH]; intros v; cbn [fold_left].
  - split; [left; reflexivity | constructor; [lra | constructor]].
  - destruct (Qgtb x v) eqn:E.
    + destruct (IH x) as [Hin Hall]. apply Qgtb_true in E. split.
      * right. exact Hin.
      * inversion Hall; subst. constructor; [lra | constructor; assumption].
    + destruct (IH v) as [Hin Hall]. apply Qgtb_false in E. split.
      * destruct Hin as [<-|Hin]; [left; reflexivity | right; right; exact Hin].
      * inversion Hall; subst. constructor; [assumption|].
        constructor; [lra | assumption].
Qed.


(** The test of line 102 fails exactly when some joint velocity is, in
    absolute value, at least 0.001. *)
Lemma velocity_check_false st :
  velocity_check st = Returned false <->
  Exists (fun v => 1 # 1000 <= Qabs v) (actual_qd st).
Proof.
  unfold velocity_check, max_abs_velocity.
  destruct (actual_qd st) as [|v rest]; cbn [map py_max].
  - split; [intros H; discriminate H | intros H; inversion H].
  - destruct (fold_max_spec (map Qabs rest) (Qabs v)) as [Hin Hall].
    cbv zeta in Hin, Hall.
    set (m := fold_left _ _ _) in *. split.
    + intros H. assert (Hm : Qltb m (1 # 1000) = false) by congruence.
      apply Qltb_false in Hm.
      change (Qabs v :: map Qabs rest) with (map Qabs (v :: rest)) in Hin.
      apply in_map_iff in Hin. destruct Hin as (a & Ha & Hin).
      apply Exists_exists. exists a. split; [exact Hin|].
      rewrite Ha. exact Hm.
    + intros H. f_equal. apply Qltb_false.
      apply Exists_exists in H. destruct H as (a & Hmem & Ha).
      change (Qabs v :: map Qabs rest) with (map Qabs (v :: rest)) in Hall.
      rewrite Forall_map, Forall_forall in Hall.
      specialize (Hall a Hmem). cbv beta in Hall. lra.
Qed.






(** The hypothesis on the clock is needed: [time.time] follows the system
    clock, and a clock set back between the two readings makes the elapsed
    time negative, below a negative timeout. *)
Example clock_set_back_polls :
  exec (wait_for_move_completion env_clock_set_back (-1)) 5 =
  Some (Returned true,
        [EvTime 100; EvTime 98; EvReceive (Returned (Some (still home)))]).
Proof. reflexivity. Qed.

(** * Recipe configuration *)

Section Setup.

Variable env : Env.

Lemma do_call_eq c fuel tr :
  do_call env c fuel tr =
  Some (on_call env (length tr) c, tr ++ [EvCall c (on_call env (length tr) c)]).
Proof. reflexivity. Qed.

(** Lines 184-187. *)
Lemma configure_eq fuel tr :
  bind (do_call env SendOutputSetup)
    (fun _ => bind (con_send_input_setup env) (fun setp => ret (Break setp)))
    fuel tr =
  Some (match configure_answer env (length tr) with
        | Returned setp => Returned (Break setp)
        | Raised e => Raised e
        end,
        tr ++ configure_events env (length tr)).
Proof.
  unfold bind at 1. rewrite do_call_eq.
  unfold configure_answer, configure_events.
  destruct (on_call env (length tr) SendOutputSetup) as [u|e]; [|reflexivity].
  unfold bind, con_send_input_setup, ret. rewrite perform_eq, length_snoc.
  rewrite <- app_assoc.
  destruct (on_send_input_setup env (S (length tr))); reflexivity.
Qed.

Lemma setup_attempt_other last fuel tr e :
  configure_answer env (length tr) = Raised e ->
  is_conflict e = false ->
  setup_attempt env last fuel tr =
  Some (Raised e, tr ++ configure_events env (length tr)).
Proof.
  intros Ha Hc. unfold setup_attempt, try_except.
  rewrite configure_eq, Ha.
  destruct e; try reflexivity.
  cbn [is_conflict] in Hc. rewrite Hc. reflexivity.
Qed.

Lemma setup_attempt_conflict last fuel tr e :
  configure_answer env (length tr) = Raised e ->
  is_conflict e = true ->
  setup_attempt env last fuel tr =
  bind (do_call env Disconnect)
    (fun _ => bind (do_call env (Sleep 2))
       (fun _ => if last then ret (Return RetriesExhausted)
                 else bind (do_call env Connect)
                        (fun _ => bind (do_call env GetControllerVersion)
                                    (fun _ => ret Continue))))
    fuel (tr ++ configure_events env (length tr)).
Proof.
  intros Ha Hc. unfold setup_attempt, try_except.
  rewrite configure_eq, Ha.
  destruct e; try discriminate Hc.
  cbn [is_conflict] in Hc. rewrite Hc. reflexivity.
Qed.

Lemma setup_attempt_returned last fuel tr setp :
  configure_answer env (length tr) = Returned setp ->
  setup_attempt env last fuel tr =
  Some (Returned (Break setp), tr ++ configure_events env (length tr)).
Proof.
  intros Ha. unfold setup_attempt, try_except.
  rewrite configure_eq, Ha. reflexivity.
Qed.

Lemma setup_attempt_retry last fuel tr e :
  configure_answer env (length tr) = Raised e ->
  is_conflict e = true ->
  (forall p c, In c [Disconnect; Sleep 2; Connect; GetControllerVersion] ->
               on_call env p c = Returned tt) ->
  setup_attempt env last fuel tr =
  Some (Returned (if last then Return RetriesExhausted else Continue),
        tr ++ configure_events env (length tr) ++ retry_events last).
Proof.
  intros Ha Hc Hok.
  rewrite (setup_attempt_conflict last fuel tr e Ha Hc).
  unfold bind at 1. rewrite do_call_eq, Hok by (cbn [In]; auto).
  unfold bind at 1. rewrite do_call_eq, Hok by (cbn [In]; auto).
  destruct last.
  - unfold ret, retry_events. rewrite <- !app_assoc. reflexivity.
  - unfold bind at 1. rewrite do_call_eq, Hok by (cbn [In]; auto).
    unfold bind at 1. rewrite do_call_eq, Hok by (cbn [In]; auto).
    unfold ret, retry_events. rewrite <- !app_assoc. reflexivity.
Qed.

End Setup.

Lemma count_calls_app c tr1 tr2 :
  count_calls c (tr1 ++ tr2) = (count_calls c tr1 + count_calls c tr2)%nat.
Proof. unfold count_calls. rewrite filter_app, length_app. reflexivity. Qed.

Lemma sleeps_app tr1 tr2 : sleeps (tr1 ++ tr2) = sleeps tr1 ++ sleeps tr2.
Proof.
  induction tr1 as [|e tr1 IH]; [reflexivity|].
  destruct e as [| c r | | | |]; cbn [app sleeps]; try exact IH.
  destruct c; cbn [sleeps]; rewrite ?IH; reflexivity.
Qed.

Lemma sends_app tr1 tr2 : sends (tr1 ++ tr2) = sends tr1 ++ sends tr2.
Proof.
  induction tr1 as [|e tr1 IH]; [reflexivity|].
  destruct e as [| c r | | | |]; cbn [app sends]; try exact IH.
  destruct c; cbn [sends]; rewrite ?IH; reflexivity.
Qed.

Lemma samples_app tr1 tr2 : samples (tr1 ++ tr2) = samples tr1 ++ samples tr2.
Proof.
  induction tr1 as [|e tr1 IH]; [reflexivity|].
  destruct e as [| | | | [[st|]|] |]; cbn [app samples]; rewrite ?IH; reflexivity.
Qed.

(** What one configuration attempt adds to the counts. *)
Lemma configure_events_counts env pos :
  count_calls SendOutputSetup (configure_events env pos) = 1%nat /\
  count_calls Disconnect (configure_events env pos) = 0%nat /\
  count_calls Connect (configure_events env pos) = 0%nat /\
  count_calls SendPause (configure_events env pos) = 0%nat /\
  sleeps (configure_events env pos) = [] /\
  sends (configure_events env pos) = [].
Proof.
  unfold configure_events.
  destruct (on_call env pos SendOutputSetup); repeat split; reflexivity.
Qed.

(** A controller that reports the conflict at every attempt: [n] attempts,
    each followed by a disconnect and a wait of two seconds, a reconnect
    after all but the last, then the exit of line 207. *)
Lemma setup_loop_always_conflict env fuel n :
  (forall p, exists e, configure_answer env p = Raised e /\ is_conflict e = true) ->
  (forall p c, In c [Disconnect; Sleep 2; Connect; GetControllerVersion] ->
               on_call env p c = Returned tt) ->
  forall tr,
  exists ext,
    setup_loop env (S n) fuel tr =
      Some (Returned (inl RetriesExhausted), tr ++ ext) /\
    count_calls SendOutputSetup ext = S n /\
    count_calls Disconnect ext = S n /\
    sleeps ext = repeat 2 (S n) /\
    count_calls Connect ext = n /\
    count_calls SendPause ext = 0%nat /\
    sends ext = [].
Proof.
  intros Hconf Hok. induction n as [|n IH]; intros tr.
  - destruct (Hconf (length tr)) as (e & Ha & Hc).
    exists (configure_events env (length tr) ++ retry_events true).
    destruct (configure_events_counts env (length tr))
      as (C1 & C2 & C3 & C4 & C5 & C6).
    split.
    + cbn [setup_loop]. unfold bind.
      rewrite (setup_attempt_retry env _ fuel tr e Ha Hc Hok). reflexivity.
    + rewrite !count_calls_app, sleeps_app, sends_app, C1, C2, C3, C4, C5, C6.
      repeat split; reflexivity.
  - destruct (Hconf (length tr)) as (e & Ha & Hc).
    destruct (IH (tr ++ configure_events env (length tr) ++ retry_events false))
      as (ext & Heq & D1 & D2 & D3 & D4 & D5 & D6).
    exists ((configure_events env (length tr) ++ retry_events false) ++ ext).
    destruct (configure_events_counts env (length tr))
      as (C1 & C2 & C3 & C4 & C5 & C6).
    split.
    + change (setup_loop env (S (S n))) with
        (bind (setup_attempt env (S n =? 0)%nat)
           (fun s => match s with
                     | Break setp => ret (inr setp)
                     | Return r => ret (inl r)
                     | Continue => setup_loop env (S n)
                     end)).
      unfold bind.
      rewrite (setup_attempt_retry env _ fuel tr e Ha Hc Hok).
      cbn [Nat.eqb]. rewrite Heq. rewrite <- !app_assoc. reflexivity.
    + rewrite !count_calls_app, !sleeps_app, !sends_app.
      rewrite C1, C2, C3, C4, C5, C6, D1, D2, D3, D4, D5, D6.
      repeat split; reflexivity.
Qed.

(** C2, as the claim states it, fails: with a controller that always reports
    the conflict, the three attempts are followed by three disconnects but
    by two reconnects only; after the third conflict the program gives up
    without reconnecting. *)
Lemma third_conflict_is_not_followed_by_reconnect :
  exec (setup_loop env_conflict max_retries) 0 =
    Some (Returned (inl RetriesExhausted),
          configure_events env_conflict 0 ++ retry_events false ++
          configure_events env_conflict 6 ++ retry_events false ++
          configure_events env_conflict 12 ++ retry_events true) /\
  count_calls SendOutputSetup
    (configure_events env_conflict 0 ++ retry_events false ++
     configure_events env_conflict 6 ++ retry_events false ++
     configure_events env_conflict 12 ++ retry_events true) = 3%nat /\
  count_calls Connect
    (configure_events env_conflict 0 ++ retry_events false ++
     configure_events env_conflict 6 ++ retry_events false ++
     configure_events env_conflict 12 ++ retry_events true) <> 3%nat.
Proof.
  repeat split; try reflexivity. vm_compute. discriminate.
Qed.

(** C2, amended.  A rejection other than a [ValueError] that mentions
    "already in use" leaves the retry loop at once, after that one attempt.
    A conflict with retries left is followed by a disconnect, a wait of two
    seconds, a reconnect and a new attempt.  With the budget of three and a
    controller that reports the conflict at every attempt, there are exactly
    three attempts, each followed by a disconnect and a wait of two seconds,
    and two reconnects (none after the third attempt); then the program
    gives up at line 207. *)
Theorem setup_retries_register_conflicts_only env fuel tr :
  (forall n e,
     configure_answer env (length tr) = Raised e ->
     is_conflict e = false ->
     setup_loop env (S n) fuel tr =
     Some (Raised e, tr ++ configure_events env (length tr)))
  /\
  (forall n e,
     configure_answer env (length tr) = Raised e ->
     is_conflict e = true ->
     (forall p c, In c [Disconnect; Sleep 2; Connect; GetControllerVersion] ->
                  on_call env p c = Returned tt) ->
     setup_loop env (S (S n)) fuel tr =
     setup_loop env (S n) fuel
       (tr ++ configure_events env (length tr) ++
        [EvCall Disconnect (Returned tt); EvCall (Sleep 2) (Returned tt);
         EvCall Connect (Returned tt);
         EvCall GetControllerVersion (Returned tt)]))
  /\
  ((forall p, exists e,
      configure_answer env p = Raised e /\ is_conflict e = true) ->
   (forall p c, In c [Disconnect; Sleep 2; Connect; GetControllerVersion] ->
                on_call env p c = Returned tt) ->
   exists ext,
     setup_loop env max_retries fuel tr =
       Some (Returned (inl RetriesExhausted), tr ++ ext) /\
     count_calls SendOutputSetup ext = 3%nat /\
     count_calls Disconnect ext = 3%nat /\
     sleeps ext = [2; 2; 2] /\
     count_calls Connect ext = 2%nat).
Proof.
  split; [|split].
  - intros n e Ha Hc. cbn [setup_loop]. unfold bind.
    rewrite (setup_attempt_other env _ fuel tr e Ha Hc). reflexivity.
  - intros n e Ha Hc Hok.
    change (setup_loop env (S (S n))) with
      (bind (setup_attempt env (S n =? 0)%nat)
         (fun s => match s with
                   | Break setp => ret (inr setp)
                   | Return r => ret (inl r)
                   | Continue => setup_loop env (S n)
                   end)).
    unfold bind.
    rewrite (setup_attempt_retry env _ fuel tr e Ha Hc Hok). reflexivity.
  - intros Hconf Hok.
    destruct (setup_loop_always_conflict env fuel 2 Hconf Hok tr)
      as (ext & Heq & C1 & C2 & C3 & C4 & _).
    exists ext. repeat split; assumption.
Qed.

Lemma setup_retries_register_conflicts_only_witness :
  setup_loop env_rejected 3 0%nat [] =
    Some (Raised (ValueError "Unknown input parameter."),
          [] ++ configure_events env_rejected 0)
  /\
  exists ext,
    setup_loop env_conflict max_retries 0%nat [] =
      Some (Returned (inl RetriesExhausted), [] ++ ext) /\
    count_calls SendOutputSetup ext = 3%nat /\
    count_calls Disconnect ext = 3%nat /\
    sleeps ext = [2; 2; 2] /\
    count_calls Connect ext = 2%nat.
Proof.
  split.
  - destruct (setup_retries_register_conflicts_only env_rejected 0%nat [])
      as [H _].
    apply (H 2%nat); reflexivity.
  - destruct (setup_retries_register_conflicts_only env_conflict 0%nat [])
      as (_ & _ & H).
    apply H.
    + intros p. eexists. split; reflexivity.
    + intros p c Hc. reflexivity.
Defined.

(** * The calls of a run *)

Tactic Notation "bind_step" hyp(H) "as" ident(a) ident(tr1) ident(Hm) ident(e) :=
  apply bind_inv in H;
  destruct H as [(a & tr1 & Hm & H) | (e & Hm & ->)].

Ltac perform_step H :=
  let Hans := fresh "Hans" in
  let Htr := fresh "Htr" in
  unfold do_call, con_receive, con_send_input_setup, con_send_start, input in H;
  rewrite perform_eq in H;
  injection H as Hans Htr;
  rewrite Hans in Htr; subst.

Lemma read_registers_six (target : list Q) :
  length target = 6%nat ->
  read_registers target (seq 0 6) = Returned target.
Proof.
  intros H.
  destruct target as [|a0 [|a1 [|a2 [|a3 [|a4 [|a5 [|a6 l]]]]]]];
    try discriminate H.
  reflexivity.
Qed.

Lemma validate_accepts_six current_pos target_pos max_delta msg :
  validate_joint_position current_pos target_pos max_delta = (true, msg) ->
  length current_pos = 6%nat /\ length target_pos = 6%nat.
Proof.
  unfold validate_joint_position.
  destruct (Nat.eqb_spec (length current_pos) 6);
    destruct (Nat.eqb_spec (length target_pos) 6);
    cbn [negb orb]; intros H; try discriminate H.
  auto.
Qed.

Section Shapes.

Variable cfg : Config.
Variable env : Env.

Lemma movement_sound n setp target fuel tr r tr' :
  length target = 6%nat ->
  movement cfg env n setp target fuel tr = Some (r, tr') ->
  exists ext,
    tr' = tr ++ ext /\
    movement_shape (MOVEMENT_TIMEOUT cfg) n setp target ext r.
Proof.
  intros Hlen H. unfold movement in H.
  unfold bind at 1, lift in H. rewrite (read_registers_six target Hlen) in H.
  bind_step H as u tr1 Hsend e.
  2:{ perform_step Hsend. eexists. split; [reflexivity | apply ms_send_raised]. }
  perform_step Hsend. destruct u.
  bind_step H as completed tr2 Hwait e;
    apply wait_for_move_completion_shape in Hwait;
    destruct Hwait as (ext & -> & Hs).
  - destruct completed.
    + bind_step H as state tr3 Hrecv e.
      * perform_step Hrecv. unfold bind, lift in H.
        destruct state as [st|]; cbn [get_actual_q] in H;
          injection H as <- <-; rewrite <- !app_assoc; eexists;
          (split; [reflexivity|]); cbn [app].
        -- apply ms_completed with (st := st). exact Hs.
        -- apply ms_reread_none. exact Hs.
      * perform_step Hrecv. rewrite <- !app_assoc. eexists.
        split; [reflexivity|]. cbn [app]. apply ms_reread_raised. exact Hs.
    + injection H as <- <-. rewrite <- !app_assoc. eexists.
      split; [reflexivity|]. cbn [app]. apply ms_not_completed. exact Hs.
  - rewrite <- !app_assoc. eexists.
    split; [reflexivity|]. cbn [app]. apply ms_wait_raised. exact Hs.
Qed.

Lemma test_movements_sound setp fuel tr r tr' :
  test_movements cfg env setp fuel tr = Some (r, tr') ->
  exists ext, tr' = tr ++ ext /\ test_shape cfg setp ext r.
Proof.
  intros H. unfold test_movements in H.
  bind_step H as state tr1 Hrecv e.
  2:{ perform_step Hrecv. eexists. split; [reflexivity|].
      apply ts_receive_raised. }
  perform_step Hrecv. destruct state as [st|].
  2:{ injection H as <- <-. eexists. split; [reflexivity|]. apply ts_no_state. }
  unfold bind at 1, lift in H.
  destruct (add_at (actual_q st) 5 (SMALL_MOVEMENT_OFFSET cfg))
    as [target_pos_1|e] eqn:Hadd.
  2:{ injection H as <- <-. eexists. split; [reflexivity|].
      eapply ts_short_position. exact Hadd. }
  destruct (validate_joint_position (actual_q st) target_pos_1
              (MAX_JOINT_MOVEMENT cfg)) as [[|] msg1] eqn:V1; cbn [negb] in H.
  2:{ injection H as <- <-. eexists. split; [reflexivity|].
      eapply ts_invalid_1; eassumption. }
  destruct (validate_joint_position target_pos_1 (actual_q st)
              (MAX_JOINT_MOVEMENT cfg)) as [[|] msg2] eqn:V2; cbn [negb] in H.
  2:{ injection H as <- <-. eexists. split; [reflexivity|].
      eapply ts_invalid_2; eassumption. }
  destruct (validate_accepts_six _ _ _ _ V1) as [Hlen0 Hlen1].
  bind_step H as u tr1 Hsleep e.
  2:{ perform_step Hsleep. rewrite <- app_assoc. eexists.
      split; [reflexivity|]. cbn [app].
      eapply ts_warning_interrupted; eassumption. }
  perform_step Hsleep. destruct u.
  bind_step H as r1 tr2 Hmove1 e;
    apply (movement_sound _ _ _ _ _ _ _ Hlen1) in Hmove1;
    destruct Hmove1 as (ext1 & -> & Hs1).
  2:{ rewrite <- !app_assoc. eexists. split; [reflexivity|]. cbn [app].
      eapply ts_first_movement; try eassumption. reflexivity. }
  destruct r1 as [res|].
  { injection H as <- <-. rewrite <- !app_assoc. eexists.
    split; [reflexivity|]. cbn [app].
    eapply ts_first_movement; try eassumption. reflexivity. }
  bind_step H as u tr3 Hsleep e.
  2:{ perform_step Hsleep. rewrite <- !app_assoc. eexists.
      split; [reflexivity|]. cbn [app].
      eapply ts_pause_interrupted; eassumption. }
  perform_step Hsleep. destruct u.
  assert (Hfinal : exists r2 ext2,
             r = match early_exit r2 with
                 | Some r => r
                 | None => Returned Completed
                 end /\
             tr' = (((tr ++ [EvReceive (Returned (Some st))]) ++
                     [EvCall (Sleep 2) (Returned tt)]) ++ ext1) ++
                   [EvCall (Sleep 1) (Returned tt)] ++ ext2 /\
             movement_shape (MOVEMENT_TIMEOUT cfg) 2 setp (actual_q st) ext2 r2).
  { bind_step H as r2 tr4 Hmove2 e;
      apply (movement_sound _ _ _ _ _ _ _ Hlen0) in Hmove2;
      destruct Hmove2 as (ext2 & -> & Hs2).
    - destruct r2 as [res|]; injection H as <- <-.
      + exists (Returned (Some res)), ext2.
        rewrite <- !app_assoc. repeat split. exact Hs2.
      + exists (Returned None), ext2.
        rewrite <- !app_assoc. repeat split. exact Hs2.
    - exists (Raised e), ext2.
      rewrite <- !app_assoc. repeat split. exact Hs2. }
  destruct Hfinal as (r2 & ext2 & -> & -> & Hs2).
  rewrite <- !app_assoc. eexists. split; [reflexivity|]. cbn [app].
  eapply ts_second_movement; eassumption.
Qed.

Lemma configure_events_setup pos :
  forallb is_setup_event (configure_events env pos) = true.
Proof.
  unfold configure_events.
  destruct (on_call env pos SendOutputSetup); reflexivity.
Qed.

Lemma setup_attempt_sound last fuel tr r tr' :
  setup_attempt env last fuel tr = Some (r, tr') ->
  exists ext,
    tr' = tr ++ ext /\
    forallb is_setup_event ext = true /\
    (forall res, r = Returned (Return res) -> res = RetriesExhausted).
Proof.
  unfold setup_attempt, try_except. rewrite configure_eq.
  pose proof (configure_events_setup (length tr)) as Hconf.
  destruct (configure_answer env (length tr)) as [setp|e].
  { intros H. injection H as <- <-. eexists.
    repeat split; [exact Hconf | intros res H; discriminate H]. }
  assert (Hraise :
    raise (A := step) e fuel (tr ++ configure_events env (length tr))
      = Some (r, tr') ->
    exists ext, tr' = tr ++ ext /\ forallb is_setup_event ext = true /\
      (forall res, r = Returned (Return res) -> res = RetriesExhausted)).
  { intros H. injection H as <- <-. eexists.
    repeat split; [exact Hconf | intros res H; discriminate H]. }
  destruct e; try exact Hraise.
  destruct (contains "already in use" msg); [clear Hraise | exact Hraise].
  intros H.
  bind_step H as u tr1 Hcall e.
  2:{ perform_step Hcall. rewrite <- app_assoc. eexists.
      repeat split; [|intros res H; discriminate H].
      rewrite forallb_app, Hconf. reflexivity. }
  perform_step Hcall.
  bind_step H as u2 tr2 Hcall e.
  2:{ perform_step Hcall. rewrite <- !app_assoc. eexists.
      repeat split; [|intros res H; discriminate H].
      rewrite forallb_app, Hconf. reflexivity. }
  perform_step Hcall.
  destruct last.
  { injection H as <- <-. rewrite <- !app_assoc. eexists.
    repeat split; [|intros res H; congruence].
    rewrite forallb_app, Hconf. reflexivity. }
  bind_step H as u3 tr3 Hcall e.
  2:{ perform_step Hcall. rewrite <- !app_assoc. eexists.
      repeat split; [|intros res H; discriminate H].
      rewrite forallb_app, Hconf. reflexivity. }
  perform_step Hcall.
  bind_step H as u4 tr4 Hcall e.
  2:{ perform_step Hcall. rewrite <- !app_assoc. eexists.
      repeat split; [|intros res H; discriminate H].
      rewrite forallb_app, Hconf. reflexivity. }
  perform_step Hcall.
  injection H as <- <-. rewrite <- !app_assoc. eexists.
  repeat split; [|intros res H; discriminate H].
  rewrite forallb_app, Hconf. reflexivity.
Qed.

Lemma setup_loop_sound n : forall fuel tr r tr',
  setup_loop env n fuel tr = Some (r, tr') ->
  exists ext,
    tr' = tr ++ ext /\
    forallb is_setup_event ext = true /\
    (forall res, r = Returned (inl res) -> res = RetriesExhausted).
Proof.
  induction n as [|n IH]; intros fuel tr r tr' H; cbn [setup_loop] in H.
  - injection H as <- <-. exists []. rewrite app_nil_r.
    repeat split. intros res H. discriminate H.
  - bind_step H as s tr1 Hattempt e;
      apply setup_attempt_sound in Hattempt;
      destruct Hattempt as (ext & -> & Hext & Hres).
    2:{ exists ext. repeat split; [exact Hext | intros res H; discriminate H]. }
    destruct s as [setp| |res0].
    + injection H as <- <-. exists ext.
      repeat split; [exact Hext | intros res H; discriminate H].
    + apply IH in H. destruct H as (ext2 & -> & Hext2 & Hres2).
      exists (ext ++ ext2). rewrite app_assoc.
      repeat split; [|exact Hres2].
      rewrite forallb_app, Hext, Hext2. reflexivity.
    + injection H as <- <-. exists ext.
      repeat split; [exact Hext|].
      intros res H. injection H as <-. apply Hres. reflexivity.
Qed.

Lemma try_body_sound fuel tr r tr' :
  try_body cfg env fuel tr = Some (r, tr') ->
  exists ext, tr' = tr ++ ext /\ body_shape cfg ext r.
Proof.
  intros H. unfold try_body in H.
  bind_step H as u tr1 Hcall e.
  2:{ perform_step Hcall. eexists. split; [reflexivity|].
      apply bs_setup; [reflexivity | exact I]. }
  perform_step Hcall.
  bind_step H as u2 tr2 Hcall e.
  2:{ perform_step Hcall. rewrite <- app_assoc. eexists.
      split; [reflexivity|]. apply bs_setup; [reflexivity | exact I]. }
  perform_step Hcall.
  bind_step H as s tr3 Hloop e;
    apply setup_loop_sound in Hloop;
    destruct Hloop as (ext & -> & Hext & Hres).
  2:{ rewrite <- !app_assoc. eexists. split; [reflexivity|].
      apply bs_setup; [|exact I].
      rewrite !forallb_app, Hext. reflexivity. }
  destruct s as [res|[setp|]].
  - injection H as <- <-. rewrite <- !app_assoc. eexists.
    split; [reflexivity|]. apply bs_setup.
    + rewrite !forallb_app, Hext. reflexivity.
    + rewrite (Hres res eq_refl). exact I.
  - bind_step H as started tr4 Hstart e.
    2:{ perform_step Hstart. rewrite <- !app_assoc. eexists.
        split; [reflexivity|]. apply bs_setup; [|exact I].
        rewrite !forallb_app, Hext. reflexivity. }
    perform_step Hstart. destruct started; cbn [negb] in H.
    + apply test_movements_sound in H. destruct H as (ext2 & -> & Hs).
      rewrite <- !app_assoc. eexists. split; [reflexivity|].
      rewrite !app_assoc. apply bs_test with (setp := setp); [|exact Hs].
      rewrite !forallb_app, Hext. reflexivity.
    + injection H as <- <-. rewrite <- !app_assoc. eexists.
      split; [reflexivity|]. apply bs_setup; [|exact I].
      rewrite !forallb_app, Hext. reflexivity.
  - injection H as <- <-. rewrite <- !app_assoc. eexists.
    split; [reflexivity|]. apply bs_setup; [|exact I].
    rewrite !forallb_app, Hext. reflexivity.
Qed.

(** The [finally] clause always returns normally. *)
Lemma cleanup_sound fuel tr :
  exists teardown,
    cleanup env fuel tr = Some (Returned tt, tr ++ teardown) /\
    cleanup_shape teardown.
Proof.
  unfold cleanup, try_except, bind. rewrite do_call_eq.
  destruct (on_call env (length tr) SendPause) as [[]|e]; cbv beta iota.
  - rewrite do_call_eq, length_snoc.
    destruct (on_call env (S (length tr)) Disconnect) as [[]|e];
      rewrite <- app_assoc; eexists; (split; [reflexivity|]);
      apply cs_disconnect.
  - eexists. split; [reflexivity|]. apply cs_pause_raised.
Qed.

Lemma handlers_eq e fuel tr :
  handlers e fuel tr = Some (handled (Raised e), tr).
Proof.
  destruct e; reflexivity.
Qed.

Lemma try_except_handlers_eq (m : M RunResult) fuel tr rb trb :
  m fuel tr = Some (rb, trb) ->
  try_except m (handlers) fuel tr = Some (handled rb, trb).
Proof.
  intros H. unfold try_except. rewrite H.
  destruct rb as [a|e]; [reflexivity | apply handlers_eq].
Qed.

Lemma try_finally_cleanup_eq {A} (m : M A) fuel tr r tr1 :
  m fuel tr = Some (r, tr1) ->
  exists teardown,
    try_finally m (cleanup env) fuel tr = Some (r, tr1 ++ teardown) /\
    cleanup_shape teardown.
Proof.
  intros H. destruct (cleanup_sound fuel tr1) as (td & Hc & Hs).
  exists td. split; [|exact Hs].
  unfold try_finally. rewrite H, Hc. reflexivity.
Qed.

Lemma try_except_none {A} (m : M A) h fuel tr :
  m fuel tr = None -> try_except m h fuel tr = None.
Proof. intros H. unfold try_except. rewrite H. reflexivity. Qed.

Lemma try_finally_none {A} (m : M A) f fuel tr :
  m fuel tr = None -> try_finally m f fuel tr = None.
Proof. intros H. unfold try_finally. rewrite H. reflexivity. Qed.

Lemma run_sound fuel r tr :
  exec (run_safe_robot_test cfg env) fuel = Some (r, tr) ->
  run_shape cfg tr r.
Proof.
  unfold exec, run_safe_robot_test. intros H.
  bind_step H as response tr1 Hin e.
  2:{ perform_step Hin. apply rs_no_session; [reflexivity|].
      cbn. intros [H|[]]. discriminate H. }
  perform_step Hin.
  destruct (upper response =? "YES")%string eqn:Hyes; cbn [negb] in H.
  2:{ injection H as <- <-. apply rs_cancelled. exact Hyes. }
  bind_step H as u tr2 Hcall e.
  2:{ perform_step Hcall. apply rs_no_session; [reflexivity|].
      cbn. intros [H|[H|[]]]; discriminate H. }
  perform_step Hcall. destruct u.
  bind_step H as u tr3 Hcall e.
  2:{ perform_step Hcall. apply rs_no_session; [reflexivity|].
      cbn. intros [H|[H|[H|[]]]]; discriminate H. }
  perform_step Hcall. destruct u.
  bind_step H as u tr4 Hcall e.
  2:{ perform_step Hcall. apply rs_no_session; [reflexivity|].
      cbn. intros [H|[H|[H|[H|[]]]]]; discriminate H. }
  perform_step Hcall. destruct u.
  change (((([] ++ [EvInput (Returned response)]) ++
           [EvCall WriteConfig (Returned tt)]) ++
          [EvCall ParseConfig (Returned tt)]) ++
         [EvCall NewRTDE (Returned tt)]) with (prologue response) in H.
  assert (Hcases : try_body cfg env fuel (prologue response) = None \/
                   exists rb trb,
                     try_body cfg env fuel (prologue response) = Some (rb, trb))
    by (destruct (try_body cfg env fuel (prologue response)) as [[rb trb]|];
        eauto).
  destruct Hcases as [Hbody | (rb & trb & Hbody)].
  { rewrite try_finally_none in H; [discriminate H|].
    apply try_except_none. exact Hbody. }
  apply try_except_handlers_eq in Hbody as Hguard.
  destruct (try_finally_cleanup_eq _ _ _ _ _ Hguard) as (td & Hfin & Hcs).
  assert (Heq : Some (r, tr) = Some (handled rb, trb ++ td))
    by (rewrite <- H; exact Hfin).
  injection Heq as -> ->. clear H Hfin Hguard.
  apply try_body_sound in Hbody. destruct Hbody as (body & -> & Hshape).
  rewrite <- app_assoc. apply rs_session; assumption.
Qed.

End Shapes.

(** * Termination *)

Lemma returns_ret {A} (a : A) : returns (ret a).
Proof. intros tr. exists 0%nat, (Returned a), tr. reflexivity. Qed.

Lemma returns_raise {A} e : returns (raise (A := A) e).
Proof. intros tr. exists 0%nat, (Raised e), tr. reflexivity. Qed.

Lemma returns_lift {A} (r : outcome A) : returns (lift r).
Proof. intros tr. exists 0%nat, r, tr. reflexivity. Qed.

Lemma returns_perform {A} (ask : nat -> outcome A) log :
  returns (perform ask log).
Proof. intros tr. eexists 0%nat, _, _. reflexivity. Qed.

Lemma returns_time env : returns (time_time env).
Proof. intros tr. eexists 0%nat, _, _. reflexivity. Qed.

Lemma returns_bind {A B} (m : M A) (k : A -> M B) :
  returns m -> (forall a, returns (k a)) -> returns (bind m k).
Proof.
  intros Hm Hk tr. destruct (Hm tr) as (f0 & [a|e] & tr1 & H).
  - destruct (Hk a tr1) as (f1 & r & tr2 & H').
    exists (Nat.max f0 f1), r, tr2. intros fuel Hf.
    unfold bind. rewrite H by lia. apply H'. lia.
  - exists f0, (Raised e), tr1. intros fuel Hf.
    unfold bind. rewrite H by lia. reflexivity.
Qed.

Lemma returns_try_except {A} (m : M A) h :
  returns m -> (forall e, returns (h e)) -> returns (try_except m h).
Proof.
  intros Hm Hh tr. destruct (Hm tr) as (f0 & [a|e] & tr1 & H).
  - exists f0, (Returned a), tr1. intros fuel Hf.
    unfold try_except. rewrite H by lia. reflexivity.
  - destruct (Hh e tr1) as (f1 & r & tr2 & H').
    exists (Nat.max f0 f1), r, tr2. intros fuel Hf.
    unfold try_except. rewrite H by lia. apply H'. lia.
Qed.

Lemma returns_try_finally {A} (m : M A) f :
  returns m -> returns f -> returns (try_finally m f).
Proof.
  intros Hm Hf tr. destruct (Hm tr) as (f0 & r & tr1 & H).
  destruct (Hf tr1) as (f1 & r1 & tr2 & H').
  exists (Nat.max f0 f1).
  destruct r1 as [u|e]; eexists; eexists; intros fuel Hfuel;
    unfold try_finally; rewrite H by lia; rewrite H' by lia; reflexivity.
Qed.

Section Termination.

Variable cfg : Config.
Variable env : Env.

(** The loop of lines 95-108, one round unfolded. *)
Lemma wait_loop_0_eq start timeout fuel tr :
  wait_loop env 0 start timeout fuel tr =
  if Qltb (on_time env (length tr) - start) timeout then None
  else Some (Returned false, tr ++ [EvTime (on_time env (length tr))]).
Proof.
  cbn [wait_loop]. unfold bind. rewrite time_time_eq.
  destruct (Qltb _ timeout); reflexivity.
Qed.

Lemma wait_loop_S_eq k start timeout fuel tr :
  wait_loop env (S k) start timeout fuel tr =
  let tr1 := tr ++ [EvTime (on_time env (length tr))] in
  if Qltb (on_time env (length tr) - start) timeout then
    match on_receive env (length tr1) with
    | Returned (Some st) =>
        let tr2 := tr1 ++ [EvReceive (Returned (Some st))] in
        match velocity_check st with
        | Returned true => Some (Returned true, tr2)
        | Returned false =>
            match on_call env (length tr2) (Sleep (1 # 100)) with
            | Returned u =>
                wait_loop env k start timeout fuel
                  (tr2 ++ [EvCall (Sleep (1 # 100)) (Returned u)])
            | Raised e =>
                Some (Raised e, tr2 ++ [EvCall (Sleep (1 # 100)) (Raised e)])
            end
        | Raised e => Some (Raised e, tr2)
        end
    | Returned None => Some (Returned false, tr1 ++ [EvReceive (Returned None)])
    | Raised e => Some (Raised e, tr1 ++ [EvReceive (Raised e)])
    end
  else Some (Returned false, tr1).
Proof.
  cbn [wait_loop]. unfold bind at 1. rewrite time_time_eq. cbv zeta.
  destruct (Qltb _ timeout); [|reflexivity].
  unfold bind at 1, con_receive. rewrite perform_eq.
  destruct (on_receive env _) as [[st|]|e]; try reflexivity.
  unfold bind at 1, lift.
  destruct (velocity_check st) as [[|]|e]; try reflexivity.
  unfold bind at 1, do_call. rewrite perform_eq.
  destruct (on_call env _ _); reflexivity.
Qed.

(** The polling loop does not read the fuel of the monad. *)
Lemma wait_loop_fuel k : forall start timeout fuel fuel' tr,
  wait_loop env k start timeout fuel tr = wait_loop env k start timeout fuel' tr.
Proof.
  induction k as [|k IH]; intros start timeout fuel fuel' tr.
  - rewrite !wait_loop_0_eq. reflexivity.
  - rewrite !wait_loop_S_eq. cbv zeta.
    destruct (Qltb _ timeout); [|reflexivity].
    destruct (on_receive env _) as [[st|]|e]; try reflexivity.
    destruct (velocity_check st) as [[|]|e]; try reflexivity.
    destruct (on_call env _ _); [apply IH | reflexivity].
Qed.

(** More rounds allowed do not change a wait that ended. *)
Lemma wait_loop_more k : forall start timeout fuel tr x,
  wait_loop env k start timeout fuel tr = Some x ->
  wait_loop env (S k) start timeout fuel tr = Some x.
Proof.
  induction k as [|k IH]; intros start timeout fuel tr x H.
  - rewrite wait_loop_0_eq in H. rewrite wait_loop_S_eq. cbv zeta.
    destruct (Qltb _ timeout); [discriminate H | exact H].
  - rewrite wait_loop_S_eq in H. rewrite (wait_loop_S_eq (S k)).
    cbv zeta in *.
    destruct (Qltb _ timeout); [|exact H].
    destruct (on_receive env _) as [[st|]|e]; try exact H.
    destruct (velocity_check st) as [[|]|e]; try exact H.
    destruct (on_call env _ _); [apply IH; exact H | exact H].
Qed.

Lemma wait_loop_more_rounds k k' start timeout fuel tr x :
  (k <= k')%nat ->
  wait_loop env k start timeout fuel tr = Some x ->
  wait_loop env k' start timeout fuel tr = Some x.
Proof.
  intros Hle H. induction Hle as [|k' _ IH]; [exact H|].
  apply wait_loop_more. exact IH.
Qed.

(** Once the clock has passed the deadline, the loop ends. *)
Lemma wait_loop_ends start timeout fuel N :
  (forall n, (N <= n)%nat -> start + timeout <= on_time env n) ->
  forall k tr, (N <= length tr + 3 * k)%nat ->
  exists x, wait_loop env k start timeout fuel tr = Some x.
Proof.
  intros Hclock. induction k as [|k IH]; intros tr Hk.
  - rewrite wait_loop_0_eq.
    destruct (Qltb (on_time env (length tr) - start) timeout) eqn:E;
      [|eauto].
    apply Qltb_true in E. specialize (Hclock (length tr) ltac:(lia)). lra.
  - rewrite wait_loop_S_eq. cbv zeta.
    destruct (Qltb (on_time env (length tr) - start) timeout); [|eauto].
    destruct (on_receive env _) as [[st|]|e]; eauto.
    destruct (velocity_check st) as [[|]|e]; eauto.
    destruct (on_call env _ _); [|eauto].
    apply IH. rewrite !length_snoc. lia.
Qed.

Hypothesis clock : clock_passes env.

Lemma returns_wait timeout :
  returns (wait_for_move_completion env timeout).
Proof.
  intros tr.
  destruct (clock (on_time env (length tr) + timeout)) as (N & HN).
  destruct (wait_loop_ends (on_time env (length tr)) timeout 0%nat N HN N
              (tr ++ [EvTime (on_time env (length tr))]) ltac:(lia))
    as ([r tr'] & Hx).
  exists N, r, tr'. intros fuel Hfuel.
  unfold wait_for_move_completion, bind. rewrite time_time_eq.
  rewrite (wait_loop_fuel fuel _ _ fuel 0%nat).
  apply (wait_loop_more_rounds N fuel); assumption.
Qed.

Ltac returns_step :=
  first
    [ apply returns_ret
    | apply returns_raise
    | apply returns_lift
    | apply returns_perform
    | apply returns_time
    | apply returns_wait
    | apply returns_bind; [|intros ?]
    | apply returns_try_except; [|intros ?]
    | apply returns_try_finally
    | match goal with
      | |- returns (match ?x with _ => _ end) => destruct x
      | |- returns (if ?b then _ else _) => destruct b
      end ].

Lemma returns_setup_attempt last : returns (setup_attempt env last).
Proof.
  unfold setup_attempt, do_call, con_send_input_setup.
  repeat returns_step.
Qed.

Lemma returns_setup_loop n : returns (setup_loop env n).
Proof.
  induction n as [|n IH]; cbn [setup_loop]; [apply returns_ret|].
  apply returns_bind; [apply returns_setup_attempt|].
  intros [setp| |r]; [apply returns_ret | exact IH | apply returns_ret].
Qed.

Lemma returns_movement n setp target : returns (movement cfg env n setp target).
Proof.
  unfold movement, do_call, con_receive. repeat returns_step.
Qed.

Lemma returns_test_movements setp : returns (test_movements cfg env setp).
Proof.
  unfold test_movements, do_call, con_receive.
  apply returns_bind; [apply returns_perform|].
  intros [st|]; [|apply returns_ret].
  apply returns_bind; [apply returns_lift|]. intros target_pos_1.
  destruct (validate_joint_position (actual_q st) target_pos_1 _) as [[|] msg1];
    cbn [negb]; [|apply returns_ret].
  destruct (validate_joint_position target_pos_1 (actual_q st) _) as [[|] msg2];
    cbn [negb]; [|apply returns_ret].
  apply returns_bind; [apply returns_perform|]. intros _.
  apply returns_bind; [apply returns_movement|].
  intros [r|]; [apply returns_ret|].
  apply returns_bind; [apply returns_perform|]. intros _.
  apply returns_bind; [apply returns_movement|].
  intros [r|]; apply returns_ret.
Qed.

Lemma returns_try_body : returns (try_body cfg env).
Proof.
  unfold try_body, do_call, con_send_start.
  apply returns_bind; [apply returns_perform|]. intros _.
  apply returns_bind; [apply returns_perform|]. intros _.
  apply returns_bind; [apply returns_setup_loop|].
  intros [r|[setp|]]; try apply returns_ret.
  apply returns_bind; [apply returns_perform|].
  intros [|]; cbn [negb]; [apply returns_test_movements | apply returns_ret].
Qed.

Lemma returns_handlers e : returns (handlers e).
Proof.
  destruct e; cbn [handlers is_Exception];
    first [apply returns_ret | apply returns_raise].
Qed.

Lemma returns_cleanup : returns (cleanup env).
Proof.
  unfold cleanup, do_call. repeat returns_step.
Qed.

(** With a clock that passes every instant, the run returns. *)
Lemma run_returns : returns (run_safe_robot_test cfg env).
Proof.
  unfold run_safe_robot_test, input, do_call.
  apply returns_bind; [apply returns_perform|]. intros response.
  destruct (negb _); [apply returns_ret|].
  apply returns_bind; [apply returns_perform|]. intros _.
  apply returns_bind; [apply returns_perform|]. intros _.
  apply returns_bind; [apply returns_perform|]. intros _.
  apply returns_try_finally; [|apply returns_cleanup].
  apply returns_try_except; [apply returns_try_body | apply returns_handlers].
Qed.

End Termination.

(** * Reading the calls of a run *)

Lemma round_events_cons r rounds :
  round_events (r :: rounds) =
  [EvTime (fst r); EvReceive (Returned (Some (snd r)));
   EvCall (Sleep (1 # 100)) (Returned tt)] ++ round_events rounds.
Proof. reflexivity. Qed.

Lemma wait_shape_true start timeout ext :
  wait_shape start timeout ext (Returned true) <-> settled_wait start timeout ext.
Proof.
  split.
  - intros (rounds & tail & -> & Hok & Hexit).
    inversion Hexit; subst. exists rounds, t, st. auto.
  - intros (rounds & t & st & -> & Hok & Ht & Hv).
    exists rounds, [EvTime t; EvReceive (Returned (Some st))].
    repeat split; [exact Hok | apply we_stopped; assumption].
Qed.

Lemma setup_events_quiet l :
  forallb is_setup_event l = true ->
  sends l = [] /\ samples l = [] /\ count_calls SendPause l = 0%nat /\
  ~ In (EvCall NewRTDE (Returned tt)) l.
Proof.
  induction l as [|e l IH]; [intros _; repeat split; intros []|].
  cbn [forallb]. rewrite andb_true_iff. intros [He Hl].
  destruct (IH Hl) as (H1 & H2 & H3 & H4).
  destruct e as [| c r | | | |]; try discriminate He;
    [destruct c; try discriminate He|..];
    (repeat split; [exact H1 | exact H2 | exact H3 |]);
    intros [H|H]; try discriminate H; contradiction.
Qed.

Lemma round_events_quiet rounds :
  sends (round_events rounds) = [] /\
  count_calls SendPause (round_events rounds) = 0%nat.
Proof.
  induction rounds as [|r rounds [IH1 IH2]]; [split; reflexivity|].
  rewrite round_events_cons, sends_app, count_calls_app, IH1, IH2.
  split; reflexivity.
Qed.

Lemma wait_shape_quiet start timeout ext r :
  wait_shape start timeout ext r ->
  sends ext = [] /\ count_calls SendPause ext = 0%nat.
Proof.
  intros (rounds & tail & -> & _ & Hexit).
  destruct (round_events_quiet rounds) as [H1 H2].
  rewrite sends_app, count_calls_app, H1, H2.
  inversion Hexit; subst; split; reflexivity.
Qed.

Lemma movement_shape_calls timeout n setp registers ext r :
  movement_shape timeout n setp registers ext r ->
  sends ext = [registers] /\ count_calls SendPause ext = 0%nat.
Proof.
  intros H; inversion H; subst;
    try (apply wait_shape_quiet in H0; destruct H0 as [H1 H2]);
    cbn [sends]; rewrite ?sends_app, ?H1;
    change (count_calls SendPause (?a :: ?b :: ?l)) with (count_calls SendPause l);
    rewrite ?count_calls_app, ?H2; split; reflexivity.
Qed.

Lemma count_calls_cons c e tr :
  count_calls c (e :: tr) =
  ((if is_call c e then 1 else 0) + count_calls c tr)%nat.
Proof.
  unfold count_calls. cbn [filter]. destruct (is_call c e); reflexivity.
Qed.

Lemma test_shape_no_pause cfg setp ext r :
  test_shape cfg setp ext r -> count_calls SendPause ext = 0%nat.
Proof.
  intros H; inversion H; subst; try reflexivity;
    repeat match goal with
    | Hm : movement_shape _ _ _ _ _ _ |- _ =>
        apply movement_shape_calls in Hm; destruct Hm as [_ Hm]
    end;
    rewrite ?count_calls_cons, ?count_calls_app, ?count_calls_cons;
    cbn [is_call];
    repeat match goal with
    | Hc : count_calls SendPause _ = 0%nat |- _ => rewrite Hc; clear Hc
    end;
    reflexivity.
Qed.

Lemma body_shape_no_pause cfg ext r :
  body_shape cfg ext r -> count_calls SendPause ext = 0%nat.
Proof.
  intros H; inversion H; subst.
  - apply setup_events_quiet in H0. tauto.
  - apply setup_events_quiet in H0. apply test_shape_no_pause in H1.
    rewrite count_calls_app, H1. destruct H0 as (_ & _ & -> & _). reflexivity.
Qed.

Lemma cleanup_shape_calls teardown :
  cleanup_shape teardown ->
  count_calls SendPause teardown = 1%nat /\
  sends teardown = [] /\ samples teardown = [].
Proof.
  intros H; inversion H; subst; repeat split; reflexivity.
Qed.

Lemma prologue_events_no_pause pre :
  forallb is_prologue_event pre = true ->
  count_calls SendPause pre = 0%nat /\ count_calls Connect pre = 0%nat.
Proof.
  induction pre as [|e pre IH]; [intros _; split; reflexivity|].
  cbn [forallb]. rewrite andb_true_iff. intros [He Hpre].
  destruct (IH Hpre) as [H1 H2]. rewrite !count_calls_cons, H1, H2.
  destruct e as [| c r | | | |]; try discriminate He;
    [split; reflexivity|].
  destruct c; try discriminate He; split; reflexivity.
Qed.

(** C1, as the claim states it, fails: when the user does not confirm, the
    run returns at line 133, before the [try], and no teardown is invoked. *)
Lemma cancelled_run_has_no_teardown :
  exec (run_safe_robot_test source_config env_cancelled) 0 =
    Some (Returned Cancelled, [EvInput (Returned "no"%string)]) /\
  count_calls SendPause [EvInput (Returned "no"%string)] <> 1%nat /\
  count_calls Disconnect [EvInput (Returned "no"%string)] <> 1%nat.
Proof.
  repeat split; try reflexivity; vm_compute; discriminate.
Qed.

(** C1, amended.  The teardown of lines 320-328 never raises.  In every run
    that returns after the session object was created (line 167),
    [send_pause] is called exactly once, by the teardown, which makes the
    last calls of the run: the pause and, if the pause returned, the
    disconnect.  This holds whichever way the body of the [try] ended: by a
    return, by an exception, by [KeyboardInterrupt].  A run that ends
    before the session object exists (the user did not confirm, or writing
    or parsing the recipe file or creating the object raised) makes no
    teardown call and no connection.  With a clock that eventually passes
    every instant, the run does return. *)
Theorem teardown_once_per_session cfg env fuel :
  (forall tr, exists teardown,
     cleanup env fuel tr = Some (Returned tt, tr ++ teardown) /\
     cleanup_shape teardown)
  /\
  (forall r tr,
     exec (run_safe_robot_test cfg env) fuel = Some (r, tr) ->
     (In (EvCall NewRTDE (Returned tt)) tr ->
      count_calls SendPause tr = 1%nat /\
      exists before teardown,
        tr = before ++ teardown /\
        count_calls SendPause before = 0%nat /\
        cleanup_shape teardown)
     /\
     (~ In (EvCall NewRTDE (Returned tt)) tr ->
      count_calls SendPause tr = 0%nat /\
      count_calls Connect tr = 0%nat))
  /\
  (clock_passes env ->
   exists fuel0 r tr,
     forall fuel', (fuel0 <= fuel')%nat ->
       exec (run_safe_robot_test cfg env) fuel' = Some (r, tr)).
Proof.
  split; [intros tr; apply cleanup_sound|].
  split; [|intros Hclock; apply (run_returns cfg env Hclock [])].
  intros r tr H. apply run_sound in H. inversion H; subst.
  - split; [intros [Hin|[]]; discriminate Hin | intros _; split; reflexivity].
  - split; [intros Hin; contradiction|].
    intros _. apply prologue_events_no_pause. assumption.
  - split.
    2:{ intros Hnot. exfalso. apply Hnot.
        apply in_or_app. left. cbn. auto. }
    intros _.
    pose proof (body_shape_no_pause _ _ _ H1) as Hbody.
    destruct (cleanup_shape_calls _ H2) as (Htd & _ & _).
    split.
    + rewrite !count_calls_app, Hbody, Htd. reflexivity.
    + exists (prologue response ++ body), teardown.
      rewrite <- app_assoc. repeat split; [|exact H2].
      rewrite count_calls_app, Hbody. reflexivity.
Qed.

(** A clock that advances one second per call passes every instant. *)
Lemma clock_of_seconds_passes env :
  (forall n, on_time env n = inject_Z (Z.of_nat n)) -> clock_passes env.
Proof.
  intros Hclock t. exists (Z.to_nat (Qceiling t)). intros n Hn.
  rewrite Hclock. apply Qle_trans with (inject_Z (Qceiling t)).
  - apply Qle_ceiling.
  - rewrite <- Zle_Qle. lia.
Qed.

Lemma teardown_once_per_session_witness :
  (exists tr,
     exec (run_safe_robot_test source_config env_interrupted) 5 =
       Some (Returned EmergencyStop, tr) /\
     In (EvCall NewRTDE (Returned tt)) tr /\
     count_calls SendPause tr = 1%nat)
  /\
  (exists fuel0 r tr,
     forall fuel', (fuel0 <= fuel')%nat ->
       exec (run_safe_robot_test source_config env_interrupted) fuel'
       = Some (r, tr)).
Proof.
  destruct (teardown_once_per_session source_config env_interrupted 5)
    as (_ & H & Hreturns).
  split.
  - eexists. split; [vm_compute; reflexivity|]. split.
    + vm_compute. auto 10.
    + refine (proj1 (proj1 (H (Returned EmergencyStop) _ _) _)).
      * vm_compute. reflexivity.
      * vm_compute. auto 10.
  - apply Hreturns. apply clock_of_seconds_passes. intros n. reflexivity.
Defined.

(** * Validation and dispatch *)

Lemma movement_shape_result timeout n setp registers ext r :
  movement_shape timeout n setp registers ext r ->
  r = Returned None \/ r = Returned (Some (MovementTimeout n)) \/
  exists e, r = Raised e.
Proof.
  intros H; inversion H; subst; eauto.
Qed.

Lemma test_shape_targets cfg setp ext r :
  test_shape cfg setp ext r ->
  (forall n msg,
     r = Returned (ValidationFailed n msg) ->
     sends ext = [] /\
     exists st target_pos_1,
       hd_error (samples ext) = Some st /\
       add_at (actual_q st) 5 (SMALL_MOVEMENT_OFFSET cfg)
         = Returned target_pos_1 /\
       ((n = 1%nat /\
         validate_joint_position (actual_q st) target_pos_1
           (MAX_JOINT_MOVEMENT cfg) = (false, msg)) \/
        (n = 2%nat /\
         fst (validate_joint_position (actual_q st) target_pos_1
                (MAX_JOINT_MOVEMENT cfg)) = true /\
         validate_joint_position target_pos_1 (actual_q st)
           (MAX_JOINT_MOVEMENT cfg) = (false, msg))))
  /\
  (sends ext <> [] ->
   exists st target_pos_1 rest,
     ext = EvReceive (Returned (Some st)) :: rest /\
     add_at (actual_q st) 5 (SMALL_MOVEMENT_OFFSET cfg)
       = Returned target_pos_1 /\
     fst (validate_joint_position (actual_q st) target_pos_1
            (MAX_JOINT_MOVEMENT cfg)) = true /\
     fst (validate_joint_position target_pos_1 (actual_q st)
            (MAX_JOINT_MOVEMENT cfg)) = true /\
     (sends ext = [target_pos_1] \/
      sends ext = [target_pos_1; actual_q st])).
Proof.
  intros H; inversion H; subst.
  - split; [intros n msg Hr; discriminate Hr | intros Hs; contradiction Hs; reflexivity].
  - split; [intros n msg Hr; discriminate Hr | intros Hs; contradiction Hs; reflexivity].
  - split; [intros n msg Hr; discriminate Hr | intros Hs; contradiction Hs; reflexivity].
  - split; [|intros Hs; contradiction Hs; reflexivity].
    intros n msg0 Hr. injection Hr as <- <-. split; [reflexivity|].
    exists st, target_pos_1. repeat split; [exact H0 | left; auto].
  - split; [|intros Hs; contradiction Hs; reflexivity].
    intros n msg0 Hr. injection Hr as <- <-. split; [reflexivity|].
    exists st, target_pos_1. repeat split; [exact H0 | right].
    rewrite H1. auto.
  - split; [intros n msg Hr; discriminate Hr | intros Hs; contradiction Hs; reflexivity].
  - destruct (movement_shape_calls _ _ _ _ _ _ H3) as [Hsends _].
    split.
    + intros n msg Hr. subst r.
      destruct (movement_shape_result _ _ _ _ _ _ H3) as [-> | [-> | [e ->]]];
        discriminate H4.
    + intros _. exists st, target_pos_1. eexists.
      split; [reflexivity|]. rewrite H1, H2.
      repeat split; [exact H0|]. left. cbn [sends]. exact Hsends.
  - destruct (movement_shape_calls _ _ _ _ _ _ H3) as [Hsends _].
    split; [intros n msg Hr; discriminate Hr|].
    intros _. exists st, target_pos_1. eexists.
    split; [reflexivity|]. rewrite H1, H2.
    repeat split; [exact H0|]. left.
    cbn [sends]. rewrite sends_app, Hsends. reflexivity.
  - destruct (movement_shape_calls _ _ _ _ _ _ H3) as [Hsends1 _].
    destruct (movement_shape_calls _ _ _ _ _ _ H4) as [Hsends2 _].
    split.
    + intros n msg Hr.
      destruct (movement_shape_result _ _ _ _ _ _ H4) as [-> | [-> | [e ->]]];
        discriminate Hr.
    + intros _. exists st, target_pos_1. eexists.
      split; [reflexivity|]. rewrite H1, H2.
      repeat split; [exact H0|]. right.
      cbn [sends]. rewrite sends_app. cbn [sends]. rewrite Hsends1, Hsends2.
      reflexivity.
Qed.

Lemma handled_inv rb res :
  handled rb = Returned res ->
  rb = Returned res \/
  (res = EmergencyStop /\ rb = Raised KeyboardInterrupt) \/
  (exists e, res = Errored e /\ rb = Raised e).
Proof.
  destruct rb as [a|e]; cbn [handled].
  - intros H. left. exact H.
  - destruct e; cbn [is_Exception]; intros H; inversion H; subst; eauto.
Qed.

Lemma prologue_events_sends pre :
  forallb is_prologue_event pre = true -> sends pre = [].
Proof.
  induction pre as [|e pre IH]; [reflexivity|].
  cbn [forallb]. rewrite andb_true_iff. intros [He Hpre].
  destruct e as [| c r | | | |]; try discriminate He; cbn [sends];
    try (apply IH; exact Hpre).
  destruct c; try discriminate He; apply IH; exact Hpre.
Qed.

(** The sends and the samples of a run that had a session are those of
    lines 224-309. *)
Lemma session_trace_reads response pre ext teardown :
  forallb is_setup_event pre = true ->
  cleanup_shape teardown ->
  sends (prologue response ++ (pre ++ ext) ++ teardown) = sends ext /\
  samples (prologue response ++ (pre ++ ext) ++ teardown) = samples ext.
Proof.
  intros Hpre Htd.
  destruct (setup_events_quiet _ Hpre) as (P1 & P2 & _ & _).
  destruct (cleanup_shape_calls _ Htd) as (_ & T1 & T2).
  rewrite !sends_app, !samples_app, P1, P2, T1, T2.
  cbn [prologue sends samples app]. rewrite !app_nil_r. split; reflexivity.
Qed.

(** A run that ends with a validation failure has sent nothing; a run that
    sends a target has passed both validations. *)
Lemma validation_guards_sends cfg env fuel r tr :
  exec (run_safe_robot_test cfg env) fuel = Some (r, tr) ->
  (forall n msg,
     r = Returned (ValidationFailed n msg) ->
     sends tr = [] /\
     exists st target_pos_1,
       hd_error (samples tr) = Some st /\
       add_at (actual_q st) 5 (SMALL_MOVEMENT_OFFSET cfg)
         = Returned target_pos_1 /\
       ((n = 1%nat /\
         validate_joint_position (actual_q st) target_pos_1
           (MAX_JOINT_MOVEMENT cfg) = (false, msg)) \/
        (n = 2%nat /\
         fst (validate_joint_position (actual_q st) target_pos_1
                (MAX_JOINT_MOVEMENT cfg)) = true /\
         validate_joint_position target_pos_1 (actual_q st)
           (MAX_JOINT_MOVEMENT cfg) = (false, msg))))
  /\
  (sends tr <> [] ->
   exists st target_pos_1 before after,
     tr = before ++ EvReceive (Returned (Some st)) :: after /\
     sends before = [] /\
     samples before = [] /\
     add_at (actual_q st) 5 (SMALL_MOVEMENT_OFFSET cfg)
       = Returned target_pos_1 /\
     fst (validate_joint_position (actual_q st) target_pos_1
            (MAX_JOINT_MOVEMENT cfg)) = true /\
     fst (validate_joint_position target_pos_1 (actual_q st)
            (MAX_JOINT_MOVEMENT cfg)) = true /\
     (sends tr = [target_pos_1] \/
      sends tr = [target_pos_1; actual_q st])).
Proof.
  intros H. apply run_sound in H. inversion H; subst.
  - split; [intros n msg Hr; discriminate Hr|].
    intros Hs. contradiction Hs. reflexivity.
  - split; [intros n msg Hr; discriminate Hr|].
    intros Hs. contradiction Hs.
    apply prologue_events_sends. assumption.
  - inversion H1; subst.
    + (* the run ended while connecting, configuring or starting *)
      destruct (setup_events_quiet _ H3) as (P1 & _ & _ & _).
      destruct (cleanup_shape_calls _ H2) as (_ & T1 & _).
      assert (Hnone : sends (prologue response ++ body ++ teardown) = []).
      { rewrite !sends_app, P1, T1. reflexivity. }
      split.
      * intros n msg Hr. apply handled_inv in Hr.
        destruct Hr as [-> | [[Hr _] | (e & Hr & _)]]; try discriminate Hr.
        contradiction H4.
      * intros Hs. contradiction.
    + destruct (session_trace_reads response pre ext teardown H3 H2)
        as [Hsends Hsamples].
      destruct (test_shape_targets _ _ _ _ H4) as [Hfail Hsent].
      split.
      * intros n msg Hr. apply handled_inv in Hr.
        destruct Hr as [-> | [[Hr _] | (e & Hr & _)]]; try discriminate Hr.
        rewrite Hsends, Hsamples. apply Hfail. reflexivity.
      * rewrite Hsends. intros Hs.
        destruct (Hsent Hs) as (st & t1 & rest & -> & Hadd & V1 & V2 & Hcases).
        exists st, t1, (prologue response ++ pre), (rest ++ teardown).
        destruct (setup_events_quiet _ H3) as (P1 & P2 & _ & _).
        rewrite sends_app, samples_app, P1, P2.
        repeat split; try assumption.
        rewrite <- !app_assoc. reflexivity.
Qed.

Section Rejects.

Variable cfg : Config.
Variable env : Env.

Hypothesis calls_return : forall p c, on_call env p c = Returned tt.

(** Lines 170-222 when every call returns and the recipes are accepted. *)
Lemma try_body_reaches_test fuel tr setp :
  on_send_input_setup env (length tr + 3) = Returned (Some setp) ->
  on_send_start env (length tr + 4) = Returned true ->
  try_body cfg env fuel tr =
  test_movements cfg env setp fuel
    (tr ++ [EvCall Connect (Returned tt);
            EvCall GetControllerVersion (Returned tt);
            EvCall SendOutputSetup (Returned tt);
            EvSendInputSetup (Returned (Some setp));
            EvSendStart (Returned true)]).
Proof.
  intros Hsetup Hstart.
  set (tr2 := (tr ++ [EvCall Connect (Returned tt)]) ++
              [EvCall GetControllerVersion (Returned tt)]).
  assert (Hlen2 : length tr2 = (length tr + 2)%nat)
    by (unfold tr2; rewrite !length_snoc; lia).
  assert (Hanswer : configure_answer env (length tr2) = Returned (Some setp)).
  { unfold configure_answer. rewrite calls_return, Hlen2.
    replace (S (length tr + 2)) with (length tr + 3)%nat by lia.
    exact Hsetup. }
  assert (Hevents : configure_events env (length tr2) =
                    [EvCall SendOutputSetup (Returned tt);
                     EvSendInputSetup (Returned (Some setp))]).
  { unfold configure_events. rewrite calls_return, Hlen2.
    replace (S (length tr + 2)) with (length tr + 3)%nat by lia.
    rewrite Hsetup. reflexivity. }
  unfold try_body.
  unfold bind at 1. rewrite do_call_eq, calls_return.
  unfold bind at 1. rewrite do_call_eq, calls_return. fold tr2.
  unfold bind at 1. unfold max_retries. cbn [setup_loop].
  unfold bind at 1.
  rewrite (setup_attempt_returned env _ fuel tr2 (Some setp) Hanswer).
  unfold ret at 1.
  unfold bind at 1, con_send_start. rewrite perform_eq.
  rewrite length_app, Hevents, Hlen2. cbn [length].
  replace (length tr + 2 + 2)%nat with (length tr + 4)%nat by lia.
  rewrite Hstart. cbn [negb]. unfold tr2.
  rewrite <- !app_assoc. reflexivity.
Qed.

(** Lines 229-260 when a validation fails. *)
Lemma test_movements_rejects setp fuel tr st target_pos_1 :
  on_receive env (length tr) = Returned (Some st) ->
  add_at (actual_q st) 5 (SMALL_MOVEMENT_OFFSET cfg) = Returned target_pos_1 ->
  fst (validate_joint_position (actual_q st) target_pos_1
         (MAX_JOINT_MOVEMENT cfg)) = false \/
  fst (validate_joint_position target_pos_1 (actual_q st)
         (MAX_JOINT_MOVEMENT cfg)) = false ->
  exists n msg,
    test_movements cfg env setp fuel tr =
    Some (Returned (ValidationFailed n msg),
          tr ++ [EvReceive (Returned (Some st))]).
Proof.
  intros Hrecv Hadd Hfail. unfold test_movements.
  unfold bind at 1, con_receive. rewrite perform_eq, Hrecv.
  unfold bind at 1, lift. rewrite Hadd. cbv zeta.
  destruct (validate_joint_position (actual_q st) target_pos_1
              (MAX_JOINT_MOVEMENT cfg)) as [[|] msg1]; cbn [negb].
  - destruct (validate_joint_position target_pos_1 (actual_q st)
                (MAX_JOINT_MOVEMENT cfg)) as [[|] msg2]; cbn [negb].
    + destruct Hfail as [Hfail | Hfail]; discriminate Hfail.
    + exists 2%nat, msg2. reflexivity.
  - exists 1%nat, msg1. reflexivity.
Qed.

Lemma run_rejects fuel response setp st target_pos_1 :
  on_input env 0 = Returned response ->
  (upper response =? "YES")%string = true ->
  on_send_input_setup env 7 = Returned (Some setp) ->
  on_send_start env 8 = Returned true ->
  on_receive env 9 = Returned (Some st) ->
  add_at (actual_q st) 5 (SMALL_MOVEMENT_OFFSET cfg) = Returned target_pos_1 ->
  fst (validate_joint_position (actual_q st) target_pos_1
         (MAX_JOINT_MOVEMENT cfg)) = false \/
  fst (validate_joint_position target_pos_1 (actual_q st)
         (MAX_JOINT_MOVEMENT cfg)) = false ->
  exists n msg tr,
    exec (run_safe_robot_test cfg env) fuel =
      Some (Returned (ValidationFailed n msg), tr).
Proof.
  intros Hin Hyes Hsetup Hstart Hrecv Hadd Hfail.
  destruct (test_movements_rejects setp fuel
              (prologue response ++
               [EvCall Connect (Returned tt);
                EvCall GetControllerVersion (Returned tt);
                EvCall SendOutputSetup (Returned tt);
                EvSendInputSetup (Returned (Some setp));
                EvSendStart (Returned true)]) st target_pos_1 Hrecv Hadd Hfail)
    as (n & msg & Htest).
  rewrite <- (try_body_reaches_test fuel (prologue response) setp Hsetup Hstart)
    in Htest.
  apply try_except_handlers_eq in Htest.
  destruct (try_finally_cleanup_eq env _ _ _ _ _ Htest) as (td & Hfin & _).
  exists n, msg. eexists.
  unfold exec, run_safe_robot_test.
  unfold bind at 1, input. rewrite perform_eq. cbn [length]. rewrite Hin.
  rewrite Hyes. cbn [negb].
  unfold bind at 1. rewrite do_call_eq, calls_return.
  unfold bind at 1. rewrite do_call_eq, calls_return.
  unfold bind at 1. rewrite do_call_eq, calls_return.
  exact Hfin.
Qed.

End Rejects.

(** C4.  The first target is validated against the position read at the
    start, the second against the first target, both before anything is
    sent: a run that sends a target at all has passed both validations,
    and sends the first target, then at most the second.  A run that ends
    with a validation failure has sent nothing.  And when the user
    confirms, no call raises, the recipes are configured and one of the two
    validations fails, the run does end with that validation failure. *)
Theorem targets_validated_before_dispatch cfg env fuel :
  (forall r tr,
     exec (run_safe_robot_test cfg env) fuel = Some (r, tr) ->
     (forall n msg,
        r = Returned (ValidationFailed n msg) ->
        sends tr = [] /\
        exists st target_pos_1,
          hd_error (samples tr) = Some st /\
          add_at (actual_q st) 5 (SMALL_MOVEMENT_OFFSET cfg)
            = Returned target_pos_1 /\
          ((n = 1%nat /\
            validate_joint_position (actual_q st) target_pos_1
              (MAX_JOINT_MOVEMENT cfg) = (false, msg)) \/
           (n = 2%nat /\
            fst (validate_joint_position (actual_q st) target_pos_1
                   (MAX_JOINT_MOVEMENT cfg)) = true /\
            validate_joint_position target_pos_1 (actual_q st)
              (MAX_JOINT_MOVEMENT cfg) = (false, msg))))
     /\
     (sends tr <> [] ->
      exists st target_pos_1 before after,
        tr = before ++ EvReceive (Returned (Some st)) :: after /\
        sends before = [] /\
        samples before = [] /\
        add_at (actual_q st) 5 (SMALL_MOVEMENT_OFFSET cfg)
          = Returned target_pos_1 /\
        fst (validate_joint_position (actual_q st) target_pos_1
               (MAX_JOINT_MOVEMENT cfg)) = true /\
        fst (validate_joint_position target_pos_1 (actual_q st)
               (MAX_JOINT_MOVEMENT cfg)) = true /\
        (sends tr = [target_pos_1] \/
         sends tr = [target_pos_1; actual_q st])))
  /\
  (forall response setp st target_pos_1,
     on_input env 0 = Returned response ->
     (upper response =? "YES")%string = true ->
     (forall p c, on_call env p c = Returned tt) ->
     on_send_input_setup env 7 = Returned (Some setp) ->
     on_send_start env 8 = Returned true ->
     on_receive env 9 = Returned (Some st) ->
     add_at (actual_q st) 5 (SMALL_MOVEMENT_OFFSET cfg)
       = Returned target_pos_1 ->
     fst (validate_joint_position (actual_q st) target_pos_1
            (MAX_JOINT_MOVEMENT cfg)) = false \/
     fst (validate_joint_position target_pos_1 (actual_q st)
            (MAX_JOINT_MOVEMENT cfg)) = false ->
     exists n msg tr,
       exec (run_safe_robot_test cfg env) fuel =
         Some (Returned (ValidationFailed n msg), tr) /\
       sends tr = []).
Proof.
  split.
  - intros r tr. apply validation_guards_sends.
  - intros response setp st target_pos_1 Hin Hyes Hcalls Hsetup Hstart Hrecv
      Hadd Hfail.
    destruct (run_rejects cfg env Hcalls fuel response setp st target_pos_1
                Hin Hyes Hsetup Hstart Hrecv Hadd Hfail) as (n & msg & tr & Hrun).
    exists n, msg, tr. split; [exact Hrun|].
    destruct (validation_guards_sends _ _ _ _ _ Hrun) as [Hnone _].
    apply (Hnone n msg eq_refl).
Qed.

Lemma targets_validated_before_dispatch_witness :
  exists n msg tr,
    exec (run_safe_robot_test strict_config env_ok) 5 =
      Some (Returned (ValidationFailed n msg), tr) /\
    sends tr = [].
Proof.
  destruct (targets_validated_before_dispatch strict_config env_ok 5)
    as [_ H].
  apply (H "yes"%string {| recipe_id := 1 |} (still home) home_offset);
    try reflexivity.
  left. reflexivity.
Defined.

(** With the offset of 0.03 and a bound of 0.02 the first validation fails
    at joint 5. *)
Example strict_setting_rejects_first_target :
  exists tr,
    exec (run_safe_robot_test strict_config env_ok) 5 =
      Some (Returned (ValidationFailed 1
                        (MovementTooLarge 5 (3 # 100) (2 # 100))), tr) /\
    sends tr = [].
Proof.
  eexists. split; vm_compute; reflexivity.
Qed.

(** * The two movements *)

Lemma movement_shape_completed timeout n setp registers ext :
  movement_shape timeout n setp registers ext (Returned None) ->
  completed_movement timeout setp registers ext.
Proof.
  intros H; inversion H; subst.
  exists start, ext0, st. split; [reflexivity|].
  apply wait_shape_true. assumption.
Qed.

Lemma movement_shape_head timeout n setp registers ext r :
  movement_shape timeout n setp registers ext r ->
  exists answer rest,
    ext = EvCall (Send setp registers) answer :: rest /\ sends rest = [].
Proof.
  intros H; inversion H; subst;
    try (apply wait_shape_quiet in H0; destruct H0 as [H0 _]);
    eexists; eexists; (split; [reflexivity|]);
    cbn [sends]; rewrite ?sends_app, ?H0; reflexivity.
Qed.

(** Lines 224-309, for C7 and C9: the second target is sent only after the
    first movement was completed, and the program reaches line 307 only
    after both movements were completed. *)
Lemma test_shape_movements cfg setp ext r :
  test_shape cfg setp ext r ->
  (length (sends ext) = 2%nat ->
   exists st target_pos_1 m1 answer after,
     ext = EvReceive (Returned (Some st)) :: EvCall (Sleep 2) (Returned tt) ::
           m1 ++ EvCall (Sleep 1) (Returned tt) ::
           EvCall (Send setp (actual_q st)) answer :: after /\
     add_at (actual_q st) 5 (SMALL_MOVEMENT_OFFSET cfg)
       = Returned target_pos_1 /\
     completed_movement (MOVEMENT_TIMEOUT cfg) setp target_pos_1 m1 /\
     sends after = [])
  /\
  (r = Returned Completed ->
   exists st target_pos_1 m1 m2,
     ext = EvReceive (Returned (Some st)) :: EvCall (Sleep 2) (Returned tt) ::
           m1 ++ EvCall (Sleep 1) (Returned tt) :: m2 /\
     add_at (actual_q st) 5 (SMALL_MOVEMENT_OFFSET cfg)
       = Returned target_pos_1 /\
     completed_movement (MOVEMENT_TIMEOUT cfg) setp target_pos_1 m1 /\
     completed_movement (MOVEMENT_TIMEOUT cfg) setp (actual_q st) m2).
Proof.
  intros H; inversion H; subst;
    try (split; [intros Hs; discriminate Hs | intros Hr; discriminate Hr]).
  - (* the first movement ended the run *)
    destruct (movement_shape_calls _ _ _ _ _ _ H3) as [Hsends _].
    split.
    + cbn [sends]. rewrite Hsends. intros Hs. discriminate Hs.
    + intros ->.
      destruct (movement_shape_result _ _ _ _ _ _ H3) as [-> | [-> | [e ->]]];
        discriminate H4.
  - (* the pause between the movements was interrupted *)
    destruct (movement_shape_calls _ _ _ _ _ _ H3) as [Hsends _].
    split; [|intros Hr; discriminate Hr].
    cbn [sends]. rewrite sends_app, Hsends. intros Hs. discriminate Hs.
  - (* the second movement began *)
    pose proof (movement_shape_completed _ _ _ _ _ H3) as Hm1.
    split.
    + intros _.
      destruct (movement_shape_head _ _ _ _ _ _ H4)
        as (answer & after & -> & Hafter).
      exists st, target_pos_1, ext1, answer, after. auto.
    + intros Hr.
      destruct (movement_shape_result _ _ _ _ _ _ H4) as [-> | [-> | [e ->]]];
        try discriminate Hr.
      exists st, target_pos_1, ext1, ext2.
      repeat split; try assumption.
      apply (movement_shape_completed _ _ _ _ _ H4).
Qed.

Section Forward.

Variable cfg : Config.
Variable env : Env.

(** Lines 278-281 and 297-300: after a wait that returned [True], one more
    sample is requested, and [state.actual_q] is read from the answer. *)
Lemma movement_after_settled n setp target fuel tr tr2 :
  length target = 6%nat ->
  on_call env (length tr) (Send setp target) = Returned tt ->
  wait_for_move_completion env (MOVEMENT_TIMEOUT cfg) fuel
    (tr ++ [EvCall (Send setp target) (Returned tt)])
    = Some (Returned true, tr2) ->
  movement cfg env n setp target fuel tr =
  Some (match on_receive env (length tr2) with
        | Returned (Some _) => Returned None
        | Returned None => Raised AttributeError
        | Raised e => Raised e
        end,
        tr2 ++ [EvReceive (on_receive env (length tr2))]).
Proof.
  intros Hlen Hsend Hwait. unfold movement.
  unfold bind at 1, lift. rewrite (read_registers_six target Hlen).
  unfold bind at 1. rewrite do_call_eq, Hsend.
  unfold bind at 1. rewrite Hwait.
  unfold bind at 1, con_receive. rewrite perform_eq.
  destruct (on_receive env (length tr2)) as [[st|]|e]; reflexivity.
Qed.

Lemma wait_settles timeout fuel tr n st :
  (forall i, (i < n)%nat ->
     round_in_motion env (on_time env (length tr)) timeout
       (S (length tr) + 3 * i)) ->
  Qltb (on_time env (S (length tr) + 3 * n) - on_time env (length tr)) timeout
    = true ->
  on_receive env (S (S (length tr) + 3 * n)) = Returned (Some st) ->
  velocity_check st = Returned true ->
  (n < fuel)%nat ->
  exists calls,
    wait_for_move_completion env timeout fuel tr =
      Some (Returned true, tr ++ EvTime (on_time env (length tr)) :: calls) /\
    settled_wait (on_time env (length tr)) timeout calls /\
    length calls = (3 * n + 2)%nat.
Proof.
  intros Hrounds Ht Hr Hv Hfuel.
  destruct (wait_for_move_completion_rounds env timeout fuel tr n Hrounds)
    as (rounds & Hlen & Hok & Hpos & Heq).
  exists (round_events rounds ++
          [EvTime (on_time env (S (length tr) + 3 * n));
           EvReceive (Returned (Some st))]).
  repeat split.
  - rewrite (Heq (S (fuel - S n))) by lia.
    rewrite (wait_loop_stopped env _ _ _ _ _ st); try rewrite Hpos;
      try assumption.
    rewrite <- app_assoc. reflexivity.
  - exists rounds, (on_time env (S (length tr) + 3 * n)), st. auto.
  - rewrite length_app, length_round_events, Hlen. cbn [length]. lia.
Qed.

Lemma movement_settles k setp target fuel tr n :
  length target = 6%nat ->
  on_call env (length tr) (Send setp target) = Returned tt ->
  settles_after env (MOVEMENT_TIMEOUT cfg) (length tr) n ->
  (n < fuel)%nat ->
  exists calls,
    movement cfg env k setp target fuel tr = Some (Returned None, tr ++ calls) /\
    completed_movement (MOVEMENT_TIMEOUT cfg) setp target calls /\
    length calls = (3 * n + 5)%nat.
Proof.
  intros Hlen Hsend (Hrounds & Ht & (st & Hr & Hv) & (st2 & Hr2)) Hfuel.
  destruct (wait_settles (MOVEMENT_TIMEOUT cfg) fuel
              (tr ++ [EvCall (Send setp target) (Returned tt)]) n st)
    as (calls & Hwait & Hsettled & Hcalls);
    rewrite ?length_snoc; try assumption.
  rewrite length_snoc in Hwait, Hsettled.
  rewrite (movement_after_settled k setp target fuel tr _ Hlen Hsend Hwait).
  assert (Hpos : length
            ((tr ++ [EvCall (Send setp target) (Returned tt)]) ++
             EvTime (on_time env (S (length tr))) :: calls)
          = S (S (S (S (length tr)) + 3 * n))).
  { rewrite !length_app. cbn [length]. rewrite Hcalls. lia. }
  rewrite Hpos, Hr2.
  exists (EvCall (Send setp target) (Returned tt) ::
          EvTime (on_time env (S (length tr))) ::
          calls ++ [EvReceive (Returned (Some st2))]).
  repeat split.
  - rewrite <- !app_assoc. reflexivity.
  - exists (on_time env (S (length tr))), calls, st2. auto.
  - cbn [length]. rewrite length_app, Hcalls. cbn [length]. lia.
Qed.

End Forward.

Section Completes.

Variable cfg : Config.
Variable env : Env.

Hypothesis calls_return : forall p c, on_call env p c = Returned tt.

Lemma test_movements_completes setp fuel tr st target_pos_1 n1 n2 :
  on_receive env (length tr) = Returned (Some st) ->
  add_at (actual_q st) 5 (SMALL_MOVEMENT_OFFSET cfg) = Returned target_pos_1 ->
  fst (validate_joint_position (actual_q st) target_pos_1
         (MAX_JOINT_MOVEMENT cfg)) = true ->
  fst (validate_joint_position target_pos_1 (actual_q st)
         (MAX_JOINT_MOVEMENT cfg)) = true ->
  settles_after env (MOVEMENT_TIMEOUT cfg) (length tr + 2) n1 ->
  settles_after env (MOVEMENT_TIMEOUT cfg) (length tr + 3 * n1 + 8) n2 ->
  (n1 < fuel)%nat -> (n2 < fuel)%nat ->
  exists ext,
    test_movements cfg env setp fuel tr = Some (Returned Completed, tr ++ ext) /\
    sends ext = [target_pos_1; actual_q st].
Proof.
  intros Hrecv Hadd V1 V2 Hm1 Hm2 Hf1 Hf2.
  destruct (validate_joint_position (actual_q st) target_pos_1
              (MAX_JOINT_MOVEMENT cfg)) as [ok1 msg1] eqn:E1.
  destruct (validate_joint_position target_pos_1 (actual_q st)
              (MAX_JOINT_MOVEMENT cfg)) as [ok2 msg2] eqn:E2.
  cbn [fst] in V1, V2. subst ok1 ok2.
  destruct (validate_accepts_six _ _ _ _ E1) as [Hlen0 Hlen1].
  set (tr2 := (tr ++ [EvReceive (Returned (Some st))]) ++
              [EvCall (Sleep 2) (Returned tt)]).
  assert (Hlen2 : length tr2 = (length tr + 2)%nat)
    by (unfold tr2; rewrite !length_snoc; lia).
  destruct (movement_settles cfg env 1%nat setp target_pos_1 fuel tr2 n1)
    as (m1 & Hmove1 & Hc1 & Hl1);
    try rewrite Hlen2; try assumption; try apply calls_return.
  set (tr3 := (tr2 ++ m1) ++ [EvCall (Sleep 1) (Returned tt)]).
  assert (Hlen3 : length tr3 = (length tr + 3 * n1 + 8)%nat)
    by (unfold tr3; rewrite length_snoc, length_app, Hlen2, Hl1; lia).
  destruct (movement_settles cfg env 2%nat setp (actual_q st) fuel tr3 n2)
    as (m2 & Hmove2 & Hc2 & Hl2);
    try rewrite Hlen3; try assumption; try apply calls_return.
  exists ([EvReceive (Returned (Some st)); EvCall (Sleep 2) (Returned tt)] ++
          m1 ++ [EvCall (Sleep 1) (Returned tt)] ++ m2).
  split.
  - unfold test_movements.
    unfold bind at 1, con_receive. rewrite perform_eq, Hrecv.
    unfold bind at 1, lift. rewrite Hadd. cbv zeta. rewrite E1. cbn [negb].
    rewrite E2. cbn [negb].
    unfold bind at 1. rewrite do_call_eq, calls_return. fold tr2.
    unfold bind at 1. rewrite Hmove1.
    unfold bind at 1. rewrite do_call_eq, calls_return. fold tr3.
    unfold bind at 1. rewrite Hmove2.
    unfold ret, tr3, tr2. rewrite <- !app_assoc. reflexivity.
  - destruct Hc1 as (s1 & w1 & b1 & -> & (r1 & u1 & a1 & -> & _)).
    destruct Hc2 as (s2 & w2 & b2 & -> & (r2 & u2 & a2 & -> & _)).
    cbn [app sends]. rewrite !sends_app. cbn [sends].
    rewrite !sends_app.
    rewrite (proj1 (round_events_quiet r1)), (proj1 (round_events_quiet r2)).
    reflexivity.
Qed.

Lemma try_body_completes fuel tr setp st target_pos_1 n1 n2 :
  on_send_input_setup env (length tr + 3) = Returned (Some setp) ->
  on_send_start env (length tr + 4) = Returned true ->
  on_receive env (length tr + 5) = Returned (Some st) ->
  add_at (actual_q st) 5 (SMALL_MOVEMENT_OFFSET cfg) = Returned target_pos_1 ->
  fst (validate_joint_position (actual_q st) target_pos_1
         (MAX_JOINT_MOVEMENT cfg)) = true ->
  fst (validate_joint_position target_pos_1 (actual_q st)
         (MAX_JOINT_MOVEMENT cfg)) = true ->
  settles_after env (MOVEMENT_TIMEOUT cfg) (length tr + 7) n1 ->
  settles_after env (MOVEMENT_TIMEOUT cfg) (length tr + 3 * n1 + 13) n2 ->
  (n1 < fuel)%nat -> (n2 < fuel)%nat ->
  exists ext,
    try_body cfg env fuel tr = Some (Returned Completed, tr ++ ext) /\
    sends ext = [target_pos_1; actual_q st].
Proof.
  intros Hsetup Hstart Hrecv Hadd V1 V2 Hm1 Hm2 Hf1 Hf2.
  rewrite (try_body_reaches_test cfg env calls_return fuel tr setp Hsetup Hstart).
  set (tr5 := tr ++ [EvCall Connect (Returned tt);
                     EvCall GetControllerVersion (Returned tt);
                     EvCall SendOutputSetup (Returned tt);
                     EvSendInputSetup (Returned (Some setp));
                     EvSendStart (Returned true)]).
  assert (Hlen5 : length tr5 = (length tr + 5)%nat)
    by (unfold tr5; rewrite length_app; reflexivity).
  destruct (test_movements_completes setp fuel tr5 st target_pos_1 n1 n2)
    as (ext & Htest & Hsends); try rewrite Hlen5; try assumption.
  { replace (length tr + 5 + 2)%nat with (length tr + 7)%nat by lia.
    exact Hm1. }
  { replace (length tr + 5 + 3 * n1 + 8)%nat
      with (length tr + 3 * n1 + 13)%nat by lia.
    exact Hm2. }
  exists ([EvCall Connect (Returned tt);
           EvCall GetControllerVersion (Returned tt);
           EvCall SendOutputSetup (Returned tt);
           EvSendInputSetup (Returned (Some setp));
           EvSendStart (Returned true)] ++ ext).
  split.
  - rewrite Htest. unfold tr5. rewrite <- app_assoc. reflexivity.
  - rewrite sends_app. exact Hsends.
Qed.

End Completes.

Lemma run_completes cfg env fuel response setp st target_pos_1 n1 n2 :
  on_input env 0 = Returned response ->
  (upper response =? "YES")%string = true ->
  (forall p c, on_call env p c = Returned tt) ->
  on_send_input_setup env 7 = Returned (Some setp) ->
  on_send_start env 8 = Returned true ->
  on_receive env 9 = Returned (Some st) ->
  add_at (actual_q st) 5 (SMALL_MOVEMENT_OFFSET cfg) = Returned target_pos_1 ->
  fst (validate_joint_position (actual_q st) target_pos_1
         (MAX_JOINT_MOVEMENT cfg)) = true ->
  fst (validate_joint_position target_pos_1 (actual_q st)
         (MAX_JOINT_MOVEMENT cfg)) = true ->
  settles_after env (MOVEMENT_TIMEOUT cfg) 11 n1 ->
  settles_after env (MOVEMENT_TIMEOUT cfg) (3 * n1 + 17) n2 ->
  (n1 < fuel)%nat -> (n2 < fuel)%nat ->
  exists tr,
    exec (run_safe_robot_test cfg env) fuel = Some (Returned Completed, tr) /\
    sends tr = [target_pos_1; actual_q st].
Proof.
  intros Hin Hyes Hcalls Hsetup Hstart Hrecv Hadd V1 V2 Hm1 Hm2 Hf1 Hf2.
  destruct (try_body_completes cfg env Hcalls fuel (prologue response)
              setp st target_pos_1 n1 n2)
    as (ext & Hbody & Hsends); try assumption.
  { replace (length (prologue response) + 3 * n1 + 13)%nat
      with (3 * n1 + 17)%nat by (cbn [prologue length]; lia).
    exact Hm2. }
  apply try_except_handlers_eq in Hbody.
  destruct (try_finally_cleanup_eq env _ _ _ _ _ Hbody) as (td & Hfin & Hcs).
  exists ((prologue response ++ ext) ++ td). split.
  - unfold exec, run_safe_robot_test.
    unfold bind at 1, input. rewrite perform_eq. cbn [length]. rewrite Hin.
    rewrite Hyes. cbn [negb].
    unfold bind at 1. rewrite do_call_eq, Hcalls.
    unfold bind at 1. rewrite do_call_eq, Hcalls.
    unfold bind at 1. rewrite do_call_eq, Hcalls.
    exact Hfin.
  - destruct (cleanup_shape_calls _ Hcs) as (_ & T1 & _).
    rewrite !sends_app, T1, Hsends. reflexivity.
Qed.

Lemma completed_run_anatomy cfg env fuel tr :
  exec (run_safe_robot_test cfg env) fuel = Some (Returned Completed, tr) ->
  exists response pre setp st target_pos_1 m1 m2 teardown,
    tr = prologue response ++ pre ++
         EvReceive (Returned (Some st)) :: EvCall (Sleep 2) (Returned tt) ::
         m1 ++ EvCall (Sleep 1) (Returned tt) :: m2 ++ teardown /\
    forallb is_setup_event pre = true /\
    add_at (actual_q st) 5 (SMALL_MOVEMENT_OFFSET cfg)
      = Returned target_pos_1 /\
    completed_movement (MOVEMENT_TIMEOUT cfg) setp target_pos_1 m1 /\
    completed_movement (MOVEMENT_TIMEOUT cfg) setp (actual_q st) m2 /\
    cleanup_shape teardown.
Proof.
  intros H. apply run_sound in H.
  inversion H as [ | | response body rb teardown Hyes Hbody Htd Htr Hr]; subst.
  apply handled_inv in Hr.
  destruct Hr as [-> | [[Hr _] | (e & Hr & _)]]; try discriminate Hr.
  inversion Hbody as [ext r Hext Hexit | pre setp ext r Hpre Htest]; subst.
  - contradiction Hexit.
  - destruct (test_shape_movements _ _ _ _ Htest) as [_ Hdone].
    destruct (Hdone eq_refl) as (st & t1 & m1 & m2 & -> & Hadd & Hc1 & Hc2).
    exists response, pre, setp, st, t1, m1, m2, teardown.
    repeat split; try assumption.
    rewrite <- !app_assoc. cbn [app]. rewrite <- !app_assoc. reflexivity.
Qed.

(** * Claims about the two movements *)

(** A run either sends nothing or got as far as lines 224-309. *)
Lemma run_session_anatomy cfg env fuel r tr :
  exec (run_safe_robot_test cfg env) fuel = Some (r, tr) ->
  sends tr = [] \/
  exists response pre setp ext rb teardown,
    tr = prologue response ++ (pre ++ ext) ++ teardown /\
    forallb is_setup_event pre = true /\
    test_shape cfg setp ext rb /\
    r = handled rb /\
    cleanup_shape teardown.
Proof.
  intros H. apply run_sound in H.
  inversion H as [ | pre e Hpre _
                 | response body rb teardown Hyes Hbody Htd Htr Hr]; subst.
  - left. reflexivity.
  - left. apply prologue_events_sends. exact Hpre.
  - inversion Hbody as [ext r Hext Hexit | pre setp ext r Hpre Htest]; subst.
    + left. destruct (setup_events_quiet _ Hext) as (P1 & _ & _ & _).
      destruct (cleanup_shape_calls _ Htd) as (_ & T1 & _).
      rewrite !sends_app, P1, T1. reflexivity.
    + right. exists response, pre, setp, ext, rb, teardown. auto.
Qed.

(** C7, as the claim states it, fails.  With the settings of the source and
    an arm at [home], both targets validate; yet when the arm never comes
    to rest the run sends one target, not two; and when both movements
    settle but the request that follows the second wait yields no sample,
    the run does not report success. *)
Lemma one_send_when_first_movement_times_out :
  (fst (validate_joint_position home home_offset (5 # 100)) = true /\
   fst (validate_joint_position home_offset home (5 # 100)) = true)
  /\
  (exists tr,
     exec (run_safe_robot_test source_config env_moving) 5 =
       Some (Returned (MovementTimeout 1), tr) /\
     sends tr = [home_offset])
  /\
  exec (run_safe_robot_test source_config env_unread) 5 =
    Some (Returned (Errored AttributeError),
          prologue "yes" ++
          [EvCall Connect (Returned tt);
           EvCall GetControllerVersion (Returned tt);
           EvCall SendOutputSetup (Returned tt);
           EvSendInputSetup (Returned (Some {| recipe_id := 1 |}));
           EvSendStart (Returned true);
           EvReceive (Returned (Some (still home)));
           EvCall (Sleep 2) (Returned tt);
           EvCall (Send {| recipe_id := 1 |} home_offset) (Returned tt);
           EvTime 12; EvTime 13; EvReceive (Returned (Some (still home)));
           EvReceive (Returned (Some (still home)));
           EvCall (Sleep 1) (Returned tt);
           EvCall (Send {| recipe_id := 1 |} home) (Returned tt);
           EvTime 18; EvTime 19; EvReceive (Returned (Some (still home)));
           EvReceive (Returned None);
           EvCall SendPause (Returned tt); EvCall Disconnect (Returned tt)]).
Proof.
  split; [split; reflexivity|]. split.
  - eexists. split; vm_compute; reflexivity.
  - vm_compute. reflexivity.
Qed.

(** C7, amended.  A run sends at most two targets, the outbound one first
    and the reference second.  The second is sent only after the first
    movement was completed: its wait found the arm at rest within the
    timeout and the position was read again.  A run that reports success
    has completed both movements.  Conversely, when the user confirms, no
    call raises, the recipes are configured, both targets validate and each
    movement settles within the timeout with its position read again, the
    run reports success after exactly these two sends. *)
Theorem two_movements_in_order cfg env fuel :
  (forall r tr,
     exec (run_safe_robot_test cfg env) fuel = Some (r, tr) ->
     (sends tr = [] \/
      exists st target_pos_1,
        hd_error (samples tr) = Some st /\
        add_at (actual_q st) 5 (SMALL_MOVEMENT_OFFSET cfg)
          = Returned target_pos_1 /\
        (sends tr = [target_pos_1] \/
         sends tr = [target_pos_1; actual_q st]))
     /\
     (length (sends tr) = 2%nat ->
      exists st target_pos_1 setp before m1 answer after,
        tr = before ++ m1 ++ EvCall (Sleep 1) (Returned tt) ::
             EvCall (Send setp (actual_q st)) answer :: after /\
        sends before = [] /\
        sends after = [] /\
        add_at (actual_q st) 5 (SMALL_MOVEMENT_OFFSET cfg)
          = Returned target_pos_1 /\
        completed_movement (MOVEMENT_TIMEOUT cfg) setp target_pos_1 m1)
     /\
     (r = Returned Completed ->
      exists st target_pos_1 setp before m1 m2 teardown,
        tr = before ++ m1 ++ EvCall (Sleep 1) (Returned tt) :: m2 ++ teardown /\
        sends before = [] /\
        add_at (actual_q st) 5 (SMALL_MOVEMENT_OFFSET cfg)
          = Returned target_pos_1 /\
        completed_movement (MOVEMENT_TIMEOUT cfg) setp target_pos_1 m1 /\
        completed_movement (MOVEMENT_TIMEOUT cfg) setp (actual_q st) m2 /\
        cleanup_shape teardown))
  /\
  (forall response setp st target_pos_1 n1 n2,
     on_input env 0 = Returned response ->
     (upper response =? "YES")%string = true ->
     (forall p c, on_call env p c = Returned tt) ->
     on_send_input_setup env 7 = Returned (Some setp) ->
     on_send_start env 8 = Returned true ->
     on_receive env 9 = Returned (Some st) ->
     add_at (actual_q st) 5 (SMALL_MOVEMENT_OFFSET cfg)
       = Returned target_pos_1 ->
     fst (validate_joint_position (actual_q st) target_pos_1
            (MAX_JOINT_MOVEMENT cfg)) = true ->
     fst (validate_joint_position target_pos_1 (actual_q st)
            (MAX_JOINT_MOVEMENT cfg)) = true ->
     settles_after env (MOVEMENT_TIMEOUT cfg) 11 n1 ->
     settles_after env (MOVEMENT_TIMEOUT cfg) (3 * n1 + 17) n2 ->
     (n1 < fuel)%nat -> (n2 < fuel)%nat ->
     exists tr,
       exec (run_safe_robot_test cfg env) fuel = Some (Returned Completed, tr) /\
       sends tr = [target_pos_1; actual_q st]).
Proof.
  split.
  2:{ intros. eapply run_completes; eassumption. }
  intros r tr H. split; [|split].
  - destruct (run_session_anatomy _ _ _ _ _ H)
      as [Hnone | (response & pre & setp & ext & rb & td & -> & Hpre & Htest & _ & Htd)];
      [left; exact Hnone|].
    destruct (session_trace_reads response pre ext td Hpre Htd) as [-> ->].
    destruct (sends ext) as [|x l] eqn:Hs; [left; reflexivity | right].
    destruct (test_shape_targets _ _ _ _ Htest) as [_ Hsent].
    destruct Hsent as (st & t1 & rest & -> & Hadd & _ & _ & Hcases);
      [rewrite Hs; discriminate|].
    exists st, t1. rewrite <- Hs. auto.
  - intros Hlen.
    destruct (run_session_anatomy _ _ _ _ _ H)
      as [Hnone | (response & pre & setp & ext & rb & td & -> & Hpre & Htest & _ & Htd)];
      [rewrite Hnone in Hlen; discriminate Hlen|].
    destruct (session_trace_reads response pre ext td Hpre Htd) as [Hsends _].
    rewrite Hsends in Hlen.
    destruct (test_shape_movements _ _ _ _ Htest) as [Hsecond _].
    destruct (Hsecond Hlen)
      as (st & t1 & m1 & answer & after & -> & Hadd & Hc1 & Hafter).
    exists st, t1, setp,
      (prologue response ++ pre ++
       [EvReceive (Returned (Some st)); EvCall (Sleep 2) (Returned tt)]),
      m1, answer, (after ++ td).
    destruct (setup_events_quiet _ Hpre) as (P1 & _ & _ & _).
    destruct (cleanup_shape_calls _ Htd) as (_ & T1 & _).
    repeat split; try assumption.
    + rewrite <- !app_assoc. cbn [app]. rewrite <- !app_assoc. reflexivity.
    + rewrite !sends_app, P1. reflexivity.
    + rewrite sends_app, Hafter, T1. reflexivity.
  - intros ->. apply completed_run_anatomy in H.
    destruct H as (response & pre & setp & st & t1 & m1 & m2 & td & -> &
                   Hpre & Hadd & Hc1 & Hc2 & Htd).
    exists st, t1, setp,
      (prologue response ++ pre ++
       [EvReceive (Returned (Some st)); EvCall (Sleep 2) (Returned tt)]),
      m1, m2, td.
    destruct (setup_events_quiet _ Hpre) as (P1 & _ & _ & _).
    repeat split; try assumption.
    + rewrite <- !app_assoc. reflexivity.
    + rewrite !sends_app, P1. reflexivity.
Qed.

Lemma two_movements_in_order_witness :
  exists tr,
    exec (run_safe_robot_test source_config env_ok) 5 =
      Some (Returned Completed, tr) /\
    sends tr = [home_offset; actual_q (still home)].
Proof.
  destruct (two_movements_in_order source_config env_ok 5) as [_ H].
  apply (H "yes"%string {| recipe_id := 1 |} (still home) home_offset
           0%nat 0%nat); try reflexivity; try lia.
  - split; [intros i Hi; lia|].
    split; [reflexivity|].
    split; exists (still home); [split; reflexivity | reflexivity].
  - split; [intros i Hi; lia|].
    split; [reflexivity|].
    split; exists (still home); [split; reflexivity | reflexivity].
Defined.

(** * The sample read after a wait *)

Lemma round_events_samples rounds :
  forallb (fun e => negb (is_missing_sample e)) (round_events rounds) = true.
Proof.
  induction rounds as [|r rounds IH]; [reflexivity|].
  rewrite round_events_cons, forallb_app, IH. reflexivity.
Qed.

Lemma completed_movement_samples timeout setp registers m :
  completed_movement timeout setp registers m ->
  forallb (fun e => negb (is_missing_sample e)) m = true.
Proof.
  intros (start & w & st & -> & (rounds & t & a & -> & _)).
  cbn [forallb is_missing_sample negb andb].
  rewrite !forallb_app, round_events_samples. reflexivity.
Qed.

Lemma setup_events_samples pre :
  forallb is_setup_event pre = true ->
  forallb (fun e => negb (is_missing_sample e)) pre = true.
Proof.
  induction pre as [|e pre IH]; [reflexivity|].
  cbn [forallb]. rewrite !andb_true_iff. intros [He Hpre].
  split; [|apply IH; exact Hpre].
  destruct e as [| | | | [[|]|] |]; try reflexivity; discriminate He.
Qed.

(** C9.  After a wait that returned [True], a movement requests exactly one
    more sample and reads [actual_q] from the answer: a sample lets the
    program go on, no sample raises [AttributeError].  An [AttributeError]
    raised in the body of the [try] is caught at line 315, and the teardown
    follows.  A run that reports success has completed both movements,
    each with a sample read after its wait, and none of its requests
    yielded no sample. *)
Theorem success_needs_samples_after_waits cfg env fuel :
  (forall n setp target tr tr2,
     length target = 6%nat ->
     on_call env (length tr) (Send setp target) = Returned tt ->
     wait_for_move_completion env (MOVEMENT_TIMEOUT cfg) fuel
       (tr ++ [EvCall (Send setp target) (Returned tt)])
       = Some (Returned true, tr2) ->
     movement cfg env n setp target fuel tr =
     Some (match on_receive env (length tr2) with
           | Returned (Some _) => Returned None
           | Returned None => Raised AttributeError
           | Raised e => Raised e
           end,
           tr2 ++ [EvReceive (on_receive env (length tr2))]))
  /\
  (forall tr tr1,
     try_body cfg env fuel tr = Some (Raised AttributeError, tr1) ->
     exists teardown,
       try_finally (try_except (try_body cfg env) handlers) (cleanup env)
         fuel tr = Some (Returned (Errored AttributeError), tr1 ++ teardown) /\
       cleanup_shape teardown)
  /\
  (forall tr,
     exec (run_safe_robot_test cfg env) fuel = Some (Returned Completed, tr) ->
     forallb (fun e => negb (is_missing_sample e)) tr = true /\
     exists st target_pos_1 setp before m1 m2 teardown,
       tr = before ++ m1 ++ EvCall (Sleep 1) (Returned tt) :: m2 ++ teardown /\
       completed_movement (MOVEMENT_TIMEOUT cfg) setp target_pos_1 m1 /\
       completed_movement (MOVEMENT_TIMEOUT cfg) setp (actual_q st) m2 /\
       cleanup_shape teardown).
Proof.
  split; [|split].
  - intros n setp target tr tr2. apply movement_after_settled.
  - intros tr tr1 Hbody.
    apply try_except_handlers_eq in Hbody.
    apply (try_finally_cleanup_eq env _ _ _ _ _ Hbody).
  - intros tr H. apply completed_run_anatomy in H.
    destruct H as (response & pre & setp & st & t1 & m1 & m2 & td & -> &
                   Hpre & Hadd & Hc1 & Hc2 & Htd).
    split.
    + pose proof (setup_events_samples _ Hpre) as S0.
      pose proof (completed_movement_samples _ _ _ _ Hc1) as S1.
      pose proof (completed_movement_samples _ _ _ _ Hc2) as S2.
      rewrite !forallb_app. cbn [forallb is_missing_sample negb andb].
      rewrite !forallb_app. cbn [forallb is_missing_sample negb andb].
      rewrite forallb_app, S0, S1, S2.
      inversion Htd; reflexivity.
    + exists st, t1, setp,
        (prologue response ++ pre ++
         [EvReceive (Returned (Some st)); EvCall (Sleep 2) (Returned tt)]),
        m1, m2, td.
      repeat split; try assumption.
      rewrite <- !app_assoc. reflexivity.
Qed.

Lemma success_needs_samples_after_waits_witness :
  (exists tr1 teardown,
     try_body source_config env_unread 5%nat (prologue "yes") =
       Some (Raised AttributeError, tr1) /\
     try_finally (try_except (try_body source_config env_unread) handlers)
       (cleanup env_unread) 5%nat (prologue "yes") =
       Some (Returned (Errored AttributeError), tr1 ++ teardown) /\
     cleanup_shape teardown)
  /\
  (exists tr,
     exec (run_safe_robot_test source_config env_ok) 5 =
       Some (Returned Completed, tr) /\
     forallb (fun e => negb (is_missing_sample e)) tr = true).
Proof.
  destruct (success_needs_samples_after_waits source_config env_unread 5)
    as (_ & Hcaught & _).
  destruct (success_needs_samples_after_waits source_config env_ok 5)
    as (_ & _ & Hsuccess).
  split.
  - assert (Hbody : exists tr1,
              try_body source_config env_unread 5%nat (prologue "yes") =
              Some (Raised AttributeError, tr1))
      by (eexists; vm_compute; reflexivity).
    destruct Hbody as (tr1 & Hbody).
    destruct (Hcaught _ _ Hbody) as (teardown & Hrun & Hshape).
    exists tr1, teardown. auto.
  - eexists. split; [vm_compute; reflexivity|].
    apply Hsuccess. vm_compute. reflexivity.
Defined.

(** * Further properties of the safety validator *)

Lemma check_joints_swap current_pos : forall target_pos i max_delta,
  check_joints i (combine current_pos target_pos) max_delta =
  check_joints i (combine target_pos current_pos) max_delta.
Proof.
  induction current_pos as [|c current_pos IH]; intros [|t target_pos] i m;
    try reflexivity.
  cbn [combine check_joints]. rewrite (Qabs_Qminus t c), IH. reflexivity.
Qed.

Lemma validate_joint_position_symmetric_eq
  (current_pos target_pos : list Q) (max_delta : Q) :
  validate_joint_position current_pos target_pos max_delta =
  validate_joint_position target_pos current_pos max_delta.
Proof.
  unfold validate_joint_position. rewrite orb_comm.
  destruct (_ || _); [reflexivity | apply check_joints_swap].
Qed.

(** X1.  Validation does not depend on the direction of the movement: the
    way back is accepted exactly when the way out is, and a rejection names
    the same joint with the same delta. *)
Theorem validate_joint_position_symmetric
  (current_pos target_pos : list Q) (max_delta : Q) :
  validate_joint_position current_pos target_pos max_delta =
  validate_joint_position target_pos current_pos max_delta.
Proof.
  apply validate_joint_position_symmetric_eq.
Qed.

(** Acceptance, for vectors of any length. *)
Lemma validate_accepts_iff (current_pos target_pos : list Q) (max_delta : Q) :
  fst (validate_joint_position current_pos target_pos max_delta) = true <->
  length current_pos = 6%nat /\ length target_pos = 6%nat /\
  forall i, (i < 6)%nat -> joint_delta current_pos target_pos i <= max_delta.
Proof.
  split.
  - intros H.
    assert (Hlen : length current_pos = 6%nat /\ length target_pos = 6%nat).
    { destruct (validate_joint_position current_pos target_pos max_delta)
        as [ok msg] eqn:E. cbn [fst] in H. subst ok.
      apply (validate_accepts_six _ _ _ _ E). }
    destruct Hlen as [Hc Ht]. repeat split; try assumption.
    rewrite validate_well_formed in H by assumption.
    rewrite check_joints_ok in H. intros i Hi.
    rewrite <- joint_deltas_combine by congruence. apply H.
    rewrite length_combine, Hc, Ht. exact Hi.
  - intros (Hc & Ht & H).
    rewrite validate_well_formed by assumption.
    apply check_joints_ok. intros k Hk.
    rewrite joint_deltas_combine by congruence. apply H.
    rewrite length_combine, Hc, Ht in Hk. exact Hk.
Qed.






(** X3.  A movement accepted under a bound is accepted under every larger
    bound. *)
Theorem validate_joint_position_monotone
  (current_pos target_pos : list Q) (max_delta max_delta' : Q) :
  max_delta <= max_delta' ->
  fst (validate_joint_position current_pos target_pos max_delta) = true ->
  fst (validate_joint_position current_pos target_pos max_delta') = true.
Proof.
  intros Hle H. apply validate_accepts_iff in H.
  destruct H as (Hc & Ht & H). apply validate_accepts_iff.
  repeat split; try assumption.
  intros i Hi. specialize (H i Hi). lra.
Qed.

Lemma validate_joint_position_monotone_witness :
  fst (validate_joint_position home home_offset (5 # 100)) = true.
Proof.
  apply (validate_joint_position_monotone home home_offset (3 # 100) (5 # 100)).
  - discriminate.
  - reflexivity.
Defined.



(** * The targets of the test *)

Lemma replace_at_spec (l : list Q) i v w :
  nth_error l i = Some v ->
  (i < length l)%nat /\
  length (firstn i l ++ w :: skipn (S i) l) = length l /\
  nth i (firstn i l ++ w :: skipn (S i) l) 0 = w /\
  forall j, j <> i ->
    nth j (firstn i l ++ w :: skipn (S i) l) 0 = nth j l 0.
Proof.
  intros E.
  assert (Hi : (i < length l)%nat) by (apply nth_error_Some; congruence).
  assert (Hfirst : length (firstn i l) = i) by (apply firstn_length_le; lia).
  split; [exact Hi|]. split; [|split].
  - rewrite length_app.
    change (length (w :: skipn (S i) l)) with (S (length (skipn (S i) l))).
    rewrite Hfirst, length_skipn. lia.
  - rewrite app_nth2 by lia. rewrite Hfirst, Nat.sub_diag. reflexivity.
  - intros j Hj. destruct (Nat.lt_ge_cases j i) as [Hlt | Hge].
    + rewrite app_nth1 by lia.
      rewrite <- (firstn_skipn i l) at 2. rewrite app_nth1 by lia. reflexivity.
    + rewrite app_nth2 by lia. rewrite Hfirst.
      destruct (j - i)%nat as [|m] eqn:Hm; [lia|].
      change (nth (S m) (w :: skipn (S i) l) 0) with (nth m (skipn (S i) l) 0).
      rewrite <- (firstn_skipn (S i) l) at 2.
      rewrite app_nth2 by (rewrite firstn_length_le; lia).
      rewrite firstn_length_le by lia. f_equal. lia.
Qed.

(** [l[i] += d] on a copy: same length, joint [i] moved by [d], the other
    joints as they were. *)
Lemma add_at_spec (l : list Q) i d l' :
  add_at l i d = Returned l' ->
  (i < length l)%nat /\
  length l' = length l /\
  nth i l' 0 = nth i l 0 + d /\
  forall j, j <> i -> nth j l' 0 = nth j l 0.
Proof.
  unfold add_at. destruct (nth_error l i) as [v|] eqn:E; [|intros H; discriminate H].
  intros H.
  assert (Hl : l' = firstn i l ++ (v + d) :: skipn (S i) l)
    by (injection H as <-; reflexivity).
  assert (Hv : nth i l 0 = v) by (apply nth_error_nth; exact E).
  rewrite Hl, Hv. apply (replace_at_spec l i v (v + d) E).
Qed.

(** X5.  No run ends at line 259: the second validation compares the same
    two positions as the first, in the other direction, so it passes
    whenever the first did. *)
Theorem second_validation_never_fails cfg env fuel r tr msg :
  exec (run_safe_robot_test cfg env) fuel = Some (r, tr) ->
  r <> Returned (ValidationFailed 2 msg).
Proof.
  intros H Hr.
  destruct (validation_guards_sends _ _ _ _ _ H) as [Hfail _].
  destruct (Hfail 2%nat msg Hr) as (_ & st & t1 & _ & _ & [[Hn _] | (_ & V1 & V2)]).
  - discriminate Hn.
  - rewrite validate_joint_position_symmetric_eq in V2.
    rewrite V2 in V1. discriminate V1.
Qed.

Lemma second_validation_never_fails_witness :
  Returned (ValidationFailed 1 (MovementTooLarge 5 (3 # 100) (2 # 100)))
  <> Returned (ValidationFailed 2 (MovementTooLarge 5 (3 # 100) (2 # 100))).
Proof.
  apply (second_validation_never_fails strict_config env_ok 5 _
           (trace_of (run_safe_robot_test strict_config env_ok) 5)).
  vm_compute. reflexivity.
Defined.

(** The first validation compares a position with its copy after
    [target[5] += offset]: under a bound that is not negative it can fail
    on the dimensions, when the position has more than six joints, or on
    joint 5, the others having not moved. *)
Lemma first_target_rejected (current_pos target_pos_1 : list Q) offset max_delta msg :
  add_at current_pos 5 offset = Returned target_pos_1 ->
  0 <= max_delta ->
  validate_joint_position current_pos target_pos_1 max_delta = (false, msg) ->
  (msg = InvalidDimensions /\ (6 < length current_pos)%nat) \/
  (length current_pos = 6%nat /\
   msg = MovementTooLarge 5 (joint_delta current_pos target_pos_1 5) max_delta /\
   max_delta < joint_delta current_pos target_pos_1 5 /\
   joint_delta current_pos target_pos_1 5 == Qabs offset).
Proof.
  intros Hadd Hm V.
  destruct (add_at_spec _ _ _ _ Hadd) as (H5 & Hlen & Hnth5 & Hnth).
  destruct (Nat.eq_dec (length current_pos) 6) as [Hsix | Hsix].
  - right. split; [exact Hsix|].
    rewrite validate_well_formed in V by congruence.
    destruct (check_joints_fail (combine current_pos target_pos_1) 0 max_delta)
      as (k & Hk & Hmsg & Hgt & _); [rewrite V; reflexivity|].
    rewrite V in Hmsg. cbn [snd] in Hmsg.
    rewrite joint_deltas_combine in Hmsg, Hgt by congruence.
    assert (Hk5 : k = 5%nat).
    { destruct (Nat.eq_dec k 5) as [E | E]; [exact E | exfalso].
      unfold joint_delta in Hgt. rewrite (Hnth k E) in Hgt.
      assert (Hz : Qabs (nth k current_pos 0 - nth k current_pos 0) == 0)
        by (rewrite <- (Qabs_wd 0); [reflexivity | ring]).
      rewrite Hz in Hgt. lra. }
    subst k. repeat split; try assumption.
    unfold joint_delta. rewrite Hnth5. apply Qabs_wd. ring.
  - left. split; [|lia].
    unfold validate_joint_position in V.
    destruct (Nat.eqb_spec (length current_pos) 6) as [E | _];
      [contradiction|]. cbn [negb orb] in V. congruence.
Qed.


(** X6.  Under a bound that is not negative, a run rejects its own targets
    in two ways only, both at the first validation (line 252): the position
    read at the start has more than six joints, or joint 5, the only one
    the test moves, exceeds the bound; the message then names joint 5. *)
Theorem validation_failure_blames_dimension_or_joint_5 cfg env fuel tr n msg :
  0 <= MAX_JOINT_MOVEMENT cfg ->
  exec (run_safe_robot_test cfg env) fuel
  = Some (Returned (ValidationFailed n msg), tr) ->
  n = 1%nat /\
  exists st,
    hd_error (samples tr) = Some st /\
    ((msg = InvalidDimensions /\ (6 < length (actual_q st))%nat) \/
     (length (actual_q st) = 6%nat /\
      exists delta,
        msg = MovementTooLarge 5 delta (MAX_JOINT_MOVEMENT cfg) /\
        MAX_JOINT_MOVEMENT cfg < delta)).
Proof.
  intros Hm H.
  destruct (validation_guards_sends _ _ _ _ _ H) as [Hfail _].
  destruct (Hfail n msg eq_refl)
    as (_ & st & t1 & Hhd & Hadd & [[Hn V1] | (_ & V1 & V2)]).
  - split; [exact Hn|]. exists st. split; [exact Hhd|].
    destruct (first_target_rejected _ _ _ _ _ Hadd Hm V1)
      as [Hdim | (Hsix & Hmsg & Hgt & _)]; [left; exact Hdim | right].
    split; [exact Hsix|]. eexists. split; eassumption.
  - rewrite validate_joint_position_symmetric_eq in V2.
    rewrite V2 in V1. discriminate V1.
Qed.

Lemma validation_failure_blames_dimension_or_joint_5_witness :
  1%nat = 1%nat /\
  exists st,
    hd_error (samples (trace_of (run_safe_robot_test strict_config env_ok) 5))
    = Some st /\
    ((MovementTooLarge 5 (3 # 100) (2 # 100) = InvalidDimensions /\
      (6 < length (actual_q st))%nat) \/
     (length (actual_q st) = 6%nat /\
      exists delta,
        MovementTooLarge 5 (3 # 100) (2 # 100)
        = MovementTooLarge 5 delta (MAX_JOINT_MOVEMENT strict_config) /\
        MAX_JOINT_MOVEMENT strict_config < delta)).
Proof.
  apply (validation_failure_blames_dimension_or_joint_5
           strict_config env_ok 5
           (trace_of (run_safe_robot_test strict_config env_ok) 5)).
  - vm_compute. discriminate.
  - vm_compute. reflexivity.
Defined.





(** * Runs that end before the first movement *)

Section Forward.

Variable cfg : Config.
Variable env : Env.

Hypothesis calls_return : forall p c, on_call env p c = Returned tt.

(** Lines 170-216 when every call returns and the first attempt to
    configure the recipes returns. *)
Lemma try_body_configured fuel tr (setp : option DataObject) :
  on_send_input_setup env (length tr + 3) = Returned setp ->
  try_body cfg env fuel tr =
  match setp with
  | None => ret SetupFailed
  | Some setp =>
      bind (con_send_start env)
        (fun started => if negb started then ret StartFailed
                        else test_movements cfg env setp)
  end fuel
    (tr ++ [EvCall Connect (Returned tt);
            EvCall GetControllerVersion (Returned tt);
            EvCall SendOutputSetup (Returned tt);
            EvSendInputSetup (Returned setp)]).
Proof.
  intros Hsetup.
  set (tr2 := (tr ++ [EvCall Connect (Returned tt)]) ++
              [EvCall GetControllerVersion (Returned tt)]).
  assert (Hlen2 : length tr2 = (length tr + 2)%nat)
    by (unfold tr2; rewrite !length_snoc; lia).
  assert (Hanswer : configure_answer env (length tr2) = Returned setp).
  { unfold configure_answer. rewrite calls_return, Hlen2.
    replace (S (length tr + 2)) with (length tr + 3)%nat by lia.
    exact Hsetup. }
  assert (Hevents : configure_events env (length tr2) =
                    [EvCall SendOutputSetup (Returned tt);
                     EvSendInputSetup (Returned setp)]).
  { unfold configure_events. rewrite calls_return, Hlen2.
    replace (S (length tr + 2)) with (length tr + 3)%nat by lia.
    rewrite Hsetup. reflexivity. }
  unfold try_body.
  unfold bind at 1. rewrite do_call_eq, calls_return.
  unfold bind at 1. rewrite do_call_eq, calls_return. fold tr2.
  unfold bind at 1. unfold max_retries. cbn [setup_loop].
  unfold bind at 1.
  rewrite (setup_attempt_returned env _ fuel tr2 setp Hanswer).
  unfold ret at 1. rewrite Hevents. unfold tr2.
  rewrite <- !app_assoc. reflexivity.
Qed.

(** The [finally] clause when both of its calls return. *)
Lemma cleanup_returns fuel tr :
  cleanup env fuel tr =
  Some (Returned tt,
        tr ++ [EvCall SendPause (Returned tt); EvCall Disconnect (Returned tt)]).
Proof.
  unfold cleanup, try_except, bind.
  rewrite do_call_eq, calls_return, do_call_eq, calls_return.
  rewrite <- app_assoc. reflexivity.
Qed.

(** Lines 130-328 around the body of the [try]. *)
Lemma run_of_try_body fuel response rb trb :
  on_input env 0 = Returned response ->
  (upper response =? "YES")%string = true ->
  try_body cfg env fuel (prologue response) = Some (rb, trb) ->
  exec (run_safe_robot_test cfg env) fuel =
  Some (handled rb,
        trb ++ [EvCall SendPause (Returned tt);
                EvCall Disconnect (Returned tt)]).
Proof.
  intros Hin Hyes Hbody.
  apply try_except_handlers_eq in Hbody.
  assert (Hfin : try_finally (try_except (try_body cfg env) handlers)
                   (cleanup env) fuel (prologue response) =
                 Some (handled rb,
                       trb ++ [EvCall SendPause (Returned tt);
                               EvCall Disconnect (Returned tt)])).
  { unfold try_finally. rewrite Hbody, cleanup_returns. reflexivity. }
  unfold exec, run_safe_robot_test.
  unfold bind at 1, input. rewrite perform_eq. cbn [length]. rewrite Hin.
  rewrite Hyes. cbn [negb].
  unfold bind at 1. rewrite do_call_eq, calls_return.
  unfold bind at 1. rewrite do_call_eq, calls_return.
  unfold bind at 1. rewrite do_call_eq, calls_return.
  exact Hfin.
Qed.

End Forward.

(** The calls of lines 130-185 when each of them returns. *)
Lemma session_length response :
  length (prologue response) = 4%nat.
Proof. reflexivity. Qed.

(** X9.  The three early exits between configuration and validation (lines
    214-216, 219-221, 230-232), when the user confirms and every call
    returns: [send_input_setup] returning no object, [send_start] returning
    false and the first [receive] returning no sample each end the run at
    once; no later step of the session is attempted, no target is sent, and
    the teardown pauses and disconnects. *)
Theorem preflight_exits cfg env fuel response :
  on_input env 0 = Returned response ->
  (upper response =? "YES")%string = true ->
  (forall p c, on_call env p c = Returned tt) ->
  let session :=
    prologue response ++
    [EvCall Connect (Returned tt); EvCall GetControllerVersion (Returned tt);
     EvCall SendOutputSetup (Returned tt)] in
  let teardown :=
    [EvCall SendPause (Returned tt); EvCall Disconnect (Returned tt)] in
  (on_send_input_setup env 7 = Returned None ->
   exec (run_safe_robot_test cfg env) fuel =
   Some (Returned SetupFailed,
         session ++ [EvSendInputSetup (Returned None)] ++ teardown))
  /\
  (forall setp,
     on_send_input_setup env 7 = Returned (Some setp) ->
     on_send_start env 8 = Returned false ->
     exec (run_safe_robot_test cfg env) fuel =
     Some (Returned StartFailed,
           session ++ [EvSendInputSetup (Returned (Some setp));
                       EvSendStart (Returned false)] ++ teardown))
  /\
  (forall setp,
     on_send_input_setup env 7 = Returned (Some setp) ->
     on_send_start env 8 = Returned true ->
     on_receive env 9 = Returned None ->
     exec (run_safe_robot_test cfg env) fuel =
     Some (Returned NoInitialState,
           session ++ [EvSendInputSetup (Returned (Some setp));
                       EvSendStart (Returned true);
                       EvReceive (Returned None)] ++ teardown)).
Proof.
  intros Hin Hyes Hcalls session teardown. split; [|split].
  - intros Hsetup.
    rewrite (run_of_try_body cfg env Hcalls fuel response
               (Returned SetupFailed)
               (session ++ [EvSendInputSetup (Returned None)]) Hin Hyes).
    + unfold session, teardown. rewrite <- !app_assoc. reflexivity.
    + rewrite (try_body_configured cfg env Hcalls fuel (prologue response) None
                 Hsetup).
      unfold ret, session. rewrite <- !app_assoc. reflexivity.
  - intros setp Hsetup Hstart.
    rewrite (run_of_try_body cfg env Hcalls fuel response
               (Returned StartFailed)
               (session ++ [EvSendInputSetup (Returned (Some setp));
                            EvSendStart (Returned false)]) Hin Hyes).
    + unfold session, teardown. rewrite <- !app_assoc. reflexivity.
    + rewrite (try_body_configured cfg env Hcalls fuel (prologue response)
                 (Some setp) Hsetup).
      unfold bind, con_send_start. rewrite perform_eq.
      rewrite length_app, session_length. cbn [length Nat.add].
      rewrite Hstart. cbn [negb]. unfold ret, session.
      rewrite <- !app_assoc. reflexivity.
  - intros setp Hsetup Hstart Hrecv.
    rewrite (run_of_try_body cfg env Hcalls fuel response
               (Returned NoInitialState)
               (session ++ [EvSendInputSetup (Returned (Some setp));
                            EvSendStart (Returned true);
                            EvReceive (Returned None)]) Hin Hyes).
    + unfold session, teardown. rewrite <- !app_assoc. reflexivity.
    + rewrite (try_body_configured cfg env Hcalls fuel (prologue response)
                 (Some setp) Hsetup).
      unfold bind at 1, con_send_start. rewrite perform_eq.
      rewrite length_app, session_length. cbn [length Nat.add].
      rewrite Hstart. cbn [negb]. unfold test_movements.
      unfold bind at 1, con_receive. rewrite perform_eq.
      rewrite !length_app, session_length. cbn [length Nat.add].
      rewrite Hrecv. unfold ret, session.
      rewrite <- !app_assoc. reflexivity.
Qed.

Lemma preflight_exits_witness :
  exec (run_safe_robot_test source_config env_unconfigured) 5 =
    Some (Returned SetupFailed,
          (prologue "yes" ++
           [EvCall Connect (Returned tt);
            EvCall GetControllerVersion (Returned tt);
            EvCall SendOutputSetup (Returned tt)]) ++
          [EvSendInputSetup (Returned None)] ++
          [EvCall SendPause (Returned tt); EvCall Disconnect (Returned tt)])
  /\
  exec (run_safe_robot_test source_config env_not_started) 5 =
    Some (Returned StartFailed,
          (prologue "yes" ++
           [EvCall Connect (Returned tt);
            EvCall GetControllerVersion (Returned tt);
            EvCall SendOutputSetup (Returned tt)]) ++
          [EvSendInputSetup (Returned (Some {| recipe_id := 1 |}));
           EvSendStart (Returned false)] ++
          [EvCall SendPause (Returned tt); EvCall Disconnect (Returned tt)])
  /\
  exec (run_safe_robot_test source_config env_lost) 5 =
    Some (Returned NoInitialState,
          (prologue "yes" ++
           [EvCall Connect (Returned tt);
            EvCall GetControllerVersion (Returned tt);
            EvCall SendOutputSetup (Returned tt)]) ++
          [EvSendInputSetup (Returned (Some {| recipe_id := 1 |}));
           EvSendStart (Returned true); EvReceive (Returned None)] ++
          [EvCall SendPause (Returned tt); EvCall Disconnect (Returned tt)]).
Proof.
  split; [|split].
  - apply (preflight_exits source_config env_unconfigured 5 "yes");
      reflexivity.
  - apply (preflight_exits source_config env_not_started 5 "yes");
      reflexivity.
  - apply (preflight_exits source_config env_lost 5 "yes"); reflexivity.
Defined.

Lemma add_at_short (l : list Q) i d :
  (length l <= i)%nat -> add_at l i d = Raised IndexError.
Proof.
  intros H. unfold add_at.
  destruct (nth_error l i) eqn:E; [|reflexivity].
  apply nth_error_None in H. congruence.
Qed.

(** X10.  A controller that reports fewer than six joints: line 244 raises
    [IndexError], which the handler of lines 315-318 reports.  Nothing has
    been validated or sent, and the teardown pauses and disconnects. *)
Theorem short_position_is_reported cfg env fuel response setp st :
  on_input env 0 = Returned response ->
  (upper response =? "YES")%string = true ->
  (forall p c, on_call env p c = Returned tt) ->
  on_send_input_setup env 7 = Returned (Some setp) ->
  on_send_start env 8 = Returned true ->
  on_receive env 9 = Returned (Some st) ->
  (length (actual_q st) <= 5)%nat ->
  exec (run_safe_robot_test cfg env) fuel =
  Some (Returned (Errored IndexError),
        prologue response ++
        [EvCall Connect (Returned tt); EvCall GetControllerVersion (Returned tt);
         EvCall SendOutputSetup (Returned tt);
         EvSendInputSetup (Returned (Some setp));
         EvSendStart (Returned true);
         EvReceive (Returned (Some st));
         EvCall SendPause (Returned tt); EvCall Disconnect (Returned tt)]).
Proof.
  intros Hin Hyes Hcalls Hsetup Hstart Hrecv Hshort.
  rewrite (run_of_try_body cfg env Hcalls fuel response
             (Raised IndexError)
             (prologue response ++
              [EvCall Connect (Returned tt);
               EvCall GetControllerVersion (Returned tt);
               EvCall SendOutputSetup (Returned tt);
               EvSendInputSetup (Returned (Some setp));
               EvSendStart (Returned true);
               EvReceive (Returned (Some st))]) Hin Hyes).
  - rewrite <- !app_assoc. reflexivity.
  - rewrite (try_body_reaches_test cfg env Hcalls fuel (prologue response) setp
               Hsetup Hstart).
    unfold test_movements.
    unfold bind at 1, con_receive. rewrite perform_eq.
    rewrite !length_app, session_length. cbn [length Nat.add].
    rewrite Hrecv. unfold bind at 1, lift.
    rewrite (add_at_short _ _ _ Hshort).
    rewrite <- !app_assoc. reflexivity.
Qed.

Lemma short_position_is_reported_witness :
  exec (run_safe_robot_test source_config env_short) 5 =
  Some (Returned (Errored IndexError),
        prologue "yes" ++
        [EvCall Connect (Returned tt); EvCall GetControllerVersion (Returned tt);
         EvCall SendOutputSetup (Returned tt);
         EvSendInputSetup (Returned (Some {| recipe_id := 1 |}));
         EvSendStart (Returned true);
         EvReceive (Returned (Some (still [0; 0; 0; 0; 0])));
         EvCall SendPause (Returned tt); EvCall Disconnect (Returned tt)]).
Proof.
  apply (short_position_is_reported source_config env_short 5 "yes");
    reflexivity.
Defined.

(** The body of the [try] never returns the report of an error: that is
    the handler's. *)
Lemma test_shape_not_errored cfg setp ext e :
  ~ test_shape cfg setp ext (Returned (Errored e)).
Proof.
  intros H. inversion H; subst.
  - match goal with
    | Hm : movement_shape _ _ _ _ _ ?r1, He : early_exit ?r1 = _ |- _ =>
        destruct (movement_shape_result _ _ _ _ _ _ Hm)
          as [-> | [-> | [e' ->]]]; discriminate He
    end.
  - match goal with
    | Hm : movement_shape _ 2 _ _ _ ?r2, He : _ = Returned (Errored e) |- _ =>
        destruct (movement_shape_result _ _ _ _ _ _ Hm)
          as [-> | [-> | [e' ->]]]; discriminate He
    end.
Qed.

(** X11.  Once the session object exists, no exception of Python's
    [Exception] class and no [KeyboardInterrupt] leaves the function: what
    escapes is outside both.  A run that reports an error reports an
    exception of the [Exception] class. *)
Theorem session_contains_exceptions cfg env fuel r tr :
  exec (run_safe_robot_test cfg env) fuel = Some (r, tr) ->
  In (EvCall NewRTDE (Returned tt)) tr ->
  (forall e, r = Raised e -> is_Exception e = false /\ e <> KeyboardInterrupt)
  /\
  (forall e, r = Returned (Errored e) ->
     is_Exception e = true /\ e <> KeyboardInterrupt).
Proof.
  intros H Hsession. apply run_sound in H. inversion H; subst.
  - destruct Hsession as [E | []]. discriminate E.
  - contradiction.
  - destruct r_body as [res | e0].
    + split; intros e E; [discriminate E|].
      cbn [handled] in E.
      (* the body returned: it never returns [Errored] *)
      exfalso. injection E as ->.
      match goal with Hb : body_shape _ _ _ |- _ => inversion Hb; subst end.
      * match goal with Hx : setup_exit _ |- _ => exact Hx end.
      * match goal with Ht : test_shape _ _ _ _ |- _ =>
          exact (test_shape_not_errored _ _ _ _ Ht) end.
    + destruct e0; cbn [handled is_Exception]; split; intros e E;
        try discriminate E; injection E as <-;
        (split; [reflexivity | intros E'; discriminate E']).
Qed.

Lemma session_contains_exceptions_witness :
  (forall e, @Raised RunResult SystemExit = Raised e ->
     is_Exception e = false /\ e <> KeyboardInterrupt)
  /\
  (forall e, @Raised RunResult SystemExit = Returned (Errored e) ->
     is_Exception e = true /\ e <> KeyboardInterrupt).
Proof.
  apply (session_contains_exceptions source_config env_exits 5
           (Raised SystemExit)
           (trace_of (run_safe_robot_test source_config env_exits) 5)).
  - vm_compute. reflexivity.
  - vm_compute. auto 10.
Defined.

(** * The retry loop, continued *)

(** [k] conflicts, then an attempt that returns, within the budget. *)
Lemma setup_loop_recovers env fuel
  (Hok : forall p c, In c [Disconnect; Sleep 2; Connect; GetControllerVersion] ->
                     on_call env p c = Returned tt) :
  forall k n tr setp,
  conflicts_then_accepts env (length tr) k setp ->
  (k <= n)%nat ->
  exists ext,
    setup_loop env (S n) fuel tr = Some (Returned (inr setp), tr ++ ext) /\
    count_calls SendOutputSetup ext = S k /\
    count_calls Disconnect ext = k /\
    sleeps ext = repeat 2 k /\
    count_calls Connect ext = k /\
    count_calls SendPause ext = 0%nat /\
    sends ext = [].
Proof.
  induction k as [|k IH]; intros n tr setp Hk Hn.
  - cbn [conflicts_then_accepts] in Hk.
    exists (configure_events env (length tr)).
    destruct (configure_events_counts env (length tr))
      as (C1 & C2 & C3 & C4 & C5 & C6).
    split; [|repeat split; assumption].
    cbn [setup_loop]. unfold bind.
    rewrite (setup_attempt_returned env _ fuel tr setp Hk). reflexivity.
  - destruct Hk as [(e & Ha & Hc) Hrest].
    destruct n as [|n]; [lia|].
    set (tr1 := tr ++ configure_events env (length tr) ++ retry_events false).
    assert (Hlen : length tr1 =
                   (length tr + length (configure_events env (length tr)) + 4)%nat).
    { unfold tr1. rewrite !length_app. cbn [retry_events length app]. lia. }
    rewrite <- Hlen in Hrest.
    destruct (IH n tr1 setp Hrest ltac:(lia))
      as (ext & Heq & A1 & A2 & A3 & A4 & A5 & A6).
    exists (configure_events env (length tr) ++ retry_events false ++ ext).
    destruct (configure_events_counts env (length tr))
      as (C1 & C2 & C3 & C4 & C5 & C6).
    split.
    + change (setup_loop env (S (S n))) with
        (bind (setup_attempt env (S n =? 0)%nat)
           (fun s => match s with
                     | Break setp => ret (inr setp)
                     | Return r => ret (inl r)
                     | Continue => setup_loop env (S n)
                     end)).
      unfold bind.
      rewrite (setup_attempt_retry env _ fuel tr e Ha Hc Hok).
      cbn [Nat.eqb]. fold tr1. rewrite Heq. unfold tr1.
      rewrite <- !app_assoc. reflexivity.
    + rewrite !count_calls_app, !sleeps_app, !sends_app.
      rewrite C1, C2, C3, C4, C5, C6, A1, A2, A3, A4, A5, A6.
      repeat split.
Qed.

(** X12.  A conflict that clears within the budget: when the first [k]
    attempts meet the register conflict and the next one returns, with
    [k] below the budget, the loop ends with the value of that attempt
    after [k + 1] attempts, [k] disconnects each followed by a wait of two
    seconds, and [k] reconnects. *)
Theorem setup_recovers_within_budget env fuel tr k n setp :
  (forall p c, In c [Disconnect; Sleep 2; Connect; GetControllerVersion] ->
               on_call env p c = Returned tt) ->
  conflicts_then_accepts env (length tr) k setp ->
  (k < n)%nat ->
  exists ext,
    setup_loop env n fuel tr = Some (Returned (inr setp), tr ++ ext) /\
    count_calls SendOutputSetup ext = S k /\
    count_calls Disconnect ext = k /\
    sleeps ext = repeat 2 k /\
    count_calls Connect ext = k.
Proof.
  intros Hok Hk Hn. destruct n as [|n]; [lia|].
  destruct (setup_loop_recovers env fuel Hok k n tr setp Hk ltac:(lia))
    as (ext & Heq & A1 & A2 & A3 & A4 & _).
  exists ext. repeat split; assumption.
Qed.

Lemma setup_recovers_within_budget_witness :
  exists ext,
    setup_loop env_flaky max_retries 0%nat
      (prologue "yes" ++ [EvCall Connect (Returned tt);
                          EvCall GetControllerVersion (Returned tt)]) =
    Some (Returned (inr (Some {| recipe_id := 1 |})),
          (prologue "yes" ++ [EvCall Connect (Returned tt);
                              EvCall GetControllerVersion (Returned tt)]) ++ ext)
    /\
    count_calls SendOutputSetup ext = 2%nat /\
    count_calls Disconnect ext = 1%nat /\
    sleeps ext = repeat 2 1%nat /\
    count_calls Connect ext = 1%nat.
Proof.
  apply (setup_recovers_within_budget env_flaky 0%nat
           (prologue "yes" ++ [EvCall Connect (Returned tt);
                               EvCall GetControllerVersion (Returned tt)])
           1%nat max_retries).
  - intros p c _. reflexivity.
  - split; [|reflexivity].
    exists (ValueError "An input parameter is already in use.").
    split; reflexivity.
  - unfold max_retries. lia.
Defined.





(** * The warning before the first command *)

Lemma test_shape_first_send cfg setp ext r :
  test_shape cfg setp ext r ->
  sends ext <> [] ->
  exists st target answer after,
    ext = EvReceive (Returned (Some st)) :: EvCall (Sleep 2) (Returned tt) ::
          EvCall (Send setp target) answer :: after.
Proof.
  intros H Hs; inversion H; subst;
    try (contradiction Hs; reflexivity);
    match goal with
    | Hm : movement_shape _ 1 _ _ _ _ |- _ =>
        destruct (movement_shape_head _ _ _ _ _ _ Hm) as (answer & rest & -> & _)
    end.
  - do 4 eexists. reflexivity.
  - do 4 eexists. cbn [app]. reflexivity.
  - do 4 eexists. cbn [app]. reflexivity.
Qed.

(** X14.  No target is sent without the warning: in a run that sends a
    target, the first [send] directly follows the two-second sleep of line
    267, which returned, and that sleep directly follows the reading of
    the start position; nothing was sent or sampled before. *)
Theorem first_send_follows_warning cfg env fuel r tr :
  exec (run_safe_robot_test cfg env) fuel = Some (r, tr) ->
  sends tr <> [] ->
  exists before st setp target answer after,
    tr = before ++
         EvReceive (Returned (Some st)) :: EvCall (Sleep 2) (Returned tt) ::
         EvCall (Send setp target) answer :: after /\
    sends before = [] /\
    samples before = [].
Proof.
  intros H Hs. apply run_sound in H. inversion H; subst.
  - contradiction Hs. reflexivity.
  - contradiction Hs. apply prologue_events_sends. assumption.
  - match goal with Hb : body_shape _ _ _ |- _ => inversion Hb; subst end.
    + exfalso. apply Hs.
      match goal with
      | Hq : forallb is_setup_event _ = true, Hc : cleanup_shape _ |- _ =>
          destruct (setup_events_quiet _ Hq) as (P1 & _);
          destruct (cleanup_shape_calls _ Hc) as (_ & T1 & _)
      end.
      rewrite !sends_app, P1, T1. reflexivity.
    + match goal with
      | Hq : forallb is_setup_event _ = true, Hc : cleanup_shape _,
        Ht : test_shape _ _ ?x _ |- _ =>
          destruct (setup_events_quiet _ Hq) as (P1 & P2 & _);
          destruct (session_trace_reads response _ x _ Hq Hc) as [Hsends _];
          rewrite Hsends in Hs;
          destruct (test_shape_first_send _ _ _ _ Ht Hs)
            as (st & target & answer & after & ->)
      end.
      exists (prologue response ++ pre), st, setp, target, answer,
             (after ++ teardown).
      split; [|split].
      * rewrite <- !app_assoc. reflexivity.
      * rewrite sends_app, P1. reflexivity.
      * rewrite samples_app, P2. reflexivity.
Qed.

Lemma first_send_follows_warning_witness :
  exists before st setp target answer after,
    trace_of (run_safe_robot_test source_config env_ok) 5 =
      before ++
      EvReceive (Returned (Some st)) :: EvCall (Sleep 2) (Returned tt) ::
      EvCall (Send setp target) answer :: after /\
    sends before = [] /\
    samples before = [].
Proof.
  apply (first_send_follows_warning source_config env_ok 5 (Returned Completed)).
  - vm_compute. reflexivity.
  - vm_compute. discriminate.
Defined.

(** * The polling loop, continued *)

Ltac norm_app :=
  repeat first [rewrite <- app_assoc | progress cbn [app]]; reflexivity.

Lemma round_events_polling rounds :
  forallb is_polling_event (round_events rounds) = true.
Proof.
  induction rounds as [|r rounds IH]; [reflexivity|].
  rewrite round_events_cons, forallb_app, IH. reflexivity.
Qed.

Lemma wait_exit_polling start timeout tail r :
  wait_exit start timeout tail r -> forallb is_polling_event tail = true.
Proof.
  intros H; inversion H; reflexivity.
Qed.

(** X15.  Waiting only observes.  Whichever way the wait ends, by a value
    or by an exception, the calls it made are clock readings, telemetry
    requests and sleeps of a hundredth of a second: it sends no target and
    never pauses, connects or disconnects. *)
Theorem wait_only_polls env timeout fuel tr r tr' :
  wait_for_move_completion env timeout fuel tr = Some (r, tr') ->
  exists ext,
    tr' = tr ++ ext /\
    forallb is_polling_event ext = true /\
    sends ext = [] /\
    count_calls SendPause ext = 0%nat.
Proof.
  intros H. apply wait_for_move_completion_shape in H.
  destruct H as (ext & -> & Hshape).
  exists (EvTime (on_time env (length tr)) :: ext).
  split; [reflexivity|].
  destruct (wait_shape_quiet _ _ _ _ Hshape) as [Hsends Hpause].
  destruct Hshape as (rounds & tail & -> & _ & Hexit).
  split; [|split].
  - cbn [forallb is_polling_event].
    rewrite forallb_app, round_events_polling, (wait_exit_polling _ _ _ _ Hexit).
    reflexivity.
  - exact Hsends.
  - rewrite count_calls_cons. exact Hpause.
Qed.

Lemma wait_only_polls_witness :
  exists ext,
    trace_of (wait_for_move_completion env_moving 10) 5%nat = [] ++ ext /\
    forallb is_polling_event ext = true /\
    sends ext = [] /\
    count_calls SendPause ext = 0%nat.
Proof.
  apply (wait_only_polls env_moving 10 5 [] (Returned false)).
  vm_compute. reflexivity.
Defined.

Lemma velocity_check_raises st e :
  velocity_check st = Raised e ->
  actual_qd st = [] /\ exists msg, e = ValueError msg.
Proof.
  unfold velocity_check, max_abs_velocity, py_max.
  destruct (actual_qd st) as [|v vs]; cbn [map]; intros H.
  - split; [reflexivity|]. injection H as <-. eexists. reflexivity.
  - discriminate H.
Qed.

(** X16.  The exceptions of the wait.  The wait raises only what its last
    call raised, a telemetry request or a sleep, or the [ValueError] of
    [max] on a sample that carries no joint velocity (line 101).  And a
    first sample without velocities, requested within the timeout, does
    make the wait raise [ValueError] rather than return. *)
Theorem wait_exceptions env timeout fuel tr :
  (forall e tr',
     wait_for_move_completion env timeout fuel tr = Some (Raised e, tr') ->
     exists before,
       (tr' = before ++ [EvReceive (Raised e)]) \/
       (tr' = before ++ [EvCall (Sleep (1 # 100)) (Raised e)]) \/
       (exists st msg,
          tr' = before ++ [EvReceive (Returned (Some st))] /\
          actual_qd st = [] /\ e = ValueError msg))
  /\
  (forall st,
     Qltb (on_time env (S (length tr)) - on_time env (length tr)) timeout
       = true ->
     on_receive env (S (S (length tr))) = Returned (Some st) ->
     actual_qd st = [] ->
     (0 < fuel)%nat ->
     exists msg,
       wait_for_move_completion env timeout fuel tr =
       Some (Raised (ValueError msg),
             tr ++ [EvTime (on_time env (length tr));
                    EvTime (on_time env (S (length tr)));
                    EvReceive (Returned (Some st))])).
Proof.
  split.
  - intros e tr' H. apply wait_for_move_completion_shape in H.
    destruct H as (ext & -> & rounds & tail & -> & _ & Hexit).
    inversion Hexit; subst.
    + exists (tr ++ EvTime (on_time env (length tr)) ::
              round_events rounds ++ [EvTime t]).
      left. norm_app.
    + match goal with Hv : velocity_check _ = Raised _ |- _ =>
        destruct (velocity_check_raises _ _ Hv) as (Hqd & msg & ->) end.
      exists (tr ++ EvTime (on_time env (length tr)) ::
              round_events rounds ++ [EvTime t]).
      right. right. exists st, msg.
      split; [|split; [exact Hqd | reflexivity]].
      norm_app.
    + exists (tr ++ EvTime (on_time env (length tr)) ::
              round_events rounds ++
              [EvTime t; EvReceive (Returned (Some st))]).
      right. left. norm_app.
  - intros st Ht Hrecv Hqd Hfuel.
    destruct fuel as [|k]; [lia|].
    exists "max() arg is an empty sequence"%string.
    unfold wait_for_move_completion, bind. rewrite time_time_eq.
    rewrite wait_loop_S_eq. cbv zeta. rewrite !length_snoc, Ht, Hrecv.
    unfold velocity_check, max_abs_velocity. rewrite Hqd. cbn [map py_max].
    rewrite <- !app_assoc. reflexivity.
Qed.

Lemma wait_exceptions_witness :
  exists msg,
    wait_for_move_completion env_no_velocity 10 5%nat [] =
    Some (Raised (ValueError msg),
          [] ++ [EvTime (on_time env_no_velocity (length (@nil event)));
                 EvTime (on_time env_no_velocity (S (length (@nil event))));
                 EvReceive (Returned (Some {| actual_q := home;
                                              actual_qd := [];
                                              target_q := home;
                                              robot_mode := 7;
                                              safety_mode := 1 |}))]).
Proof.
  destruct (wait_exceptions env_no_velocity 10 5 []) as [_ H].
  apply H.
  - vm_compute. reflexivity.
  - reflexivity.
  - reflexivity.
  - lia.
Defined.

Lemma wait_loop_stalled env start timeout fuel :
  (forall p, Qltb (on_time env p - start) timeout = true) ->
  (forall p, exists st, on_receive env p = Returned (Some st) /\
                        velocity_check st = Returned false) ->
  (forall p, on_call env p (Sleep (1 # 100)) = Returned tt) ->
  forall k tr, wait_loop env k start timeout fuel tr = None.
Proof.
  intros Hclock Hrecv Hsleep. induction k as [|k IH]; intros tr.
  - rewrite wait_loop_0_eq, Hclock. reflexivity.
  - rewrite wait_loop_S_eq. cbv zeta. rewrite Hclock.
    destruct (Hrecv (length (tr ++ [EvTime (on_time env (length tr))])))
      as (st & -> & ->).
    rewrite Hsleep. apply IH.
Qed.

(** X17.  The wait is bounded by the clock alone.  With a clock that
    eventually passes every instant, the wait ends, whatever the robot
    does.  With a clock that stays within the timeout, an arm that keeps
    moving and sleeps that return, the wait never ends: the loop counts no
    rounds. *)
Theorem wait_bounded_by_clock_alone env timeout tr :
  (clock_passes env ->
   exists fuel0 r tr',
     forall fuel, (fuel0 <= fuel)%nat ->
       wait_for_move_completion env timeout fuel tr = Some (r, tr'))
  /\
  ((forall p, Qltb (on_time env p - on_time env (length tr)) timeout = true) ->
   (forall p, exists st, on_receive env p = Returned (Some st) /\
                         velocity_check st = Returned false) ->
   (forall p, on_call env p (Sleep (1 # 100)) = Returned tt) ->
   forall fuel, wait_for_move_completion env timeout fuel tr = None).
Proof.
  split.
  - intros Hclock. apply (returns_wait env Hclock timeout tr).
  - intros Hclock Hrecv Hsleep fuel.
    unfold wait_for_move_completion, bind. rewrite time_time_eq.
    apply wait_loop_stalled; assumption.
Qed.

Lemma wait_bounded_by_clock_alone_witness :
  (exists fuel0 r tr',
     forall fuel, (fuel0 <= fuel)%nat ->
       wait_for_move_completion env_moving 10 fuel [] = Some (r, tr'))
  /\
  (forall fuel, wait_for_move_completion env_frozen 10 fuel [] = None).
Proof.
  split.
  - apply (wait_bounded_by_clock_alone env_moving 10 []).
    apply clock_of_seconds_passes. intros n. reflexivity.
  - apply (wait_bounded_by_clock_alone env_frozen 10 []).
    + intros p. reflexivity.
    + intros p. exists (moving home). split; reflexivity.
    + intros p. reflexivity.
Defined.

Lemma velocity_check_reads_velocities st1 st2 :
  actual_qd st1 = actual_qd st2 -> velocity_check st1 = velocity_check st2.
Proof.
  intros H. unfold velocity_check, max_abs_velocity. rewrite H. reflexivity.
Qed.

Lemma wait_loop_ignores_positions env1 env2 start timeout fuel1 fuel2 :
  (forall p, on_time env1 p = on_time env2 p) ->
  (forall p, on_call env1 p (Sleep (1 # 100)) = on_call env2 p (Sleep (1 # 100))) ->
  (forall p, same_velocities (on_receive env1 p) (on_receive env2 p)) ->
  forall k tr1 tr2,
    length tr1 = length tr2 ->
    result_of (wait_loop env1 k start timeout fuel1 tr1) =
    result_of (wait_loop env2 k start timeout fuel2 tr2).
Proof.
  intros Htime Hsleep Hrecv. induction k as [|k IH]; intros tr1 tr2 Hlen.
  - rewrite !wait_loop_0_eq, Hlen, Htime.
    destruct (Qltb _ timeout); reflexivity.
  - rewrite !wait_loop_S_eq. cbv zeta.
    rewrite !length_snoc, Hlen, Htime.
    destruct (Qltb _ timeout); [|reflexivity].
    pose proof (Hrecv (S (length tr2))) as Hr. unfold same_velocities in Hr.
    destruct (on_receive env1 (S (length tr2))) as [[st1|]|e1];
      destruct (on_receive env2 (S (length tr2))) as [[st2|]|e2];
      try contradiction; try reflexivity.
    + rewrite (velocity_check_reads_velocities st1 st2 Hr).
      destruct (velocity_check st2) as [[|]|e]; try reflexivity.
      rewrite !length_snoc, Hlen, Hsleep.
      destruct (on_call env2 (S (S (length tr2))) (Sleep (1 # 100)));
        [|reflexivity].
      apply IH. rewrite !length_snoc, Hlen. reflexivity.
    + subst e2. reflexivity.
Qed.

(** X19.  Completion is judged on the velocities alone.  Two robots that
    answer the clock, the sleeps and the telemetry requests alike, but for
    the positions and modes their samples carry, make the wait end the same
    way: the position reached is never compared with the target. *)
Theorem wait_ignores_positions env1 env2 timeout fuel tr1 tr2 :
  length tr1 = length tr2 ->
  (forall p, on_time env1 p = on_time env2 p) ->
  (forall p, on_call env1 p (Sleep (1 # 100)) = on_call env2 p (Sleep (1 # 100))) ->
  (forall p, same_velocities (on_receive env1 p) (on_receive env2 p)) ->
  result_of (wait_for_move_completion env1 timeout fuel tr1) =
  result_of (wait_for_move_completion env2 timeout fuel tr2).
Proof.
  intros Hlen Htime Hsleep Hrecv.
  unfold wait_for_move_completion, bind. rewrite !time_time_eq.
  rewrite Hlen, Htime.
  apply wait_loop_ignores_positions; try assumption.
  rewrite !length_snoc, Hlen. reflexivity.
Qed.

Lemma wait_ignores_positions_witness :
  result_of (wait_for_move_completion env_ok 10 5%nat []) =
  result_of (wait_for_move_completion env_elsewhere 10 5%nat []).
Proof.
  apply (wait_ignores_positions env_ok env_elsewhere 10 5%nat [] []).
  - reflexivity.
  - intros p. reflexivity.
  - intros p. reflexivity.
  - intros p. reflexivity.
Defined.

(** * The connection clearer *)

Ltac clear_fails n e :=
  let Hex := fresh "Hex" in
  destruct (is_Exception e) eqn:Hex;
  do 2 eexists; (split; [reflexivity|]); right; exists n, e;
  (split; [lia|]); (split; [reflexivity|]); rewrite Hex; reflexivity.

(** X18.  [clear_rtde_connection.py] makes its six calls in order and
    stops at the first one that raises: no later step is attempted, so a
    pause that fails leaves the session connected, without the disconnect
    and without the wait of five seconds.  An exception of the [Exception]
    class is reported and the script goes on to its last line; any other
    leaves the script.  The script reports success only when all six calls
    returned. *)
Theorem clear_stops_at_first_failure env fuel :
  exists r tr,
    exec (clear_rtde_connection env) fuel = Some (r, tr) /\
    ((r = Returned Cleared /\
      tr = map (fun c => EvCall c (Returned tt)) clear_steps)
     \/
     (exists n e,
        (n < 6)%nat /\
        tr = map (fun c => EvCall c (Returned tt)) (firstn n clear_steps) ++
             [EvCall (nth n clear_steps NewRTDE) (Raised e)] /\
        r = if is_Exception e then Returned (ClearFailed e) else Raised e)).
Proof.
  unfold exec, clear_rtde_connection, try_except.
  unfold bind at 1. rewrite do_call_eq. cbn [length app].
  destruct (on_call env 0 NewRTDE) as [[]|e].
  2:{ clear_fails 0%nat e. }
  unfold bind at 1. rewrite do_call_eq. cbn [length app].
  destruct (on_call env 1 Connect) as [[]|e].
  2:{ clear_fails 1%nat e. }
  unfold bind at 1. rewrite do_call_eq. cbn [length app].
  destruct (on_call env 2 GetControllerVersion) as [[]|e].
  2:{ clear_fails 2%nat e. }
  unfold bind at 1. rewrite do_call_eq. cbn [length app].
  destruct (on_call env 3 SendPause) as [[]|e].
  2:{ clear_fails 3%nat e. }
  unfold bind at 1. rewrite do_call_eq. cbn [length app].
  destruct (on_call env 4 Disconnect) as [[]|e].
  2:{ clear_fails 4%nat e. }
  unfold bind at 1. rewrite do_call_eq. cbn [length app].
  destruct (on_call env 5 (Sleep 5)) as [[]|e].
  2:{ clear_fails 5%nat e. }
  do 2 eexists. split; [reflexivity|]. left. split; reflexivity.
Qed.

(** A pause that fails: the script reports the error with the session
    still connected. *)
Example failed_pause_leaves_session_connected :
  exec (clear_rtde_connection env_pause_fails) 0 =
  Some (Returned (ClearFailed (OtherError "ConnectionResetError")),
        [EvCall NewRTDE (Returned tt); EvCall Connect (Returned tt);
         EvCall GetControllerVersion (Returned tt);
         EvCall SendPause (Raised (OtherError "ConnectionResetError"))]).
Proof. reflexivity. Qed.

(** An interrupt while connecting leaves the script. *)
Example interrupted_clear_escapes :
  exec (clear_rtde_connection env_interrupted_connect) 0 =
  Some (Raised KeyboardInterrupt,
        [EvCall NewRTDE (Returned tt); EvCall Connect (Raised KeyboardInterrupt)]).
Proof. reflexivity. Qed.
